(** * Attendance verification engine of the Employee Management System

    A shallow embedding of the attendance verification code of
    [src/main.js] (class [EmployeeManagementSystem], methods
    [verifyAttendance], [verifyGPSLocation], [checkLocationConsistency],
    [checkSpeedAnomaly], [checkAltitudeAnomaly], [calculateDistance],
    [verifyAttendanceTime], [verifyAttendancePattern],
    [calculateStandardDeviation], [getWorkStartTime], [getWorkEndTime]),
    followed by the properties of the specification that concern it.

    Numbers.  A JavaScript number that is known to be an integer (minutes
    since midnight, epoch milliseconds, array lengths) is a [Z].  The
    numbers of the pattern check (the mean, the standard deviation, the
    deviation of the current time) are IEEE 754 doubles, [F64.double], and
    every operation on them rounds as the language does.  The numbers of
    the geolocation checks are [jsnum]: an exact rational, or [None] for
    [NaN] and for the [undefined]/[null] of an absent field (both are
    falsy and both poison arithmetic and comparisons); for these the
    rounding of doubles and the infinities are outside the model, and the
    source only ever divides them by non-zero constants, positive array
    lengths and positive time differences.  The builtins of [Math] that
    the language leaves to the implementation are a parameter of the
    development (class [MathLib]). *)

From Stdlib Require Import ZArith QArith Qabs Qreduction List String Bool Lia Lqa.
From Stdlib Require SpecFloat.
Import ListNotations.

(** ** JavaScript numbers *)

Definition jsnum : Type := option Q.

Module JS.

Definition NaN : jsnum := None.
Definition num (q : Q) : jsnum := Some (Qred q).
Definition int (z : Z) : jsnum := Some (inject_Z z).

Definition lift1 (f : Q -> Q) (a : jsnum) : jsnum :=
  match a with
  | Some x => Some (Qred (f x))
  | None => None
  end.

Definition lift2 (f : Q -> Q -> Q) (a b : jsnum) : jsnum :=
  match a, b with
  | Some x, Some y => Some (Qred (f x y))
  | _, _ => None
  end.

Definition add : jsnum -> jsnum -> jsnum := lift2 Qplus.
Definition sub : jsnum -> jsnum -> jsnum := lift2 Qminus.
Definition mul : jsnum -> jsnum -> jsnum := lift2 Qmult.

(** [a / b]; a zero divisor (an infinity or [NaN] in JavaScript) does not
    occur in the modelled code and is mapped to [NaN]. *)
Definition div (a b : jsnum) : jsnum :=
  match a, b with
  | Some x, Some y => if Qeq_bool y 0 then None else Some (Qred (x / y))
  | _, _ => None
  end.

(** Comparisons: any comparison with [NaN] is [false]. *)
Definition leb (a b : jsnum) : bool :=
  match a, b with
  | Some x, Some y => Qle_bool x y
  | _, _ => false
  end.

Definition ltb (a b : jsnum) : bool :=
  match a, b with
  | Some x, Some y => negb (Qle_bool y x)
  | _, _ => false
  end.

Definition geb (a b : jsnum) : bool := leb b a.
Definition gtb (a b : jsnum) : bool := ltb b a.

(** Truthiness of a number-valued field: [0], [NaN], [undefined] and
    [null] are falsy. *)
Definition truthy (a : jsnum) : bool :=
  match a with
  | Some x => negb (Qeq_bool x 0)
  | None => false
  end.

(** [Math.abs] is exact on rationals. *)
Definition Math_abs : jsnum -> jsnum := lift1 Qabs.

(** [numbers.reduce((a, b) => a + b, 0)] *)
Definition sum (numbers : list jsnum) : jsnum := fold_left add numbers (int 0).

(** [array.length] as a number. *)
Definition length {A} (l : list A) : jsnum := int (Z.of_nat (List.length l)).

End JS.

Declare Scope js_scope.
Delimit Scope js_scope with js.
Infix "+" := JS.add : js_scope.
Infix "-" := JS.sub : js_scope.
Infix "*" := JS.mul : js_scope.
Infix "/" := JS.div : js_scope.
Infix "<=?" := JS.leb : js_scope.
Infix "<?" := JS.ltb : js_scope.
Infix ">=?" := JS.geb : js_scope.
Infix ">?" := JS.gtb : js_scope.

(** ** Doubles

    The number type of the language: the binary64 format of IEEE 754,
    with one [NaN], signed zeros and infinities.  The arithmetic
    operations round to nearest, ties to even. *)

Module F64.

Definition double : Type := SpecFloat.spec_float.

Definition prec : Z := 53.
Definition emax : Z := 1024.

Definition NaN : double := SpecFloat.S754_nan.
Definition zero : double := SpecFloat.S754_zero false.

(** The double of an integer: the integer itself up to 2^53, the nearest
    double beyond. *)
Definition of_Z (z : Z) : double := SpecFloat.binary_normalize prec emax z 0 false.

Definition add : double -> double -> double := SpecFloat.SFadd prec emax.
Definition sub : double -> double -> double := SpecFloat.SFsub prec emax.
Definition mul : double -> double -> double := SpecFloat.SFmul prec emax.
Definition div : double -> double -> double := SpecFloat.SFdiv prec emax.

(** [a <= b]; any comparison with [NaN] is [false]. *)
Definition leb : double -> double -> bool := SpecFloat.SFleb.

(** [Math.abs] *)
Definition Math_abs : double -> double := SpecFloat.SFabs.

(** [numbers.reduce((a, b) => a + b, 0)] *)
Definition sum (numbers : list double) : double := fold_left add numbers zero.

(** [array.length] as a number. *)
Definition length {A} (l : list A) : double := of_Z (Z.of_nat (List.length l)).

(** The correctly rounded square root, and the power with an integer
    exponent by repeated multiplication: [pow x 2] is [x * x]. *)
Definition sqrt : double -> double := SpecFloat.SFsqrt prec emax.

Definition pow (x : double) (n : Z) : double :=
  match n with
  | Z0 => of_Z 1
  | Zpos p => Pos.iter (mul x) (of_Z 1) p
  | Zneg p => div (of_Z 1) (Pos.iter (mul x) (of_Z 1) p)
  end.

(** The number of binary digits of a positive integer, and the double
    that a non-zero integer of at most 53 digits is: its digits shifted
    to the top of the 53-bit mantissa. *)
Definition digits (p : positive) : Z := Zpos (SpecFloat.digits2_pos p).

Definition canonical (s : bool) (p : positive) : double :=
  SpecFloat.S754_finite s (Pos.shiftl_nat p (Z.to_nat (53 - digits p))) (digits p - 53).

End F64.

Declare Scope f64_scope.
Delimit Scope f64_scope with f64.
Infix "+" := F64.add : f64_scope.
Infix "-" := F64.sub : f64_scope.
Infix "*" := F64.mul : f64_scope.
Infix "/" := F64.div : f64_scope.
Infix "<=?" := F64.leb : f64_scope.

(** The builtins of [Math] whose results the language leaves to the
    implementation: on the exact numbers of the geolocation checks, and
    [Math.pow] (with an integer exponent) and [Math.sqrt] on doubles. *)
Class MathLib : Type := {
  Math_PI : jsnum;
  Math_sin : jsnum -> jsnum;
  Math_cos : jsnum -> jsnum;
  Math_sqrt : jsnum -> jsnum;
  Math_atan2 : jsnum -> jsnum -> jsnum;
  Math_pow_double : F64.double -> Z -> F64.double;
  Math_sqrt_double : F64.double -> F64.double
}.

(** ** Exceptions and the mutable verdict *)

(** The outcome of a call that may throw (an awaited promise that may
    reject). *)
Inductive result (A : Type) : Type :=
| Ok (a : A)
| Throw (error : string).
Arguments Ok {A} a.
Arguments Throw {A} error.

Definition try_catch {A} (body : result A) (handler : string -> result A) : result A :=
  match body with
  | Ok a => Ok a
  | Throw e => handler e
  end.

(** Code that mutates an object of type [S] and may throw: the mutations
    made before a [throw] are still there when the [catch] block runs. *)
Definition M (S A : Type) : Type := S -> result A * S.

Definition ret {S A} (a : A) : M S A := fun s => (Ok a, s).

Definition bind {S A B} (m : M S A) (k : A -> M S B) : M S B :=
  fun s =>
    match m s with
    | (Ok a, s') => k a s'
    | (Throw e, s') => (Throw e, s')
    end.

Definition await {S A} (r : result A) : M S A := fun s => (r, s).
Definition get {S} : M S S := fun s => (Ok s, s).
Definition modify {S} (f : S -> S) : M S unit := fun s => (Ok tt, f s).
Definition when {S} (b : bool) (m : M S unit) : M S unit := if b then m else ret tt.

Definition try_catchM {S A} (body : M S A) (handler : string -> M S A) : M S A :=
  fun s =>
    match body s with
    | (Ok a, s') => (Ok a, s')
    | (Throw e, s') => handler e s'
    end.

Declare Scope monad_scope.
Delimit Scope monad_scope with monad.
Notation "x <- m ;; k" := (bind m (fun x => k))
  (at level 61, m at next level, right associativity) : monad_scope.
Notation "m ;; k" := (bind m (fun _ => k))
  (at level 61, right associativity) : monad_scope.

Notation "'let?' x ':=' m 'in' k" :=
  (match m with Ok x => k | Throw e => Throw e end)
  (at level 10, x name, k at level 200).

Local Open Scope string_scope.

(** ** Data *)

(** A location sample of the tracker. *)
Record Location : Type := {
  latitude : jsnum;
  longitude : jsnum;
  accuracy : jsnum;
  altitude : jsnum;
  timestamp : Z   (* epoch milliseconds *)
}.

(** What the code reads of a [Date]: local hours and minutes. *)
Record Date : Type := {
  getHours : Z;
  getMinutes : Z
}.

(** A stored attendance record, as far as the verification reads it;
    [None] is a falsy [timestamp], otherwise [new Date(a.timestamp)]. *)
Record AttendanceRecord : Type := {
  ar_type : string;
  ar_timestamp : option Date
}.

(** The stored settings; a time ["HH:MM"] is kept as the two numbers that
    [split(':').map(Number)] yields, [None] is an absent (falsy) entry. *)
Record Settings : Type := {
  workStartTime : option (Z * Z);
  workEndTime : option (Z * Z)
}.

(** The evidence a spoofing check returns next to [passed]. *)
Inductive Evidence : Type :=
| ConsistencyEvidence (distance timeDiff maxPossibleDistance : jsnum)
| SpeedEvidence (avgSpeed lastSpeed speedChange : jsnum)
| AltitudeEvidence (altitude minAltitude maxAltitude : jsnum)
| Reason (reason : string).

Record SpoofingCheck : Type := {
  passed : bool;
  evidence : Evidence
}.

Record GPSLocation : Type := {
  gl_latitude : jsnum;
  gl_longitude : jsnum;
  gl_accuracy : jsnum;
  gl_timestamp : Z
}.

Record GPSMetadata : Type := {
  gm_accuracy : jsnum;
  gm_spoofingChecks : list SpoofingCheck;
  gm_officeDistance : jsnum
}.

(** The object [verifyGPSLocation] returns: either [{verified, reason}] or
    [{verified, location, metadata}]. *)
Record GPSVerification : Type := {
  gv_verified : bool;
  gv_reason : option string;
  gv_location : option GPSLocation;
  gv_metadata : option GPSMetadata
}.

Record TimeMetadata : Type := {
  tm_currentTime : Z;
  tm_workStart : Z;
  tm_workEnd : Z;
  tm_type : string
}.

Record TimeVerification : Type := {
  tv_verified : bool;
  tv_reason : string;
  tv_metadata : TimeMetadata
}.

Record PatternMetadata : Type := {
  pm_avgCheckIn : F64.double;
  pm_currentTime : Z;
  pm_timeDiff : F64.double;
  pm_stdDev : F64.double;
  pm_historyCount : nat
}.

Record PatternVerification : Type := {
  pv_verified : bool;
  pv_reason : string;
  pv_metadata : option PatternMetadata
}.

(** [verification.metadata]: every key is optional. *)
Record Metadata : Type := {
  md_gps : option GPSMetadata;
  md_time : option TimeMetadata;
  md_pattern : option PatternMetadata;
  md_verificationLevel : option string
}.

(** The verdict object [verification] of [verifyAttendance]. *)
Record Verification : Type := {
  verified : bool;
  method : string;
  location : option GPSLocation;
  created : Date;   (* the field [timestamp] *)
  metadata : Metadata
}.

(** ** Collaborators *)

(** The tracker of [modules/gps/gps-tracker.js], as the verification uses
    it: the outcome of [getCurrentLocation()] (it may reject, and it may
    resolve to no location), the window [getRecentLocations()] (oldest
    first), and the configured office point and range. *)
Record GPSTracker : Type := {
  getCurrentLocation : result (option Location);
  getRecentLocations : list Location;
  officeLocation : jsnum * jsnum;   (* lat, lng *)
  maxDistance : jsnum
}.

(** The three [new Date()] of one verification. *)
Record Clock : Type := {
  now_verifyAttendance : Date;
  now_verifyAttendanceTime : Date;
  now_verifyAttendancePattern : Date
}.

(** The state of the application object that one verification reads.
    [modals_show n] is what the call of [this.modals.show] for the dialog
    number [n] of a run does (they are counted from 0): it returns, or it
    throws.  A dialog that has been shown is answered with
    [modal_answer]; at most one dialog of a run is. *)
Record EMS : Type := {
  config_GPS_ANTI_SPOOFING : bool;
  gpsTracker : GPSTracker;
  currentUser : option Z;   (* [this.currentUser], by its [id] *)
  attendance_getUserAttendance : Z -> Z -> result (list AttendanceRecord);
  storage_settings : option Settings;   (* [this.storage.get('settings')] *)
  clock : Clock;
  modals_show : nat -> result unit;
  modal_answer : bool   (* [onVerify] (true) or [onCancel] (false) of the dialog *)
}.

(** What one run of [verifyAttendance] changes: the object
    [verification], and the number of manual verification dialogs it has
    asked for. *)
Record Run : Type := {
  run_verification : Verification;
  run_dialogs : nat
}.

(** ** The verification code *)

Section Verification.

Context {math : MathLib}.

Local Open Scope Z_scope.

(** [calculateDistance(lat1, lon1, lat2, lon2)]: the haversine formula. *)
Definition calculateDistance (lat1 lon1 lat2 lon2 : jsnum) : jsnum :=
  let R := JS.int 6371000 in   (* Earth radius in meters *)
  let phi1 := (lat1 * Math_PI / JS.int 180)%js in
  let phi2 := (lat2 * Math_PI / JS.int 180)%js in
  let dphi := ((lat2 - lat1) * Math_PI / JS.int 180)%js in
  let dlambda := ((lon2 - lon1) * Math_PI / JS.int 180)%js in
  let a := (Math_sin (dphi / JS.int 2) * Math_sin (dphi / JS.int 2) +
            Math_cos phi1 * Math_cos phi2 *
            Math_sin (dlambda / JS.int 2) * Math_sin (dlambda / JS.int 2))%js in
  let c := (JS.int 2 * Math_atan2 (Math_sqrt a) (Math_sqrt (JS.int 1 - a)))%js in
  (R * c)%js.

(** Modelled from the spec: [GPSTracker.isInOfficeRange] of
    [modules/gps/gps-tracker.js], which is not among the sources.  The
    location is in range iff its great-circle (haversine) distance to the
    configured office point is at most the configured max distance. *)
Definition isInOfficeRange (tracker : GPSTracker) (lat lon : jsnum) : bool :=
  (calculateDistance (fst (officeLocation tracker)) (snd (officeLocation tracker)) lat lon
     <=? maxDistance tracker)%js.

(** [calculateStandardDeviation(numbers)] *)
Definition calculateStandardDeviation (numbers : list F64.double) : F64.double :=
  let avg := (F64.sum numbers / F64.length numbers)%f64 in
  let squareDiffs := map (fun n => Math_pow_double (n - avg)%f64 2) numbers in
  let avgSquareDiff := (F64.sum squareDiffs / F64.length squareDiffs)%f64 in
  Math_sqrt_double avgSquareDiff.

Variable this : EMS.

(** [checkLocationConsistency(location)] *)
Definition checkLocationConsistency (location : Location) : SpoofingCheck :=
  let recentLocations := getRecentLocations (gpsTracker this) in
  match rev recentLocations with
  | lastLocation :: _ =>   (* length > 0; recentLocations[length - 1] *)
      let distance := calculateDistance
                        (latitude lastLocation) (longitude lastLocation)
                        (latitude location) (longitude location) in
      let timeDiff :=
        (JS.int (timestamp location - timestamp lastLocation) / JS.int 1000)%js in
      let maxSpeed := JS.int 50 in   (* meters per second (180 km/h) *)
      let possibleDistance := (maxSpeed * timeDiff)%js in
      {| passed := (distance <=? possibleDistance)%js;
         evidence := ConsistencyEvidence distance timeDiff possibleDistance |}
  | [] => {| passed := true; evidence := Reason "No previous locations" |}
  end.

(** The loop of [checkSpeedAnomaly]: one speed per pair of consecutive
    samples whose time difference is positive, in order. *)
Fixpoint intervalSpeeds (recentLocations : list Location) : list jsnum :=
  match recentLocations with
  | loc1 :: (loc2 :: _) as rest =>
      let distance := calculateDistance
                        (latitude loc1) (longitude loc1)
                        (latitude loc2) (longitude loc2) in
      let timeDiff := (JS.int (timestamp loc2 - timestamp loc1) / JS.int 1000)%js in
      if (timeDiff >? JS.int 0)%js
      then (distance / timeDiff)%js :: intervalSpeeds rest
      else intervalSpeeds rest
  | _ => []
  end.

(** [checkSpeedAnomaly(location)]; the argument is not used. *)
Definition checkSpeedAnomaly (location : Location) : SpoofingCheck :=
  let recentLocations := getRecentLocations (gpsTracker this) in
  let insufficient := {| passed := true; evidence := Reason "Insufficient data" |} in
  if (2 <=? List.length recentLocations)%nat then
    let speeds := intervalSpeeds recentLocations in
    if (0 <? List.length speeds)%nat then
      let avgSpeed := (JS.sum speeds / JS.length speeds)%js in
      let lastSpeed := last speeds JS.NaN in
      let speedChange := JS.Math_abs (lastSpeed - avgSpeed)%js in
      {| passed := (speedChange <? JS.int 20)%js;
         evidence := SpeedEvidence avgSpeed lastSpeed speedChange |}
    else insufficient
  else insufficient.

(** [checkAltitudeAnomaly(location)] *)
Definition checkAltitudeAnomaly (location : Location) : SpoofingCheck :=
  if JS.truthy (altitude location) then
    let minAltitude := JS.int 800 in
    let maxAltitude := JS.int 2000 in
    {| passed := (altitude location >=? minAltitude)%js &&
                 (altitude location <=? maxAltitude)%js;
       evidence := AltitudeEvidence (altitude location) minAltitude maxAltitude |}
  else {| passed := true; evidence := Reason "No altitude data" |}.

(** [verifyGPSLocation()] *)
Definition verifyGPSLocation : result GPSVerification :=
  try_catch
    (let? location := getCurrentLocation (gpsTracker this) in
     match location with
     | None =>
         Ok {| gv_verified := false; gv_reason := Some "موقعیت نامعتبر";
               gv_location := None; gv_metadata := None |}
     | Some location =>
         if negb (JS.truthy (latitude location)) || negb (JS.truthy (longitude location))
         then Ok {| gv_verified := false; gv_reason := Some "موقعیت نامعتبر";
                    gv_location := None; gv_metadata := None |}
         else
           let inRange := isInOfficeRange (gpsTracker this)
                            (latitude location) (longitude location) in
           if negb inRange
           then Ok {| gv_verified := false; gv_reason := Some "خارج از محدوده مجاز";
                      gv_location := None; gv_metadata := None |}
           else
             let spoofingChecks := [ checkLocationConsistency location;
                                     checkSpeedAnomaly location;
                                     checkAltitudeAnomaly location ] in
             let allChecksPassed := forallb passed spoofingChecks in
             Ok {| gv_verified := allChecksPassed;
                   gv_reason := None;
                   gv_location := Some {| gl_latitude := latitude location;
                                          gl_longitude := longitude location;
                                          gl_accuracy := accuracy location;
                                          gl_timestamp := timestamp location |};
                   gv_metadata := Some {| gm_accuracy := accuracy location;
                                          gm_spoofingChecks := spoofingChecks;
                                          (* [inRange.distance] of a boolean *)
                                          gm_officeDistance := JS.NaN |} |}
     end)
    (fun error =>
       Ok {| gv_verified := false; gv_reason := Some "خطا در دریافت موقعیت";
             gv_location := None; gv_metadata := None |}).

(** [getWorkStartTime()], in minutes; the default is 8:00. *)
Definition getWorkStartTime : Z :=
  match storage_settings this with
  | Some settings =>
      match workStartTime settings with
      | Some (hours, minutes) => hours * 60 + minutes
      | None => 8 * 60
      end
  | None => 8 * 60
  end.

(** [getWorkEndTime()], in minutes; the default is 17:00. *)
Definition getWorkEndTime : Z :=
  match storage_settings this with
  | Some settings =>
      match workEndTime settings with
      | Some (hours, minutes) => hours * 60 + minutes
      | None => 17 * 60
      end
  | None => 17 * 60
  end.

(** [verifyAttendanceTime(type)] *)
Definition verifyAttendanceTime (type : string) : TimeVerification :=
  let now := now_verifyAttendanceTime (clock this) in
  let currentTime := getHours now * 60 + getMinutes now in   (* minutes since midnight *)
  let workStart := getWorkStartTime in
  let workEnd := getWorkEndTime in
  let '(verified, reason) :=
    if (type =? "check_in")%string then
      (* around work start time, plus or minus 2 hours *)
      let verified := Z.abs (currentTime - workStart) <=? 120 in
      (verified, if verified then EmptyString else "زمان ورود خارج از محدوده مجاز")
    else if (type =? "check_out")%string then
      (* after work start, at most 10 hours *)
      let verified := (currentTime >=? workStart) && (currentTime <=? workStart + 600) in
      (verified, if verified then EmptyString else "زمان خروج نامعتبر")
    else (false, EmptyString) in
  {| tv_verified := verified;
     tv_reason := reason;
     tv_metadata := {| tm_currentTime := currentTime; tm_workStart := workStart;
                       tm_workEnd := workEnd; tm_type := type |} |}.

(** The minute-of-day values of the check-in records:
    [userAttendance.filter(...).map(...)]; the hours and minutes of a
    date are small integers, which are doubles. *)
Definition checkInTimesOf (userAttendance : list AttendanceRecord) : list F64.double :=
  map (fun a =>
         match ar_timestamp a with
         | Some date => F64.of_Z (getHours date * 60 + getMinutes date)
         | None => F64.NaN
         end)
      (filter (fun a =>
                 (ar_type a =? "check_in")%string &&
                 match ar_timestamp a with Some _ => true | None => false end)
              userAttendance).

(** [verifyAttendancePattern(type)]; reading [this.currentUser.id] of an
    absent user throws. *)
Definition verifyAttendancePattern (type : string) : result PatternVerification :=
  match currentUser this with
  | None => Throw "TypeError"
  | Some id =>
      let? userAttendance := attendance_getUserAttendance this id 30 in   (* last 30 days *)
      if (List.length userAttendance =? 0)%nat then
        Ok {| pv_verified := true; pv_reason := "No history available";
              pv_metadata := None |}
      else
        let checkInTimes := checkInTimesOf userAttendance in
        if (List.length checkInTimes =? 0)%nat then
          Ok {| pv_verified := true; pv_reason := "No check-in history";
                pv_metadata := None |}
        else
          let avgCheckIn := (F64.sum checkInTimes / F64.length checkInTimes)%f64 in
          let stdDev := calculateStandardDeviation checkInTimes in
          let now := now_verifyAttendancePattern (clock this) in
          let currentTime := getHours now * 60 + getMinutes now in
          (* within 2 standard deviations of the average *)
          let timeDiff := F64.Math_abs (F64.of_Z currentTime - avgCheckIn)%f64 in
          let verified := (timeDiff <=? stdDev * F64.of_Z 2)%f64 in
          Ok {| pv_verified := verified;
                pv_reason := if verified then EmptyString else "الگوی زمانی غیرعادی";
                pv_metadata := Some {| pm_avgCheckIn := avgCheckIn;
                                       pm_currentTime := currentTime;
                                       pm_timeDiff := timeDiff;
                                       pm_stdDev := stdDev;
                                       pm_historyCount := List.length checkInTimes |} |}
  end.

(** [manualVerification(type)]: the executor of the promise calls
    [this.modals.show]; when that call throws, the promise rejects,
    otherwise it resolves to [true] through [onVerify] and to [false]
    through [onCancel] of the dialog. *)
Definition manualVerification (type : string) : M Run bool :=
  fun run =>
    (let? _ := modals_show this (run_dialogs run) in Ok (modal_answer this),
     {| run_verification := run_verification run;
        run_dialogs := S (run_dialogs run) |}).

(** An assignment to a field of [verification]. *)
Definition assign (f : Verification -> Verification) : M Run unit :=
  modify (fun run => {| run_verification := f (run_verification run);
                        run_dialogs := run_dialogs run |}).

(** The assignments [verifyAttendance] makes to [verification]. *)
Definition acceptGPS (g : GPSVerification) (v : Verification) : Verification :=
  {| verified := true;
     method := "gps";
     location := gv_location g;
     created := created v;
     metadata := {| md_gps := gv_metadata g;
                    md_time := md_time (metadata v);
                    md_pattern := md_pattern (metadata v);
                    md_verificationLevel := md_verificationLevel (metadata v) |} |}.

Definition andTime (t : TimeVerification) (v : Verification) : Verification :=
  {| verified := verified v && tv_verified t;
     method := method v;
     location := location v;
     created := created v;
     metadata := {| md_gps := md_gps (metadata v);
                    md_time := Some (tv_metadata t);
                    md_pattern := md_pattern (metadata v);
                    md_verificationLevel := md_verificationLevel (metadata v) |} |}.

Definition andPattern (p : PatternVerification) (v : Verification) : Verification :=
  {| verified := verified v && pv_verified p;
     method := method v;
     location := location v;
     created := created v;
     metadata := {| md_gps := md_gps (metadata v);
                    md_time := md_time (metadata v);
                    md_pattern := pv_metadata p;
                    md_verificationLevel := md_verificationLevel (metadata v) |} |}.

Definition setLevel (level : string) (v : Verification) : Verification :=
  {| verified := verified v;
     method := method v;
     location := location v;
     created := created v;
     metadata := {| md_gps := md_gps (metadata v);
                    md_time := md_time (metadata v);
                    md_pattern := md_pattern (metadata v);
                    md_verificationLevel := Some level |} |}.

Definition setManual (answer : bool) (how : string) (v : Verification) : Verification :=
  {| verified := answer;
     method := how;
     location := location v;
     created := created v;
     metadata := metadata v |}.

Local Open Scope monad_scope.

(** The [try] block of [verifyAttendance]. *)
Definition verifyAttendance_try (type : string) : M Run unit :=
  (* 1. GPS verification *)
  when (config_GPS_ANTI_SPOOFING this)
    (gpsVerification <- await verifyGPSLocation ;;
     when (gv_verified gpsVerification) (assign (acceptGPS gpsVerification))) ;;
  (* 2. time verification *)
  let timeVerification := verifyAttendanceTime type in
  when (tv_verified timeVerification) (assign (andTime timeVerification)) ;;
  (* 3. pattern verification *)
  patternVerification <- await (verifyAttendancePattern type) ;;
  when (pv_verified patternVerification) (assign (andPattern patternVerification)) ;;
  (* if all verifications passed *)
  run <- get ;;
  if verified (run_verification run) then assign (setLevel "high")
  else
    (* fallback to manual verification *)
    answer <- manualVerification type ;;
    assign (setManual answer "manual") ;;
    assign (setLevel "low").

(** The [catch] block of [verifyAttendance]; what its own
    [manualVerification] throws is not caught. *)
Definition verifyAttendance_catch (type : string) (error : string) : M Run unit :=
  answer <- manualVerification type ;;
  assign (setManual answer "manual_fallback").

(** [verifyAttendance(type, options)]; [options] is not used. *)
Definition verifyAttendance (type : string) : result Verification :=
  let verification :=
    {| verified := false;
       method := "manual";
       location := None;
       created := now_verifyAttendance (clock this);
       metadata := {| md_gps := None; md_time := None; md_pattern := None;
                      md_verificationLevel := None |} |} in
  let '(outcome, run) :=
    try_catchM (verifyAttendance_try type) (verifyAttendance_catch type)
      {| run_verification := verification; run_dialogs := 0 |} in
  let? _ := outcome in Ok (run_verification run).

End Verification.

(** ** A computable instance of the builtins

    Rational approximations of the [Math] builtins of the geolocation
    checks (truncated series, a twelve-digit square root), used to run
    the model on concrete inputs. *)

Module RationalMath.

Definition PI : Q := 355 # 113.

Definition sin (x : Q) : Q := x - x * x * x / 6.

Definition cos (x : Q) : Q := 1 - x * x / 2 + x * x * x * x / 24.

Definition sqrt (a : jsnum) : jsnum :=
  match a with
  | Some x =>
      if Qle_bool 0 x
      then JS.num (Z.sqrt (Qnum x * 10 ^ 24 / Zpos (Qden x)) # 10 ^ 12)
      else JS.NaN
  | None => JS.NaN
  end.

Definition atan (t : Q) : Q := t - t * t * t / 3.

Definition atan2 (b a : jsnum) : jsnum :=
  match b, a with
  | Some y, Some x =>
      if Qeq_bool x 0 then
        if Qeq_bool y 0 then JS.int 0
        else if Qle_bool 0 y then JS.num (PI / 2) else JS.num (- PI / 2)
      else if Qle_bool 0 x then JS.num (atan (y / x))
      else if Qle_bool 0 y then JS.num (atan (y / x) + PI)
      else JS.num (atan (y / x) - PI)
  | _, _ => JS.NaN
  end.

End RationalMath.

(** On doubles the instance takes [Math.sqrt] for the correctly rounded
    square root and [Math.pow(x, 2)] for the correctly rounded [x * x]
    (the case of the exponent 2 in fdlibm's [pow]). *)
Definition rationalMath : MathLib := {|
  Math_PI := JS.num RationalMath.PI;
  Math_sin := JS.lift1 RationalMath.sin;
  Math_cos := JS.lift1 RationalMath.cos;
  Math_sqrt := RationalMath.sqrt;
  Math_atan2 := RationalMath.atan2;
  Math_pow_double := F64.pow;
  Math_sqrt_double := F64.sqrt
|}.

(** ** The checks, as the specification names them *)

Section Checks.

Context {math : MathLib}.
Variable this : EMS.

(** The GPS range check passed: there is a valid current location and it
    is within the office range. *)
Definition gpsRangePassed : bool :=
  match getCurrentLocation (gpsTracker this) with
  | Ok (Some location) =>
      JS.truthy (latitude location) && JS.truthy (longitude location) &&
      isInOfficeRange (gpsTracker this) (latitude location) (longitude location)
  | _ => false
  end.

(** All three spoofing checks passed on the current location. *)
Definition spoofingChecksPassed : bool :=
  match getCurrentLocation (gpsTracker this) with
  | Ok (Some location) =>
      passed (checkLocationConsistency this location) &&
      passed (checkSpeedAnomaly this location) &&
      passed (checkAltitudeAnomaly location)
  | _ => false
  end.

Definition timeWindowPassed (type : string) : bool :=
  tv_verified (verifyAttendanceTime this type).

Definition patternPassed (type : string) : bool :=
  match verifyAttendancePattern this type with
  | Ok patternVerification => pv_verified patternVerification
  | Throw _ => false
  end.


(** The GPS step of [verifyAttendance] ran and accepted the location. *)
Definition gpsAccepted : bool :=
  config_GPS_ANTI_SPOOFING this && (gpsRangePassed && spoofingChecksPassed).

(** The minute-of-day values of the check-in records of a history, record
    by record: a record counts when its type is "check_in" and it has a
    timestamp. *)
Fixpoint spec_checkInMinutes (userAttendance : list AttendanceRecord) : list Z :=
  match userAttendance with
  | [] => []
  | a :: rest =>
      match ar_timestamp a with
      | Some date =>
          if (ar_type a =? "check_in")%string
          then (getHours date * 60 + getMinutes date)%Z :: spec_checkInMinutes rest
          else spec_checkInMinutes rest
      | None => spec_checkInMinutes rest
      end
  end.

(** The mean and the population standard deviation of the
    specification's pattern check, every operation in doubles. *)
Definition spec_mean (xs : list F64.double) : F64.double :=
  (F64.sum xs / F64.length xs)%f64.

Definition spec_populationStdDev (xs : list F64.double) : F64.double :=
  Math_sqrt_double
    (F64.sum (map (fun x => Math_pow_double (x - spec_mean xs)%f64 2) xs)
       / F64.length xs)%f64.

(** The same two in exact arithmetic: the mean, and the variance, which
    is the square of the population standard deviation. *)
Definition exact_mean (xs : list Z) : Q :=
  inject_Z (fold_left Z.add xs 0%Z) / inject_Z (Z.of_nat (List.length xs)).

Definition exact_variance (xs : list Z) : Q :=
  fold_left Qplus (map (fun x => (inject_Z x - exact_mean xs) ^ 2) xs) 0
  / inject_Z (Z.of_nat (List.length xs)).

End Checks.

(** ** Concrete inputs *)

Module Examples.

Definition deg (n : Z) (d : positive) : jsnum := JS.num (n # d).

Definition at_ (hours minutes : Z) : Date :=
  {| getHours := hours; getMinutes := minutes |}.

(** A sample about 100 m north of the office, taken at 08:05. *)
Definition nearOffice : Location :=
  {| latitude := deg 357009 10000; longitude := deg 514 10;
     accuracy := JS.int 10; altitude := JS.int 1200; timestamp := 1700000000000 |}.

(** A sample one degree of latitude (about 111 km) north of the office. *)
Definition farAway : Location :=
  {| latitude := deg 367 10; longitude := deg 514 10;
     accuracy := JS.int 10; altitude := JS.int 1200; timestamp := 1700000000000 |}.

(** The office at (35.7, 51.4) with the default range of 500 m. *)
Definition tracker (current : result (option Location)) (recent : list Location)
  : GPSTracker :=
  {| getCurrentLocation := current;
     getRecentLocations := recent;
     officeLocation := (deg 357 10, deg 514 10);
     maxDistance := JS.int 500 |}.

Definition app (antiSpoofing : bool) (current : result (option Location))
    (recent : list Location) (now : Date)
    (history : result (list AttendanceRecord)) (answer : bool) : EMS :=
  {| config_GPS_ANTI_SPOOFING := antiSpoofing;
     gpsTracker := tracker current recent;
     currentUser := Some 7%Z;
     attendance_getUserAttendance := fun _ _ => history;
     storage_settings := None;
     clock := {| now_verifyAttendance := now;
                 now_verifyAttendanceTime := now;
                 now_verifyAttendancePattern := now |};
     modals_show := fun _ => Ok tt;
     modal_answer := answer |}.

(** The same engine with a dialog that cannot be shown:
    [this.modals.show] throws. *)
Definition withoutDialog (engine : EMS) : EMS :=
  {| config_GPS_ANTI_SPOOFING := config_GPS_ANTI_SPOOFING engine;
     gpsTracker := gpsTracker engine;
     currentUser := currentUser engine;
     attendance_getUserAttendance := attendance_getUserAttendance engine;
     storage_settings := storage_settings engine;
     clock := clock engine;
     modals_show := fun _ => Throw "TypeError";
     modal_answer := modal_answer engine |}.

(** In range at 08:05, no history, nobody confirms by hand. *)
Definition inRangeOnTime : EMS :=
  app true (Ok (Some nearOffice)) [] (at_ 8 5) (Ok []) false.


(** As [inRangeOnTime], with GPS verification switched off. *)
Definition gpsSwitchedOff : EMS :=
  app false (Ok (Some nearOffice)) [] (at_ 8 5) (Ok []) false.

(** In range, but at 23:00, far outside the check-in window. *)
Definition inRangeAtNight : EMS :=
  app true (Ok (Some nearOffice)) [] (at_ 23 0) (Ok []) false.

(** The location provider rejects; the user confirms the dialog. *)
Definition noFix : EMS :=
  app true (Throw "timeout") [] (at_ 8 5) (Ok []) true.

(** The history provider rejects; the user confirms the dialog. *)
Definition noHistoryService : EMS :=
  app true (Ok (Some nearOffice)) [] (at_ 8 5) (Throw "storage") true.

Definition checkIn (hours minutes : Z) : AttendanceRecord :=
  {| ar_type := "check_in"; ar_timestamp := Some (at_ hours minutes) |}.

(** Three check-ins at 08:00 sharp. *)
Definition punctual (now : Date) : EMS :=
  app true (Ok (Some nearOffice)) [] now
      (Ok [checkIn 8 0; checkIn 8 0; checkIn 8 0]) false.

(** Four check-ins at 08:00 and one at 08:01. *)
Definition almostPunctual (now : Date) : EMS :=
  app true (Ok (Some nearOffice)) [] now
      (Ok [checkIn 8 0; checkIn 8 0; checkIn 8 0; checkIn 8 0; checkIn 8 1]) false.



(** A fix on the equator, at the longitude of the office. *)
Definition onEquator : Location :=
  {| latitude := JS.int 0; longitude := deg 514 10;
     accuracy := JS.int 10; altitude := JS.NaN; timestamp := 1700000000000 |}.

Definition equatorial : EMS :=
  app true (Ok (Some onEquator)) [] (at_ 8 5) (Ok []) false.

End Examples.

(** ** Permissions *)

(** [s.split(sep)[0]]: the text of [s] before the first occurrence of the
    separator, all of [s] when there is none. *)
Fixpoint beforeSeparator (sep s : string) : string :=
  if String.prefix sep s then EmptyString
  else match s with
       | EmptyString => EmptyString
       | String c rest => String c (beforeSeparator sep rest)
       end.

(** [hasPermission(permission)], on the set [this.userPermissions] ([None]
    when it is absent); the set is kept as the list of its elements. *)
Definition hasPermission (userPermissions : option (list string)) (permission : string)
  : bool :=
  match userPermissions with
  | None => false
  | Some permissions =>
      if (List.length permissions =? 0)%nat then false
      else
        (* exact permission or wildcard *)
        existsb (String.eqb permission) permissions ||
        existsb (String.eqb "*") permissions ||
        existsb (fun p => String.prefix (beforeSeparator ".*" p) permission) permissions
  end.

(** ** Recording an attendance *)

(** The record [createAttendanceRecord] builds.  Kept are the fields that
    depend on the verdict; the texts that the clock, the date service and
    the browser supply ([userName], [userCode], [timestamp], [date],
    [time], [dayOfWeek], [deviceInfo], [createdAt], [updatedAt]) are left
    out. *)
Record RecordVerification : Type := {
  rv_method : string;
  rv_level : string;
  rv_metadata : Metadata
}.

Record NewAttendanceRecord : Type := {
  nr_id : string;
  nr_userId : Z;
  nr_type : string;
  nr_location : option GPSLocation;
  nr_verification : RecordVerification;
  nr_status : string;
  nr_synced : bool;
  nr_version : Z
}.

(** What [recordAttendance] does to its collaborators, in order. *)
Inductive Effect : Type :=
| ui_showLoading (message : string)
| ui_hideLoading
| attendance_record (record : NewAttendanceRecord)
| ui_updateAttendanceStatus (savedRecord : NewAttendanceRecord)
| tableRenderer_renderAttendanceTable (attendance : list AttendanceRecord)
| notifications_send (type : string) (userId : Z) (data : NewAttendanceRecord)
| analytics_trackEvent (name type : string) (userId : Z) (method location : string)
| notifications_show (message kind : string)
| logger_error (message : string).

(** The application object around the verification engine: the engine's
    state, the user's permissions, the next [generateId()], and the
    outcomes of the collaborators' calls that may reject. *)
Record App : Type := {
  core : EMS;
  userPermissions : option (list string);
  generateId : string;
  attendance_record_outcome : NewAttendanceRecord -> result NewAttendanceRecord;
  ui_updateAttendanceStatus_outcome : result unit;
  tableRenderer_outcome : result unit;
  notifications_send_outcome : result unit
}.

Definition throw {S A} (error : string) : M S A := fun s => (Throw error, s).

Definition emit (e : Effect) : M (list Effect) unit :=
  modify (fun trace => (trace ++ [e])%list).

Section Recording.

Context {math : MathLib}.
Variable app : App.

Local Open Scope monad_scope.

(** [createAttendanceRecord(type, verification)]; reading
    [this.currentUser.id] of an absent user throws. *)
Definition createAttendanceRecord (type : string) (verification : Verification)
  : result NewAttendanceRecord :=
  match currentUser (core app) with
  | None => Throw "TypeError"
  | Some id =>
      Ok {| nr_id := generateId app;
            nr_userId := id;
            nr_type := type;
            nr_location :=
              match location verification with
              | Some l => Some {| gl_latitude := gl_latitude l;
                                  gl_longitude := gl_longitude l;
                                  gl_accuracy := gl_accuracy l;
                                  gl_timestamp := gl_timestamp l |}
              | None => None
              end;
            nr_verification :=
              {| rv_method := method verification;
                 rv_level := match md_verificationLevel (metadata verification) with
                             | Some level => level
                             | None => "unknown"
                             end;
                 rv_metadata := metadata verification |};
            nr_status := "pending";
            nr_synced := false;
            nr_version := 1 |}
  end.

(** [updateAttendanceTable()] *)
Definition updateAttendanceTable : M (list Effect) unit :=
  match currentUser (core app) with
  | None => ret tt
  | Some id =>
      try_catchM
        (attendance <- await (attendance_getUserAttendance (core app) id 30) ;;
         emit (tableRenderer_renderAttendanceTable attendance) ;;
         await (tableRenderer_outcome app))
        (fun error => emit (logger_error "Failed to update attendance table:"))
  end.

(** The [try] block of [recordAttendance]. *)
Definition recordAttendance_try (type : string) : M (list Effect) NewAttendanceRecord :=
  (* validate user *)
  match currentUser (core app) with
  | None => throw "کاربر احراز هویت نشده است"
  | Some id =>
      (* check permissions *)
      if negb (hasPermission (userPermissions app) "attendance.record")
      then throw "شما مجوز ثبت حضور و غیاب را ندارید"
      else
        emit (ui_showLoading
                ("در حال ثبت " ++
                 (if (type =? "check_in")%string then "ورود" else "خروج") ++ "...")) ;;
        (* multi-factor verification *)
        verification <- await (verifyAttendance (core app) type) ;;
        if negb (verified verification)
        then (* [verification.reason] is not a field of the verdict *)
             throw "تایید حضور و غیاب ناموفق: undefined"
        else
          record <- await (createAttendanceRecord type verification) ;;
          emit (attendance_record record) ;;
          savedRecord <- await (attendance_record_outcome app record) ;;
          emit (ui_updateAttendanceStatus savedRecord) ;;
          await (ui_updateAttendanceStatus_outcome app) ;;
          updateAttendanceTable ;;
          emit (notifications_send "attendance_recorded" id savedRecord) ;;
          await (notifications_send_outcome app) ;;
          emit (analytics_trackEvent "attendance_recorded" type id
                  (method verification)
                  (match location verification with
                   | Some _ => "gps"
                   | None => "manual"
                   end)) ;;
          emit (notifications_show
                  ((if (type =? "check_in")%string then "ورود" else "خروج") ++
                   " با موفقیت ثبت شد") "success") ;;
          ret savedRecord
  end.

(** The [catch] block of [recordAttendance]. *)
Definition recordAttendance_catch (error : string) : M (list Effect) NewAttendanceRecord :=
  emit (logger_error "Attendance recording failed:") ;;
  emit (notifications_show error "error") ;;
  throw error.

(** [recordAttendance(type, options)], started with the effects [trace]
    made so far; the [finally] block hides the loading state. *)
Definition recordAttendance (type : string) (trace : list Effect)
  : result NewAttendanceRecord * list Effect :=
  let '(outcome, trace) :=
    try_catchM (recordAttendance_try type) recordAttendance_catch trace in
  (outcome, (trace ++ [ui_hideLoading])%list).

End Recording.
(** Concrete application objects. *)
Module Sessions.

(** A signed-in employee who may record attendance; every collaborator
    answers. *)
Definition employee (engine : EMS) : App :=
  {| core := engine;
     userPermissions := Some ["attendance.*"; "tasks.create"];
     generateId := "1700000000000_k3x9q2m1p";
     attendance_record_outcome := fun record => Ok record;
     ui_updateAttendanceStatus_outcome := Ok tt;
     tableRenderer_outcome := Ok tt;
     notifications_send_outcome := Ok tt |}.

(** The same, with a status display that rejects. *)
Definition brokenDisplay (engine : EMS) : App :=
  {| core := engine;
     userPermissions := Some ["attendance.*"; "tasks.create"];
     generateId := "1700000000000_k3x9q2m1p";
     attendance_record_outcome := fun record => Ok record;
     ui_updateAttendanceStatus_outcome := Throw "display";
     tableRenderer_outcome := Ok tt;
     notifications_send_outcome := Ok tt |}.

End Sessions.

From Stdlib Require Import DecimalString.

(** ** Forms: the duration of an hourly leave *)

(** A template literal's [${n}] for an integer [n]. *)
Definition numberToString (n : Z) : string := NilZero.string_of_int (Z.to_int n).

(** The hours and minutes that [calculateHourlyDuration] derives from the
    two times of day, each given as hours and minutes. *)
Definition hourlyDuration (startTime endTime : Z * Z) : Z * Z :=
  let '(startHour, startMinute) := startTime in
  let '(endHour, endMinute) := endTime in
  let totalMinutes := ((endHour * 60 + endMinute) - (startHour * 60 + startMinute))%Z in
  (* handle overnight *)
  let totalMinutes :=
    if (totalMinutes <? 0)%Z then (totalMinutes + 24 * 60)%Z else totalMinutes in
  let hours := (totalMinutes / 60)%Z in        (* Math.floor(totalMinutes / 60) *)
  let minutes := Z.rem totalMinutes 60 in      (* totalMinutes % 60 *)
  (hours, minutes).

Definition durationText (hours minutes : Z) : string :=
  if (0 <? hours)%Z && (0 <? minutes)%Z then
    numberToString hours ++ " ساعت و " ++ numberToString minutes ++ " دقیقه"
  else if (0 <? hours)%Z then numberToString hours ++ " ساعت"
  else numberToString minutes ++ " دقیقه".

(** [calculateHourlyDuration()]: from the values of the two time inputs
    ([None] when the input is missing or empty, otherwise the numbers that
    [split(':').map(Number)] yields) and the presence of the output
    element, the text written to it, if any. *)
Definition calculateHourlyDuration
    (startTime endTime : option (Z * Z)) (durationElement : bool) : option string :=
  match startTime, endTime, durationElement with
  | Some startTime, Some endTime, true =>
      let '(hours, minutes) := hourlyDuration startTime endTime in
      Some (durationText hours minutes)
  | _, _, _ => None
  end.

(** ** Synchronising offline data *)

(** A pending item of the offline queue; [item_data] stands for its
    payload. *)
Record OfflineItem : Type := {
  item_type : string;
  item_data : Z
}.

(** [this.syncManager] *)
Record SyncManager : Type := {
  isSyncing : bool;
  lastSync : option Date;
  pendingChanges : Z
}.

(** What [syncOfflineData] shows and reports, in order. *)
Inductive SyncEffect : Type :=
| ui_showSyncProgress (total : Z)
| ui_updateSyncProgress (done total : Z)
| ui_hideSyncProgress
| sync_notification (message kind : string)
| sync_trackEvent (successCount failCount total : Z)
| sync_logError (message : string).

(** The collaborators of the synchronisation: the offline queue, the three
    stores an item can be synchronised to, and the clock. *)
Record SyncServices : Type := {
  offline_getPendingItems : result (list OfflineItem);
  attendance_syncRecord : Z -> result unit;
  tasks_syncTask : Z -> result unit;
  requests_syncRequest : Z -> result unit;
  now_sync : Date
}.

Record SyncState : Type := {
  syncManager : SyncManager;
  syncTrace : list SyncEffect
}.

Section Sync.

Variable services : SyncServices.

Local Open Scope monad_scope.

(** [processOfflineItem(item)] *)
Definition processOfflineItem (item : OfflineItem) : result unit :=
  if (item_type item =? "attendance")%string then
    attendance_syncRecord services (item_data item)
  else if (item_type item =? "task")%string then
    tasks_syncTask services (item_data item)
  else if (item_type item =? "request")%string then
    requests_syncRequest services (item_data item)
  else Throw ("Unknown item type: " ++ item_type item).

(** Whether an item can be synchronised. *)
Definition synced (item : OfflineItem) : bool :=
  match processOfflineItem item with
  | Ok _ => true
  | Throw _ => false
  end.

Definition sync_emit (e : SyncEffect) : M SyncState unit :=
  modify (fun s => {| syncManager := syncManager s;
                      syncTrace := (syncTrace s ++ [e])%list |}).

Definition setSyncManager (f : SyncManager -> SyncManager) : M SyncState unit :=
  modify (fun s => {| syncManager := f (syncManager s); syncTrace := syncTrace s |}).

(** The loop over the pending items, from the counts so far. *)
Fixpoint syncItems (items : list OfflineItem) (total successCount failCount : Z)
  : M SyncState (Z * Z) :=
  match items with
  | [] => ret (successCount, failCount)
  | item :: rest =>
      counts <- (match processOfflineItem item with
                 | Ok _ => ret (successCount + 1, failCount)%Z
                 | Throw error =>
                     sync_emit (sync_logError "Failed to sync item:") ;;
                     ret (successCount, failCount + 1)%Z
                 end) ;;
      (* update progress *)
      sync_emit (ui_updateSyncProgress (fst counts + snd counts) total) ;;
      syncItems rest total (fst counts) (snd counts)
  end.

(** The [try] block of [syncOfflineData]. *)
Definition syncOfflineData_try : M SyncState unit :=
  setSyncManager (fun m => {| isSyncing := true; lastSync := lastSync m;
                              pendingChanges := pendingChanges m |}) ;;
  pendingItems <- await (offline_getPendingItems services) ;;
  let total := Z.of_nat (List.length pendingItems) in
  setSyncManager (fun m => {| isSyncing := isSyncing m; lastSync := lastSync m;
                              pendingChanges := total |}) ;;
  if (0 <? total)%Z then
    sync_emit (ui_showSyncProgress total) ;;
    counts <- syncItems pendingItems total 0 0 ;;
    let '(successCount, failCount) := counts in
    (* update sync status *)
    setSyncManager (fun m => {| isSyncing := isSyncing m;
                                lastSync := Some (now_sync services);
                                pendingChanges := failCount |}) ;;
    (* show summary *)
    when (0 <? successCount)%Z
      (sync_emit (sync_notification
                    (numberToString successCount ++ " مورد با موفقیت همگام‌سازی شد")
                    "success")) ;;
    when (0 <? failCount)%Z
      (sync_emit (sync_notification
                    (numberToString failCount ++
                     " مورد همگام‌سازی نشد. مجدداً تلاش خواهد شد.")
                    "warning")) ;;
    sync_emit (sync_trackEvent successCount failCount total)
  else ret tt.

(** [syncOfflineData()]: the state of the sync manager and the effects
    after the call. *)
Definition syncOfflineData (s : SyncState) : SyncState :=
  if isSyncing (syncManager s) then s
  else
    let '(_, s) :=
      try_catchM syncOfflineData_try
        (fun error => sync_emit (sync_logError "Offline sync failed:")) s in
    (* finally *)
    let '(_, s) :=
      (setSyncManager (fun m => {| isSyncing := false; lastSync := lastSync m;
                                   pendingChanges := pendingChanges m |}) ;;
       sync_emit ui_hideSyncProgress) s in
    s.

End Sync.

(** ** The monthly duty schedule *)

(** A day of the duty schedule.  A duty is [None] when the property is
    [undefined], and [isHoliday] is [None] on the entries that
    [handleDutyChange] creates, which do not have the property. *)
Record DutyDay : Type := {
  date : string;
  dayOfWeek : string;
  dayDuty : option string;
  nightDuty : option string;
  assistantDuty : option string;
  oncallDuty : option string;
  isHoliday : option bool
}.

(** The four values of [data-type] that the duty table puts on its
    selects: "dayDuty", "nightDuty", "assistantDuty" and "oncallDuty". *)
Inductive DutyType : Type := DayDuty | NightDuty | AssistantDuty | OncallDuty.

(** Truthiness of a string-valued property. *)
Definition truthyString (s : option string) : bool :=
  match s with
  | Some s => negb (s =? "")%string
  | None => false
  end.

Definition truthyBool (b : option bool) : bool :=
  match b with
  | Some b => b
  | None => false
  end.

(** The date service for the current month: the number of its days, the
    formatted date of its [day]-th day and the name of the day of the
    week of a formatted date. *)
Record MonthCalendar : Type := {
  getDaysInMonth : nat;
  formatDay : nat -> string;
  getDayOfWeek : string -> string
}.

Section Duty.

Variable calendar : MonthCalendar.

(** The loop of [createMonthlyDutySchedule], from the four running indices. *)
Fixpoint dutyDays (employeeCodes : list string) (days : list nat)
    (dayIndex nightIndex assistantIndex oncallIndex : nat) : list DutyDay :=
  match days with
  | [] => []
  | day :: rest =>
      let dateStr := formatDay calendar day in
      let dayOfWeek := getDayOfWeek calendar dateStr in
      (* skip Fridays *)
      if (dayOfWeek =? "جمعه")%string then
        {| date := dateStr; dayOfWeek := dayOfWeek;
           dayDuty := Some EmptyString; nightDuty := Some EmptyString;
           assistantDuty := Some EmptyString; oncallDuty := Some EmptyString;
           isHoliday := Some true |}
        :: dutyDays employeeCodes rest dayIndex nightIndex assistantIndex oncallIndex
      else
        let n := List.length employeeCodes in
        {| date := dateStr; dayOfWeek := dayOfWeek;
           dayDuty := nth_error employeeCodes (dayIndex mod n);
           nightDuty := nth_error employeeCodes (nightIndex mod n);
           assistantDuty := nth_error employeeCodes (assistantIndex mod n);
           oncallDuty := nth_error employeeCodes (oncallIndex mod n);
           isHoliday := Some false |}
        (* move to next employees *)
        :: dutyDays employeeCodes rest
             (dayIndex + 2) (nightIndex + 2) (assistantIndex + 2) (oncallIndex + 2)
  end.

(** [createMonthlyDutySchedule()], from the codes of the active employees:
    a simple round-robin assignment. *)
Definition createMonthlyDutySchedule (employeeCodes : list string) : list DutyDay :=
  dutyDays employeeCodes (seq 1 (getDaysInMonth calendar)) 0 1 2 3.

(** [dayEntry[type] = employeeCode] *)
Definition setDuty (type : DutyType) (employeeCode : string) (d : DutyDay) : DutyDay :=
  {| date := date d; dayOfWeek := dayOfWeek d;
     dayDuty := match type with DayDuty => Some employeeCode | _ => dayDuty d end;
     nightDuty := match type with NightDuty => Some employeeCode | _ => nightDuty d end;
     assistantDuty :=
       match type with AssistantDuty => Some employeeCode | _ => assistantDuty d end;
     oncallDuty := match type with OncallDuty => Some employeeCode | _ => oncallDuty d end;
     isHoliday := isHoliday d |}.

Definition getDuty (type : DutyType) (d : DutyDay) : option string :=
  match type with
  | DayDuty => dayDuty d
  | NightDuty => nightDuty d
  | AssistantDuty => assistantDuty d
  | OncallDuty => oncallDuty d
  end.

(** The schedule that [handleDutyChange(date, type, employeeCode)] stores
    under "duty_schedule", from the stored one: the first entry of that
    date is updated, and when there is none a new entry is appended. *)
Fixpoint handleDutyChange (day : string) (type : DutyType) (employeeCode : string)
    (schedule : list DutyDay) : list DutyDay :=
  match schedule with
  | [] =>
      [ setDuty type employeeCode
          {| date := day; dayOfWeek := getDayOfWeek calendar day;
             dayDuty := Some EmptyString; nightDuty := Some EmptyString;
             assistantDuty := Some EmptyString; oncallDuty := Some EmptyString;
             isHoliday := None |} ]
  | d :: rest =>
      if (date d =? day)%string then setDuty type employeeCode d :: rest
      else d :: handleDutyChange day type employeeCode rest
  end.

(** Whether the [day]-th day of the month is a Friday. *)
Definition isFriday (day : nat) : bool :=
  (getDayOfWeek calendar (formatDay calendar day) =? "جمعه")%string.

(** The entry of a working day, from the index of its day duty. *)
Definition workingDay (employeeCodes : list string) (day index : nat) : DutyDay :=
  let n := List.length employeeCodes in
  {| date := formatDay calendar day;
     dayOfWeek := getDayOfWeek calendar (formatDay calendar day);
     dayDuty := nth_error employeeCodes (index mod n);
     nightDuty := nth_error employeeCodes ((index + 1) mod n);
     assistantDuty := nth_error employeeCodes ((index + 2) mod n);
     oncallDuty := nth_error employeeCodes ((index + 3) mod n);
     isHoliday := Some false |}.

Definition holiday (day : nat) : DutyDay :=
  {| date := formatDay calendar day;
     dayOfWeek := getDayOfWeek calendar (formatDay calendar day);
     dayDuty := Some EmptyString; nightDuty := Some EmptyString;
     assistantDuty := Some EmptyString; oncallDuty := Some EmptyString;
     isHoliday := Some true |}.

End Duty.

(** [schedule.find(d => d.date === date)] *)
Definition findDay (day : string) (schedule : list DutyDay) : option DutyDay :=
  find (fun d => (date d =? day)%string) schedule.

(** The schedule that [clearDutyRow(date)] stores, [confirmed] being the
    answer to its [confirm] dialog. *)
Definition clearDutyRow (confirmed : bool) (day : string) (schedule : list DutyDay)
  : list DutyDay :=
  if negb confirmed then schedule
  else filter (fun d => negb (date d =? day)%string) schedule.

(** The messages [validateDutySchedule] collects for one day. *)
Definition dayErrors (day : DutyDay) : list string :=
  if negb (truthyBool (isHoliday day)) then
    (if negb (truthyString (dayDuty day))
     then ["کشیک روز برای تاریخ " ++ date day ++ " تعیین نشده"] else []) ++
    (if negb (truthyString (nightDuty day))
     then ["کشیک شب برای تاریخ " ++ date day ++ " تعیین نشده"] else [])
  else [].

Record Validation : Type := {
  valid : bool;
  errors : list string
}.

(** [validateDutySchedule(schedule)] *)
Definition validateDutySchedule (schedule : list DutyDay) : Validation :=
  let errors := flat_map dayErrors schedule in
  {| valid := (List.length errors =? 0)%nat; errors := errors |}.

(** [employees.add(code)] on a set kept as the list of its elements. *)
Definition setAdd (code : string) (set : list string) : list string :=
  if existsb (String.eqb code) set then set else (set ++ [code])%list.

Definition addIfTruthy (duty : option string) (set : list string) : list string :=
  match duty with
  | Some code => if truthyString duty then setAdd code set else set
  | None => set
  end.

(** [countUniqueEmployees(schedule)] *)
Definition countUniqueEmployees (schedule : list DutyDay) : nat :=
  List.length
    (fold_left
       (fun employees day =>
          addIfTruthy (oncallDuty day)
            (addIfTruthy (assistantDuty day)
               (addIfTruthy (nightDuty day)
                  (addIfTruthy (dayDuty day) employees))))
       schedule []).

(** [String.prototype.join] of [errors.join(', ')]. *)
Fixpoint join (separator : string) (parts : list string) : string :=
  match parts with
  | [] => EmptyString
  | [part] => part
  | part :: rest => part ++ separator ++ join separator rest
  end.

(** What the [try] block of [finalizeDutySchedule] stores under
    "duty_schedule_finalized", or the error it throws, from the value
    stored under "duty_schedule" ([None] when there is none). *)
Definition finalizeDutySchedule (stored : option (list DutyDay)) : result (list DutyDay) :=
  let schedule := match stored with Some schedule => schedule | None => [] end in
  if (List.length schedule =? 0)%nat then Throw "هیچ کشیکی ثبت نشده است"
  else
    let validation := validateDutySchedule schedule in
    if negb (valid validation) then Throw (join ", " (errors validation))
    else Ok schedule.

(** * The service worker ([src/service-worker.js]) *)

Module SW.

Definition SW_VERSION : string := "3.0.0".
Definition CACHE_NAME : string := "ems-cache-v" ++ SW_VERSION.

(** [s.endsWith(suffix)] and [s.includes(part)] *)
Definition endsWith (suffix s : string) : bool :=
  (String.length suffix <=? String.length s)%nat &&
  (substring (String.length s - String.length suffix) (String.length suffix) s =? suffix)%string.

Definition includes (part s : string) : bool :=
  match index 0 part s with
  | Some _ => true
  | None => false
  end.

Inductive Strategy : Type :=
| NETWORK_FIRST | CACHE_FIRST | STALE_WHILE_REVALIDATE | CACHE_ONLY.

(** The regular expressions of [ROUTE_STRATEGIES], by what they test:
    [/\.(?:html|css|js)$/] is [EndsWithOneOf [".html"; ".css"; ".js"]],
    [/^https:\/\/unpkg\.com/] is [StartsWith "https://unpkg.com"],
    [/\/api\//] is [Includes "/api/"] and [/.*/] is [Anything]. *)
Inductive Pattern : Type :=
| EndsWithOneOf (suffixes : list string)
| StartsWith (start : string)
| Includes (part : string)
| Anything.

(** [pattern.test(url)] *)
Definition test (pattern : Pattern) (url : string) : bool :=
  match pattern with
  | EndsWithOneOf suffixes => existsb (fun suffix => endsWith suffix url) suffixes
  | StartsWith start => String.prefix start url
  | Includes part => includes part url
  | Anything => true
  end.

Definition ROUTE_STRATEGIES : list (Pattern * Strategy) :=
  [ (EndsWithOneOf [".html"; ".css"; ".js"], NETWORK_FIRST);
    (EndsWithOneOf [".png"; ".jpg"; ".jpeg"; ".gif"; ".svg"; ".ico"; ".webp"], CACHE_FIRST);
    (StartsWith "https://cdnjs.cloudflare.com", CACHE_FIRST);
    (StartsWith "https://unpkg.com", CACHE_FIRST);
    (StartsWith "https://cdn.jsdelivr.net", CACHE_FIRST);
    (Includes "/api/", NETWORK_FIRST);
    (Anything, NETWORK_FIRST) ].

(** [getStrategyForURL(url)] *)
Definition getStrategyForURL (url : string) : Strategy :=
  match find (fun route => test (fst route) url) ROUTE_STRATEGIES with
  | Some route => snd route
  | None => NETWORK_FIRST
  end.

(** A request, as far as the worker reads it; [accept] is
    [request.headers.get('Accept')]. *)
Record Request : Type := {
  url : string;
  httpMethod : string;   (* the property [method] *)
  accept : option string
}.

(** A response; [date] is its [date] header as a time in milliseconds,
    when it has one that can be read as a date. *)
Record Response : Type := {
  ok : bool;
  status : Z;
  body : string;
  date : option Z
}.

(** A cache maps request URLs to responses, and the cache storage maps
    cache names to caches; both keep the order of insertion.  URLs are
    compared as texts. *)
Definition Cache : Type := list (string * Response).
Definition CacheStorage : Type := list (string * Cache).

(** [cache.match(url)] *)
Definition cache_match (url : string) (cache : Cache) : option Response :=
  match find (fun entry => (fst entry =? url)%string) cache with
  | Some entry => Some (snd entry)
  | None => None
  end.

(** [cache.put(url, response)]: an entry of the same URL is replaced. *)
Definition cache_put (url : string) (response : Response) (cache : Cache) : Cache :=
  (filter (fun entry => negb (fst entry =? url)%string) cache ++ [(url, response)])%list.

(** [cache.delete(url)] *)
Definition cache_delete (url : string) (cache : Cache) : Cache :=
  filter (fun entry => negb (fst entry =? url)%string) cache.

(** [caches.match(url)]: the first match over all caches. *)
Fixpoint caches_match (url : string) (caches : CacheStorage) : option Response :=
  match caches with
  | [] => None
  | (_, cache) :: rest =>
      match cache_match url cache with
      | Some response => Some response
      | None => caches_match url rest
      end
  end.

(** The cache that [caches.open(name)] resolves to. *)
Definition caches_open (name : string) (caches : CacheStorage) : Cache :=
  match find (fun c => (fst c =? name)%string) caches with
  | Some c => snd c
  | None => []
  end.

(** The storage after [caches.open(name)] followed by a change [f] of the
    opened cache; opening creates a cache that does not exist. *)
Fixpoint caches_update (name : string) (f : Cache -> Cache) (caches : CacheStorage)
  : CacheStorage :=
  match caches with
  | [] => [(name, f [])]
  | (key, cache) :: rest =>
      if (key =? name)%string then (key, f cache) :: rest
      else (key, cache) :: caches_update name f rest
  end.

(** [caches.delete(key)] and [caches.keys()] *)
Definition caches_delete (key : string) (caches : CacheStorage) : CacheStorage :=
  filter (fun c => negb (fst c =? key)%string) caches.

Definition caches_keys (caches : CacheStorage) : list string := map fst caches.

(** The [activate] handler: the caches left after the old ones are
    deleted. *)
Definition activate (caches : CacheStorage) : CacheStorage :=
  let cacheKeys := caches_keys caches in
  let oldCaches := filter (fun key => negb (key =? CACHE_NAME)%string) cacheKeys in
  fold_left (fun caches key => caches_delete key caches) oldCaches caches.

(** No cache other than the current one answers for the URL. *)
Definition unshadowed (url : string) (caches : CacheStorage) : Prop :=
  forall name cache,
    In (name, cache) caches -> name <> CACHE_NAME -> cache_match url cache = None.

(** Every cached response is one with [ok]. *)
Definition onlyOk (caches : CacheStorage) : Prop :=
  forall name cache url response,
    In (name, cache) caches -> In (url, response) cache -> ok response = true.

Section Strategies.

(** The network: what [fetch(request)] resolves to, or that it rejects. *)
Variable fetch : Request -> result Response.

Local Open Scope monad_scope.

Definition acceptsHTML (request : Request) : bool :=
  match accept request with
  | Some header => includes "text/html" header
  | None => false
  end.

(** The Cache API: [cache.put(request, response)] rejects with a
    [TypeError] for a request whose method is not GET or whose scheme is
    not http(s), for a response with the status 206 and for one with the
    header [Vary: *]; [cache_put_error] is that error, [None] when the
    cache takes the response. *)
Variable cache_put_error : Request -> Response -> option string.

(** [const cache = await caches.open(CACHE_NAME);
    await cache.put(request, response.clone())]; opening creates the
    cache when it does not exist. *)
Definition putInCache (request : Request) (response : Response) : M CacheStorage unit :=
  modify (caches_update CACHE_NAME (fun cache => cache)) ;;
  match cache_put_error request response with
  | Some error => throw error
  | None => modify (caches_update CACHE_NAME (cache_put (url request) response))
  end.

(** [updateCacheInBackground(request)] *)
Definition updateCacheInBackground (request : Request) : M CacheStorage unit :=
  try_catchM
    (networkResponse <- await (fetch request) ;;
     when (ok networkResponse) (putInCache request networkResponse))
    (fun error => ret tt).

(** [cacheFirst(request)]; the update that it starts in the background on
    a cache hit is run to its end. *)
Definition cacheFirst (request : Request) : M CacheStorage (option Response) :=
  try_catchM
    (caches <- get ;;
     match caches_match (url request) caches with
     | Some cachedResponse =>
         updateCacheInBackground request ;;
         ret (Some cachedResponse)
     | None =>
         networkResponse <- await (fetch request) ;;
         when (ok networkResponse) (putInCache request networkResponse) ;;
         ret (Some networkResponse)
     end)
    (fun error =>
       if acceptsHTML request
       then caches <- get ;; ret (caches_match "/offline.html" caches)
       else throw error).

(** [networkFirst(request)] *)
Definition networkFirst (request : Request) : M CacheStorage (option Response) :=
  try_catchM
    (networkResponse <- await (fetch request) ;;
     when (ok networkResponse) (putInCache request networkResponse) ;;
     ret (Some networkResponse))
    (fun error =>
       caches <- get ;;
       match caches_match (url request) caches with
       | Some cachedResponse => ret (Some cachedResponse)
       | None =>
           if acceptsHTML request then ret (caches_match "/offline.html" caches)
           else ret (Some {| ok := false; status := 408; body := "Network error";
                             date := None |})
       end).

(** [cacheOnly(request)] *)
Definition cacheOnly (request : Request) : M CacheStorage (option Response) :=
  caches <- get ;;
  match caches_match (url request) caches with
  | Some cachedResponse => ret (Some cachedResponse)
  | None =>
      if acceptsHTML request then ret (caches_match "/offline.html" caches)
      else ret (Some {| ok := false; status := 404; body := "Not available offline";
                        date := None |})
  end.

(** The [fetch] handler: [None] when the worker does not respond, else
    the strategy whose function it responds with ([networkFirst] by
    default). *)
Definition onFetch (request : Request) : option Strategy :=
  (* skip non-GET requests *)
  if negb (httpMethod request =? "GET")%string then None
  (* skip browser extensions and chrome:// URLs *)
  else if String.prefix "chrome-extension://" (url request) ||
          String.prefix "chrome://" (url request) then None
  else Some (getStrategyForURL (url request)).

End Strategies.

(** Whether [cleanupOldCacheEntries] takes a response for too old at the
    time [now]. *)
Definition expired (now : Z) (response : Response) : bool :=
  match date response with
  | Some cachedDate => (now - cachedDate >? 7 * 24 * 60 * 60 * 1000)%Z
  | None => false
  end.

(** [cleanupOldCacheEntries()], at the time [now]: the current cache
    without the entries whose date is more than seven days back. *)
Definition cleanupOldCacheEntries (now : Z) (caches : CacheStorage) : CacheStorage :=
  let maxAge := (7 * 24 * 60 * 60 * 1000)%Z in
  caches_update CACHE_NAME
    (fun cache =>
       fold_left
         (fun cache request =>
            match cache_match request cache with
            | Some response =>
                match date response with
                | Some cachedDate =>
                    if (now - cachedDate >? maxAge)%Z then cache_delete request cache
                    else cache
                | None => cache
                end
            | None => cache
            end)
         (map fst cache) cache)
    caches.


Section DataStore.

(** The values kept in the data store are lists of records of some type
    [V]; [JSON_stringify] and [JSON_parse] are [JSON.stringify] and the
    parsing of [response.json()], which fails on a body that is not JSON. *)
Variable V : Type.
Variable JSON_stringify : list V -> string.
Variable JSON_parse : string -> option (list V).

(** [getStoredData(key)]: the value read, [None] for [null]; opening the
    cache creates it when it does not exist. *)
Definition getStoredData (key : string) (caches : CacheStorage)
  : option (list V) * CacheStorage :=
  let caches := caches_update CACHE_NAME (fun cache => cache) caches in
  (match cache_match ("/data/" ++ key) (caches_open CACHE_NAME caches) with
   | Some response => JSON_parse (body response)
   | None => None
   end,
   caches).

(** [storeData(key, value)]: the storage afterwards. *)
Definition storeData (key : string) (value : list V) (caches : CacheStorage)
  : CacheStorage :=
  caches_update CACHE_NAME
    (cache_put ("/data/" ++ key)
       {| ok := true; status := 200; body := JSON_stringify value; date := None |})
    caches.

(** The network for the upload of a record: what the [fetch] of
    [syncAttendanceRecord] resolves to, and whether a body is JSON. *)
Variable post : V -> result Response.
Variable isJSON : string -> bool.

(** [syncAttendanceRecord(record)] *)
Definition syncAttendanceRecord (record : V) : result unit :=
  let? response := post record in
  if negb (ok response) then Throw ("HTTP " ++ numberToString (status response))
  else if isJSON (body response) then Ok tt
  else Throw "SyntaxError".

Definition rejected (record : V) : bool :=
  match syncAttendanceRecord record with
  | Ok _ => false
  | Throw _ => true
  end.

(** [syncAttendanceData()]: the storage afterwards and, when there was
    something to send, the counts [success] and [failed] of the message
    "SYNC_COMPLETE" posted to every client. *)
Definition syncAttendanceData (caches : CacheStorage)
  : CacheStorage * option (Z * Z) :=
  let '(attendanceData, caches) := getStoredData "attendance_queue" caches in
  match attendanceData with
  | Some (first :: others) =>
      let attendanceData := first :: others in
      (* remove successfully synced records *)
      let failedRecords := filter rejected attendanceData in
      (storeData "attendance_queue" failedRecords caches,
       Some (Z.of_nat (List.length (filter (fun r => negb (rejected r)) attendanceData)),
             Z.of_nat (List.length failedRecords)))
  | _ => (caches, None)
  end.

End DataStore.

Arguments getStoredData {V} JSON_parse key caches.
Arguments storeData {V} JSON_stringify key value caches.
Arguments syncAttendanceRecord {V} post isJSON record.
Arguments rejected {V} post isJSON record.
Arguments syncAttendanceData {V} JSON_stringify JSON_parse post isJSON caches.

End SW.

From Stdlib Require Import Ascii.

(** A worker at work: a request of the API answered by the network, a
    storage with an aged cache, and an attendance queue of two records of
    which the network takes the first. *)
Module Browsing.

Import SW.

Definition tasksRequest : Request :=
  {| url := "/api/tasks"; httpMethod := "GET"; accept := Some "application/json" |}.

Definition tasks : Response :=
  {| ok := true; status := 200; body := "[1,2]"; date := Some 700000000%Z |}.

Definition shell : Response :=
  {| ok := true; status := 200; body := "<html>"; date := Some 0%Z |}.

Definition online (request : Request) : result Response := Ok tasks.

(** A part of a recording, answered with the status 206, and a network
    that answers with it. *)
Definition clip : Response :=
  {| ok := true; status := 206; body := "RIFF"; date := None |}.

Definition streaming (request : Request) : result Response := Ok clip.

(** The refusal of the Cache API, as far as the status decides it. *)
Definition refusesPartial (request : Request) (response : Response) : option string :=
  if (status response =? 206)%Z then Some "TypeError" else None.

Definition stored : CacheStorage := [(CACHE_NAME, [("/index.html", shell)])]%list.

Definition aged : CacheStorage :=
  [(CACHE_NAME, [("/index.html", shell); ("/api/tasks", tasks)])]%list.

Definition stringify (records : list Ascii.ascii) : string :=
  string_of_list_ascii records.

Definition parse (text : string) : option (list Ascii.ascii) :=
  Some (list_ascii_of_string text).

Definition upload (record : Ascii.ascii) : result Response :=
  if Ascii.eqb record "a"%char then Ok tasks else Throw "Failed to fetch".

Definition queued : CacheStorage :=
  storeData stringify "attendance_queue" ["a"%char; "b"%char]%list stored.

End Browsing.

(** ** Properties of the verification flow *)

Section Flow.

Context {math : MathLib}.
Variable this : EMS.

(** [verifyGPSLocation] never throws, and accepts exactly when the range
    check and the three spoofing checks pass. *)
Lemma verifyGPSLocation_Ok :
  exists g, verifyGPSLocation this = Ok g /\
            gv_verified g = gpsRangePassed this && spoofingChecksPassed this.
Proof.
  unfold verifyGPSLocation, gpsRangePassed, spoofingChecksPassed.
  destruct (getCurrentLocation (gpsTracker this)) as [[location|]|e]; simpl;
    try (eexists; split; [reflexivity|reflexivity]).
  destruct (JS.truthy (latitude location)); simpl;
    [|eexists; split; reflexivity].
  destruct (JS.truthy (longitude location)); simpl;
    [|eexists; split; reflexivity].
  destruct (isInOfficeRange (gpsTracker this) (latitude location) (longitude location));
    simpl; eexists; (split; [reflexivity|]); simpl; [|reflexivity].
  now rewrite andb_true_r, andb_assoc.
Qed.

(** The ways [verifyAttendance] ends.  When the pattern step throws, the
    [catch] block asks for the manual confirmation.  Otherwise the GPS
    step alone decides between the verdict "gps" and the manual
    confirmation of the [try] block; when the dialog of the [try] block
    cannot be shown, the [catch] block asks for a second one.  An error
    of the dialog of the [catch] block reaches the caller. *)
Lemma verifyAttendance_run (type : string) :
  match verifyAttendancePattern this type with
  | Throw _ =>
      match modals_show this 0%nat with
      | Ok _ =>
          exists v, verifyAttendance this type = Ok v /\
            verified v = modal_answer this /\ method v = "manual_fallback" /\
            md_verificationLevel (metadata v) = None /\
            (location v <> None -> gpsAccepted this = true)
      | Throw error => verifyAttendance this type = Throw error
      end
  | Ok _ =>
      if gpsAccepted this
      then exists v, verifyAttendance this type = Ok v /\
             verified v = true /\ method v = "gps" /\
             md_verificationLevel (metadata v) = Some "high"
      else
        match modals_show this 0%nat with
        | Ok _ =>
            exists v, verifyAttendance this type = Ok v /\
              verified v = modal_answer this /\ method v = "manual" /\
              md_verificationLevel (metadata v) = Some "low" /\
              location v = None
        | Throw _ =>
            match modals_show this 1%nat with
            | Ok _ =>
                exists v, verifyAttendance this type = Ok v /\
                  verified v = modal_answer this /\ method v = "manual_fallback" /\
                  md_verificationLevel (metadata v) = None /\
                  location v = None
            | Throw error => verifyAttendance this type = Throw error
            end
        end
  end.
Proof.
  destruct verifyGPSLocation_Ok as (g & Hg & Hv).
  unfold verifyAttendance, try_catchM, verifyAttendance_try, verifyAttendance_catch,
    gpsAccepted, bind, when, await, modify, get, ret, manualVerification, assign.
  rewrite Hg, <- Hv.
  destruct (verifyAttendanceTime this type) as [tv tr tm].
  destruct (verifyAttendancePattern this type) as [[pv pr pm]|e];
    destruct (config_GPS_ANTI_SPOOFING this), (gv_verified g), tv; simpl;
    try destruct pv; simpl;
    destruct (modals_show this 0%nat) as [[]|e0]; simpl;
    try (destruct (modals_show this 1%nat) as [[]|e1]; simpl);
    try reflexivity;
    eexists; (split; [reflexivity|]); simpl; intuition congruence.
Qed.


Lemma gpsRangePassed_in_range (location : Location) (d m : Q) :
  getCurrentLocation (gpsTracker this) = Ok (Some location) ->
  JS.truthy (latitude location) = true ->
  JS.truthy (longitude location) = true ->
  calculateDistance (fst (officeLocation (gpsTracker this)))
                    (snd (officeLocation (gpsTracker this)))
                    (latitude location) (longitude location) = Some d ->
  maxDistance (gpsTracker this) = Some m ->
  d <= m ->
  gpsRangePassed this = true.
Proof.
  intros Hloc Hlat Hlon Hd Hm Hle. unfold gpsRangePassed, isInOfficeRange.
  rewrite Hloc, Hlat, Hlon, Hd, Hm. simpl. now apply Qle_bool_iff.
Qed.



(** C3 (as amended).  With GPS verification enabled in the configuration
    (the default), when the current location is valid and within the max
    distance of the office, all three spoofing checks pass, the current
    time is within the time window of the attendance type and the user
    has no attendance history, the verdict is verified with method
    "gps". *)
Theorem verifyAttendance_accepts (type : string) (location : Location) (d m : Q) (id : Z) :
  config_GPS_ANTI_SPOOFING this = true ->
  getCurrentLocation (gpsTracker this) = Ok (Some location) ->
  JS.truthy (latitude location) = true ->
  JS.truthy (longitude location) = true ->
  calculateDistance (fst (officeLocation (gpsTracker this)))
                    (snd (officeLocation (gpsTracker this)))
                    (latitude location) (longitude location) = Some d ->
  maxDistance (gpsTracker this) = Some m ->
  d <= m ->
  passed (checkLocationConsistency this location) = true ->
  passed (checkSpeedAnomaly this location) = true ->
  passed (checkAltitudeAnomaly location) = true ->
  timeWindowPassed this type = true ->
  currentUser this = Some id ->
  attendance_getUserAttendance this id 30 = Ok [] ->
  exists v, verifyAttendance this type = Ok v /\
    verified v = true /\ method v = "gps".
Proof.
  intros Hcfg Hloc Hlat Hlon Hd Hm Hle Hc Hs Ha _ Hid Hhist.
  pose proof (gpsRangePassed_in_range location d m Hloc Hlat Hlon Hd Hm Hle) as Hrange.
  pose proof (verifyAttendance_run type) as Hrun.
  unfold verifyAttendancePattern in Hrun. rewrite Hid, Hhist in Hrun. simpl in Hrun.
  unfold gpsAccepted, spoofingChecksPassed in Hrun.
  rewrite Hcfg, Hrange, Hloc, Hc, Hs, Ha in Hrun. simpl in Hrun.
  destruct Hrun as (v & Hv & Hrun). exists v. tauto.
Qed.

(** C4 (as amended).  When the manual dialog can be shown,
    [verifyAttendance] returns a verdict whatever the providers do: an
    error of the location provider is caught inside [verifyGPSLocation],
    which then reports an unverified location, and an error of the
    history provider is caught by [verifyAttendance]; either way the flow
    falls back to the manual confirmation: the method is "manual" or
    "manual_fallback" and verified is the outcome of the manual
    confirmation.  The only error that reaches the caller is one of the
    dialog itself: [verifyAttendance] throws exactly when the dialog that
    its [catch] block asks for cannot be shown, be it the first dialog of
    the run (the history provider threw) or the second (the dialog of the
    [try] block could not be shown either). *)
Theorem verifyAttendance_never_throws (type : string) :
  (modals_show this 0%nat = Ok tt ->
   exists v, verifyAttendance this type = Ok v /\
     ((exists e, getCurrentLocation (gpsTracker this) = Throw e) ->
      verifyGPSLocation this =
        Ok {| gv_verified := false; gv_reason := Some "خطا در دریافت موقعیت";
              gv_location := None; gv_metadata := None |} /\
      verified v = modal_answer this /\
      (method v = "manual" \/ method v = "manual_fallback")) /\
     ((exists id e, currentUser this = Some id /\
                    attendance_getUserAttendance this id 30 = Throw e) ->
      verified v = modal_answer this /\ method v = "manual_fallback")) /\
  (forall error,
      verifyAttendance this type = Throw error <->
      ((exists e, verifyAttendancePattern this type = Throw e) /\
       modals_show this 0%nat = Throw error) \/
      ((exists p, verifyAttendancePattern this type = Ok p) /\
       gpsAccepted this = false /\
       (exists e, modals_show this 0%nat = Throw e) /\
       modals_show this 1%nat = Throw error)).
Proof.
  pose proof (verifyAttendance_run type) as Hrun. split.
  - intros Hshow. rewrite Hshow in Hrun.
    assert (Hv : exists v, verifyAttendance this type = Ok v).
    { destruct (verifyAttendancePattern this type); [destruct (gpsAccepted this)|];
        destruct Hrun as (v & Hv & _); now exists v. }
    destruct Hv as (v & Hv). exists v. split; [exact Hv|]. rewrite Hv in Hrun. split.
    + intros [e He]. split.
      * unfold verifyGPSLocation. now rewrite He.
      * unfold gpsAccepted, gpsRangePassed in Hrun. rewrite He in Hrun.
        rewrite andb_false_r in Hrun.
        destruct (verifyAttendancePattern this type);
          destruct Hrun as (v' & [= <-] & Hrun); intuition.
    + intros (id & e & Hid & He).
      unfold verifyAttendancePattern in Hrun. rewrite Hid, He in Hrun.
      destruct Hrun as (v' & [= <-] & Hrun). intuition.
  - intros error.
    destruct (verifyAttendancePattern this type) as [p|e].
    + destruct (gpsAccepted this).
      * destruct Hrun as (v & Hv & _). rewrite Hv. split; [discriminate|].
        intros [([e He] & _)|(_ & Hno & _)]; discriminate.
      * destruct (modals_show this 0%nat) as [[]|e0].
        { destruct Hrun as (v & Hv & _). rewrite Hv. split; [discriminate|].
          intros [([e He] & _)|(_ & _ & [e He] & _)]; discriminate. }
        destruct (modals_show this 1%nat) as [[]|e1].
        { destruct Hrun as (v & Hv & _). rewrite Hv. split; [discriminate|].
          intros [([e He] & _)|(_ & _ & _ & He)]; discriminate. }
        rewrite Hrun. split.
        { intros [= <-]. right. split; [now exists p|]. split; [reflexivity|].
          split; [now exists e0|reflexivity]. }
        intros [([e He] & _)|(_ & _ & _ & [= <-])]; [discriminate|reflexivity].
    + destruct (modals_show this 0%nat) as [[]|e0].
      * destruct Hrun as (v & Hv & _). rewrite Hv. split; [discriminate|].
        intros [(_ & He)|([p Hp] & _)]; discriminate.
      * rewrite Hrun. split.
        { intros [= <-]. left. split; [now exists e|reflexivity]. }
        intros [(_ & [= <-])|([p Hp] & _)]; [reflexivity|discriminate].
Qed.

(** C9.  A verdict has method "gps" only if the location was within the
    permitted office range and all three spoofing sub-checks passed; in
    every other case the engine falls back to the manual confirmation
    (method "manual" or "manual_fallback") and the verified flag is the
    outcome of that confirmation, so no passing sub-check produces
    verified = true by itself.  A verdict is returned whenever the manual
    dialog can be shown. *)
Theorem verifyAttendance_gps_only_if (type : string) :
  (modals_show this 0%nat = Ok tt -> exists v, verifyAttendance this type = Ok v) /\
  (forall v, verifyAttendance this type = Ok v ->
     (method v = "gps" ->
      gpsRangePassed this = true /\ spoofingChecksPassed this = true) /\
     (gpsRangePassed this && spoofingChecksPassed this = false ->
      (method v = "manual" \/ method v = "manual_fallback") /\
      verified v = modal_answer this)).
Proof.
  pose proof (verifyAttendance_run type) as Hrun. split.
  - intros Hshow. rewrite Hshow in Hrun.
    destruct (verifyAttendancePattern this type); [destruct (gpsAccepted this)|];
      destruct Hrun as (v & Hv & _); now exists v.
  - intros v Hv. unfold gpsAccepted in Hrun.
    destruct (gpsRangePassed this && spoofingChecksPassed this) eqn:E.
    + apply andb_true_iff in E. split; [tauto|discriminate].
    + rewrite andb_false_r in Hrun.
      assert (H : (method v = "manual" \/ method v = "manual_fallback") /\
                  verified v = modal_answer this).
      { destruct (verifyAttendancePattern this type);
          destruct (modals_show this 0%nat) as [[]|e0];
          try destruct (modals_show this 1%nat) as [[]|e1];
          try (rewrite Hv in Hrun; discriminate Hrun);
          destruct Hrun as (v' & Hv' & Hrun); rewrite Hv in Hv';
          injection Hv' as <-; intuition. }
      split; [|intros _; exact H].
      intros Hgps. destruct H as [[Hm|Hm] _]; rewrite Hm in Hgps; discriminate.
Qed.

(** X1.  When the history provider answers and the GPS step accepts the
    location, the verdict is verified with method "gps" and level "high"
    whatever the time-window and pattern checks return: the assignments
    [verified = verified && x.verified] run only under [if (x.verified)]
    and so never lower the flag. *)
Theorem verifyAttendance_gps_decides (type : string) :
  (exists p, verifyAttendancePattern this type = Ok p) ->
  gpsAccepted this = true ->
  exists v, verifyAttendance this type = Ok v /\
    verified v = true /\ method v = "gps" /\
    md_verificationLevel (metadata v) = Some "high".
Proof.
  intros [p Hp] Hgps.
  pose proof (verifyAttendance_run type) as Hrun.
  now rewrite Hp, Hgps in Hrun.
Qed.

(** C10.  A current location whose latitude or longitude is exactly 0 is
    treated as invalid: [verifyGPSLocation] returns verified = false with
    the invalid-location reason, because the coordinates are tested for
    falsiness. *)
Theorem verifyGPSLocation_zero_coordinate (location : Location) :
  getCurrentLocation (gpsTracker this) = Ok (Some location) ->
  (exists q, latitude location = Some q /\ q == 0) \/
  (exists q, longitude location = Some q /\ q == 0) ->
  verifyGPSLocation this =
    Ok {| gv_verified := false; gv_reason := Some "موقعیت نامعتبر";
          gv_location := None; gv_metadata := None |}.
Proof.
  intros Hloc Hzero. unfold verifyGPSLocation. rewrite Hloc. simpl.
  assert (H : negb (JS.truthy (latitude location)) ||
              negb (JS.truthy (longitude location)) = true).
  { apply orb_true_iff.
    destruct Hzero as [(q & Hq & Hz)|(q & Hq & Hz)]; [left|right];
      rewrite Hq; simpl; apply Qeq_bool_iff in Hz; now rewrite Hz. }
  now rewrite H.
Qed.

End Flow.

(** ** Integers are exact

    On integers below 2^53 in magnitude the operations on doubles agree
    with those of [Z]: sums, differences and exact quotients are not
    rounded.  This is what allows minutes to be kept in [Z], and it
    decides the pattern check on a history of identical times. *)

Section Exact.

Import F64.

Local Open Scope Z_scope.


Lemma digits_log2 (p : positive) : digits p = Z.log2 (Zpos p) + 1.
Proof.
  unfold digits.
  assert (H : SpecFloat.digits2_pos p = Pos.size p) by (induction p; simpl; congruence).
  rewrite H. destruct p; simpl; lia.
Qed.

Lemma digits_le (p : positive) (n : Z) : 0 <= n -> (digits p <= n <-> Zpos p < 2 ^ n).
Proof.
  intros Hn. rewrite digits_log2.
  rewrite (Z.log2_lt_pow2 (Zpos p) n) by lia. lia.
Qed.

Lemma shiftl_nat_spec (p : positive) (n : nat) :
  Zpos (Pos.shiftl_nat p n) = Zpos p * 2 ^ Z.of_nat n.
Proof.
  induction n as [|n IH].
  - simpl. lia.
  - change (Pos.shiftl_nat p (S n)) with (xO (Pos.shiftl_nat p n)).
    rewrite Pos2Z.inj_xO, IH, Nat2Z.inj_succ, Z.pow_succ_r by lia. lia.
Qed.

Lemma digits_shiftl_nat (p : positive) (n : nat) :
  digits (Pos.shiftl_nat p n) = digits p + Z.of_nat n.
Proof.
  unfold digits. induction n as [|n IH].
  - simpl. lia.
  - change (Pos.shiftl_nat p (S n)) with (xO (Pos.shiftl_nat p n)).
    cbn [SpecFloat.digits2_pos]. rewrite Pos2Z.inj_succ, IH. lia.
Qed.

Lemma iter_pos_nat {A} (f : A -> A) (n : positive) (x : A) :
  SpecFloat.iter_pos f n x = Nat.iter (Pos.to_nat n) f x.
Proof.
  revert x. induction n as [n IH|n IH|]; intros x; cbn [SpecFloat.iter_pos].
  - rewrite !IH, Pos2Nat.inj_xI.
    rewrite <- Nat.iter_add, <- Nat.iter_succ_r. f_equal. lia.
  - rewrite !IH, Pos2Nat.inj_xO, <- Nat.iter_add. f_equal. lia.
  - reflexivity.
Qed.

Lemma shr_1_shiftl_nat (p : positive) (n : nat) :
  Nat.iter n SpecFloat.shr_1
    {| SpecFloat.shr_m := Zpos (Pos.shiftl_nat p n);
       SpecFloat.shr_r := false; SpecFloat.shr_s := false |}
  = {| SpecFloat.shr_m := Zpos p; SpecFloat.shr_r := false; SpecFloat.shr_s := false |}.
Proof.
  induction n as [|n IH]; [reflexivity|].
  rewrite Nat.iter_succ_r.
  change (Pos.shiftl_nat p (S n)) with (xO (Pos.shiftl_nat p n)).
  exact IH.
Qed.

Lemma iter_xO_shiftl_nat (p d : positive) :
  Pos.iter xO p d = Pos.shiftl_nat p (Pos.to_nat d).
Proof.
  unfold Pos.shiftl_nat. apply Pos2Nat.inj_iter.
Qed.

Lemma shiftl_nat_add (p : positive) (n m : nat) :
  Pos.shiftl_nat (Pos.shiftl_nat p n) m = Pos.shiftl_nat p (n + m).
Proof.
  induction m as [|m IH].
  - now rewrite Nat.add_0_r.
  - rewrite Nat.add_succ_r.
    change (xO (Pos.shiftl_nat (Pos.shiftl_nat p n) m) = xO (Pos.shiftl_nat p (n + m))).
    now rewrite IH.
Qed.


Lemma fexp_small (e : Z) : -1021 <= e -> SpecFloat.fexp F64.prec F64.emax e = e - 53.
Proof.
  intros He. unfold SpecFloat.fexp, SpecFloat.emin, F64.prec, F64.emax. lia.
Qed.

Lemma digits_pos (p : positive) : 1 <= digits p.
Proof. unfold digits. lia. Qed.

Lemma shr_fexp_exact (p : positive) (n : nat) :
  digits p <= 53 -> 53 - digits p <= Z.of_nat n ->
  SpecFloat.shr_fexp F64.prec F64.emax (Zpos (Pos.shiftl_nat p n)) (- Z.of_nat n)
    SpecFloat.loc_Exact
  = ({| SpecFloat.shr_m := Zpos (Pos.shiftl_nat p (Z.to_nat (53 - digits p)));
        SpecFloat.shr_r := false; SpecFloat.shr_s := false |},
     digits p - 53).
Proof.
  intros Hp Hn. pose proof (digits_pos p) as Hd.
  unfold SpecFloat.shr_fexp.
  change (SpecFloat.Zdigits2 (Zpos (Pos.shiftl_nat p n)))
    with (digits (Pos.shiftl_nat p n)).
  rewrite digits_shiftl_nat, fexp_small by lia.
  cbn [SpecFloat.shr_record_of_loc].
  remember (Z.to_nat (53 - digits p)) as n0 eqn:En0.
  remember (Z.to_nat (digits p - 53 + Z.of_nat n)) as k eqn:Ek.
  assert (Hsplit : n = (n0 + k)%nat) by lia.
  replace (digits p + Z.of_nat n + - Z.of_nat n - 53 - - Z.of_nat n)
    with (Z.of_nat k) by lia.
  destruct k as [|k].
  - cbn [Z.of_nat SpecFloat.shr]. rewrite Hsplit, Nat.add_0_r. f_equal. lia.
  - unfold SpecFloat.shr. cbn [Z.of_nat].
    rewrite iter_pos_nat, SuccNat2Pos.id_succ, Hsplit, <- shiftl_nat_add.
    rewrite shr_1_shiftl_nat. f_equal.
    rewrite <- Hsplit. lia.
Qed.

Lemma binary_round_aux_exact (s : bool) (p : positive) (n : nat) :
  digits p <= 53 -> 53 - digits p <= Z.of_nat n ->
  SpecFloat.binary_round_aux F64.prec F64.emax s
    (Zpos (Pos.shiftl_nat p n)) (- Z.of_nat n) SpecFloat.loc_Exact
  = canonical s p.
Proof.
  intros Hp Hn. pose proof (digits_pos p) as Hd.
  unfold SpecFloat.binary_round_aux.
  rewrite (shr_fexp_exact p n Hp Hn).
  cbn [SpecFloat.shr_m SpecFloat.loc_of_shr_record SpecFloat.round_nearest_even].
  replace (digits p - 53) with (- Z.of_nat (Z.to_nat (53 - digits p))) at 1 by lia.
  rewrite (shr_fexp_exact p _ Hp) by lia.
  cbn [SpecFloat.shr_m].
  unfold canonical, F64.emax, F64.prec.
  destruct (digits p - 53 <=? 1024 - 53) eqn:E; [reflexivity|].
  apply Z.leb_gt in E. lia.
Qed.

Lemma binary_round_exact (s : bool) (p : positive) (n : nat) :
  digits p <= 53 ->
  SpecFloat.binary_round F64.prec F64.emax s (Pos.shiftl_nat p n) (- Z.of_nat n)
  = canonical s p.
Proof.
  intros Hp. pose proof (digits_pos p) as Hd.
  unfold SpecFloat.binary_round.
  change (Zpos (SpecFloat.digits2_pos (Pos.shiftl_nat p n)))
    with (digits (Pos.shiftl_nat p n)).
  rewrite digits_shiftl_nat, fexp_small by lia.
  unfold SpecFloat.shl_align.
  destruct (digits p + Z.of_nat n + - Z.of_nat n - 53 - - Z.of_nat n) as [|d|d] eqn:E.
  - apply binary_round_aux_exact; lia.
  - apply binary_round_aux_exact; lia.
  - rewrite iter_xO_shiftl_nat, shiftl_nat_add.
    replace (digits p + Z.of_nat n + - Z.of_nat n - 53)
      with (- Z.of_nat (n + Pos.to_nat d)) by lia.
    apply binary_round_aux_exact; lia.
Qed.

(** An integer below 2^53 in magnitude is a double. *)
Lemma of_Z_canonical (z : Z) :
  Z.abs z < 2 ^ 53 ->
  F64.of_Z z = match z with
               | Z0 => F64.zero
               | Zpos p => canonical false p
               | Zneg p => canonical true p
               end.
Proof.
  intros Hz. destruct z as [|p|p]; [reflexivity| |];
    unfold F64.of_Z, SpecFloat.binary_normalize;
    apply (binary_round_exact _ p 0); apply digits_le; lia.
Qed.

(** The value [z * 2^n], given with the exponent [-n], is the double [z]. *)
Lemma binary_normalize_exact (z : Z) (n : nat) :
  Z.abs z < 2 ^ 53 ->
  SpecFloat.binary_normalize F64.prec F64.emax (z * 2 ^ Z.of_nat n) (- Z.of_nat n) false
  = F64.of_Z z.
Proof.
  intros Hz. rewrite (of_Z_canonical z Hz).
  destruct z as [|p|p].
  - reflexivity.
  - rewrite <- shiftl_nat_spec. cbn [SpecFloat.binary_normalize].
    apply binary_round_exact. apply digits_le; lia.
  - replace (Zneg p * 2 ^ Z.of_nat n) with (- (Zpos p * 2 ^ Z.of_nat n))
      by (rewrite <- Z.mul_opp_l; reflexivity).
    rewrite <- shiftl_nat_spec. cbn [Z.opp SpecFloat.binary_normalize].
    apply binary_round_exact. apply digits_le; lia.
Qed.


Lemma shl_align_canonical (p : positive) (n : nat) :
  digits p <= 53 -> 53 - digits p <= Z.of_nat n ->
  fst (SpecFloat.shl_align (Pos.shiftl_nat p (Z.to_nat (53 - digits p)))
         (digits p - 53) (- Z.of_nat n))
  = Pos.shiftl_nat p n.
Proof.
  intros Hp Hn. unfold SpecFloat.shl_align.
  destruct (- Z.of_nat n - (digits p - 53)) as [|d|d] eqn:E; cbn [fst].
  - f_equal. lia.
  - lia.
  - rewrite iter_xO_shiftl_nat, shiftl_nat_add. f_equal. lia.
Qed.

Lemma cond_Zopp_shiftl_nat (s : bool) (p : positive) (n : nat) :
  SpecFloat.cond_Zopp s (Zpos (Pos.shiftl_nat p n))
  = SpecFloat.cond_Zopp s (Zpos p) * 2 ^ Z.of_nat n.
Proof.
  rewrite shiftl_nat_spec. destruct s; cbn [SpecFloat.cond_Zopp]; lia.
Qed.

Lemma add_canonical (s1 s2 : bool) (p1 p2 : positive) :
  digits p1 <= 53 -> digits p2 <= 53 ->
  Z.abs (SpecFloat.cond_Zopp s1 (Zpos p1) + SpecFloat.cond_Zopp s2 (Zpos p2)) < 2 ^ 53 ->
  F64.add (canonical s1 p1) (canonical s2 p2)
  = F64.of_Z (SpecFloat.cond_Zopp s1 (Zpos p1) + SpecFloat.cond_Zopp s2 (Zpos p2)).
Proof.
  intros H1 H2 Hsum.
  pose proof (digits_pos p1) as Hd1. pose proof (digits_pos p2) as Hd2.
  unfold F64.add, canonical. cbn [SpecFloat.SFadd].
  remember (Z.to_nat (Z.max (53 - digits p1) (53 - digits p2))) as n eqn:En.
  replace (Z.min (digits p1 - 53) (digits p2 - 53)) with (- Z.of_nat n) by lia.
  rewrite !shl_align_canonical, !cond_Zopp_shiftl_nat by lia.
  rewrite <- Z.mul_add_distr_r.
  now apply binary_normalize_exact.
Qed.

Lemma sub_canonical (s1 s2 : bool) (p1 p2 : positive) :
  digits p1 <= 53 -> digits p2 <= 53 ->
  Z.abs (SpecFloat.cond_Zopp s1 (Zpos p1) - SpecFloat.cond_Zopp s2 (Zpos p2)) < 2 ^ 53 ->
  F64.sub (canonical s1 p1) (canonical s2 p2)
  = F64.of_Z (SpecFloat.cond_Zopp s1 (Zpos p1) - SpecFloat.cond_Zopp s2 (Zpos p2)).
Proof.
  intros H1 H2 Hsum.
  pose proof (digits_pos p1) as Hd1. pose proof (digits_pos p2) as Hd2.
  unfold F64.sub, canonical. cbn [SpecFloat.SFsub].
  remember (Z.to_nat (Z.max (53 - digits p1) (53 - digits p2))) as n eqn:En.
  replace (Z.min (digits p1 - 53) (digits p2 - 53)) with (- Z.of_nat n) by lia.
  rewrite !shl_align_canonical, !cond_Zopp_shiftl_nat by lia.
  rewrite <- Z.mul_sub_distr_r.
  now apply binary_normalize_exact.
Qed.

(** Sums and differences of integers are exact as long as they stay below
    2^53 in magnitude. *)
Lemma add_of_Z (a b : Z) :
  Z.abs a < 2 ^ 53 -> Z.abs b < 2 ^ 53 -> Z.abs (a + b) < 2 ^ 53 ->
  F64.add (F64.of_Z a) (F64.of_Z b) = F64.of_Z (a + b).
Proof.
  intros Ha Hb Hab.
  rewrite (of_Z_canonical a Ha), (of_Z_canonical b Hb).
  destruct a as [|p|p], b as [|q|q];
    try reflexivity;
    try (symmetry; apply of_Z_canonical; assumption).
  - apply (add_canonical false false); try (apply digits_le; lia). exact Hab.
  - apply (add_canonical false true); try (apply digits_le; lia). exact Hab.
  - apply (add_canonical true false); try (apply digits_le; lia). exact Hab.
  - apply (add_canonical true true); try (apply digits_le; lia). exact Hab.
Qed.

Lemma sub_of_Z (a b : Z) :
  Z.abs a < 2 ^ 53 -> Z.abs b < 2 ^ 53 -> Z.abs (a - b) < 2 ^ 53 ->
  F64.sub (F64.of_Z a) (F64.of_Z b) = F64.of_Z (a - b).
Proof.
  intros Ha Hb Hab.
  rewrite (of_Z_canonical a Ha), (of_Z_canonical b Hb).
  destruct a as [|p|p], b as [|q|q]; try reflexivity.
  - symmetry. apply (of_Z_canonical (Zneg q)). exact Hb.
  - symmetry. apply (of_Z_canonical (Zpos q)). exact Hb.
  - symmetry. apply (of_Z_canonical (Zpos p)). exact Ha.
  - apply (sub_canonical false false); try (apply digits_le; lia). exact Hab.
  - apply (sub_canonical false true); try (apply digits_le; lia). exact Hab.
  - symmetry. apply (of_Z_canonical (Zneg p)). exact Ha.
  - apply (sub_canonical true false); try (apply digits_le; lia). exact Hab.
  - apply (sub_canonical true true); try (apply digits_le; lia). exact Hab.
Qed.


Lemma div_eucl_exact (q b : Z) : b <> 0 -> Z.div_eucl (q * b) b = (q, 0).
Proof.
  intros Hb.
  pose proof (Z.div_mul q b Hb) as Hq. pose proof (Z.mod_mul q b Hb) as Hr.
  unfold Z.div, Z.modulo in Hq, Hr.
  destruct (Z.div_eucl (q * b) b) as [q' r']. now subst.
Qed.

Lemma digits_mul (p q : positive) : digits (p * q) <= digits p + digits q.
Proof.
  rewrite !digits_log2, Pos2Z.inj_mul.
  pose proof (Z.log2_mul_above (Zpos p) (Zpos q)). lia.
Qed.

(** An exact quotient of integers is exact. *)
Lemma div_of_Z (t n : Z) :
  0 <= t -> 0 < n < 2 ^ 53 -> t * n < 2 ^ 53 ->
  F64.div (F64.of_Z (t * n)) (F64.of_Z n) = F64.of_Z t.
Proof.
  intros Ht Hn Hlt.
  assert (Hn53 : Z.abs n < 2 ^ 53) by lia.
  assert (Htn : 0 <= t <= t * n) by nia.
  assert (Ht53 : Z.abs t < 2 ^ 53) by lia.
  assert (Htn53 : Z.abs (t * n) < 2 ^ 53) by lia.
  rewrite (of_Z_canonical _ Htn53), (of_Z_canonical _ Hn53), (of_Z_canonical _ Ht53).
  destruct n as [|pn|pn]; try lia.
  destruct t as [|pt|pt]; try lia; [reflexivity|].
  cbn [Z.mul].
  assert (Hdt : digits pt <= 53) by (apply digits_le; lia).
  assert (Hdn : digits pn <= 53) by (apply digits_le; lia).
  assert (Hda : digits (pt * pn) <= 53) by (apply digits_le; lia).
  pose proof (digits_pos pt) as Ht1. pose proof (digits_pos pn) as Hn1.
  pose proof (digits_pos (pt * pn)) as Ha1.
  pose proof (digits_mul pt pn) as Hmul.
  unfold F64.div, canonical. cbn [SpecFloat.SFdiv].
  unfold SpecFloat.SFdiv_core_binary.
  change (SpecFloat.Zdigits2 (Zpos ?m)) with (digits m).
  rewrite !digits_shiftl_nat, fexp_small by lia.
  remember (Z.to_nat (53 - (digits (pt * pn) - digits pn))) as k eqn:Ek.
  replace (Z.min _ _) with (- Z.of_nat k) by lia.
  replace (digits (pt * pn) - 53 - (digits pn - 53) - - Z.of_nat k) with 53 by lia.
  assert (Hq : Z.shiftl (Zpos (Pos.shiftl_nat (pt * pn) (Z.to_nat (53 - digits (pt * pn))))) 53
               = Zpos (Pos.shiftl_nat pt k)
                 * Zpos (Pos.shiftl_nat pn (Z.to_nat (53 - digits pn)))).
  { rewrite Z.shiftl_mul_pow2, !shiftl_nat_spec, Pos2Z.inj_mul by lia.
    rewrite !Z2Nat.id by lia.
    replace (Z.of_nat k) with (53 - (digits (pt * pn) - digits pn)) by lia.
    replace (Zpos pt * Zpos pn * 2 ^ (53 - digits (pt * pn)) * 2 ^ 53)
      with (Zpos pt * Zpos pn * (2 ^ (53 - digits (pt * pn)) * 2 ^ 53)) by ring.
    replace (Zpos pt * 2 ^ (53 - (digits (pt * pn) - digits pn))
             * (Zpos pn * 2 ^ (53 - digits pn)))
      with (Zpos pt * Zpos pn * (2 ^ (53 - (digits (pt * pn) - digits pn))
                                 * 2 ^ (53 - digits pn))) by ring.
    rewrite <- !Z.pow_add_r by lia. do 2 f_equal. lia. }
  rewrite Hq, div_eucl_exact by discriminate.
  assert (Hloc : forall m, SpecFloat.new_location m 0 = SpecFloat.loc_Exact).
  { intros m. unfold SpecFloat.new_location.
    destruct (Z.even m); reflexivity. }
  rewrite Hloc. cbn [xorb].
  apply binary_round_aux_exact; lia.
Qed.

End Exact.

(** ** The time window *)

Section TimeWindow.

Variable this : EMS.

Local Open Scope Z_scope.

(** C5.  With [currentMinutes] the minutes since midnight and
    [workStartMinutes] the configured start of work: a check-in passes
    the time-window check iff |currentMinutes - workStartMinutes| <= 120,
    the bounds included (exactly 120 minutes off passes, 121 fails); a
    check-out passes iff workStartMinutes <= currentMinutes <=
    workStartMinutes + 600. *)
Theorem verifyAttendanceTime_window :
  let now := now_verifyAttendanceTime (clock this) in
  let currentMinutes := getHours now * 60 + getMinutes now in
  let workStartMinutes := getWorkStartTime this in
  (tv_verified (verifyAttendanceTime this "check_in") = true <->
   Z.abs (currentMinutes - workStartMinutes) <= 120) /\
  (currentMinutes = workStartMinutes + 120 \/ currentMinutes = workStartMinutes - 120 ->
   tv_verified (verifyAttendanceTime this "check_in") = true) /\
  (currentMinutes = workStartMinutes + 121 \/ currentMinutes = workStartMinutes - 121 ->
   tv_verified (verifyAttendanceTime this "check_in") = false) /\
  (tv_verified (verifyAttendanceTime this "check_out") = true <->
   workStartMinutes <= currentMinutes <= workStartMinutes + 600).
Proof.
  intros now currentMinutes workStartMinutes.
  assert (Hin : tv_verified (verifyAttendanceTime this "check_in")
                = (Z.abs (currentMinutes - workStartMinutes) <=? 120)) by reflexivity.
  assert (Hout : tv_verified (verifyAttendanceTime this "check_out")
                 = ((currentMinutes >=? workStartMinutes) &&
                    (currentMinutes <=? workStartMinutes + 600))) by reflexivity.
  rewrite Hin, Hout. split; [|split; [|split]].
  - apply Z.leb_le.
  - intros Hedge. apply Z.leb_le. lia.
  - intros Hedge. apply Z.leb_gt. lia.
  - rewrite andb_true_iff, Z.geb_le, Z.leb_le. lia.
Qed.

End TimeWindow.

(** ** The spoofing checks *)

Section Spoofing.

Context {math : MathLib}.
Variable this : EMS.


(** C7.  The altitude check passes for an altitude between 800 and 2000,
    bounds included; it fails for any other non-zero altitude, in
    particular for 799 and 2001; and it passes when the location carries
    no altitude. *)
Theorem checkAltitudeAnomaly_range (location : Location) :
  (forall a, altitude location = Some a -> 800 <= a <= 2000 ->
             passed (checkAltitudeAnomaly location) = true) /\
  (forall a, altitude location = Some a -> ~ a == 0 -> a < 800 \/ 2000 < a ->
             passed (checkAltitudeAnomaly location) = false) /\
  (altitude location = JS.int 800 \/ altitude location = JS.int 2000 ->
   passed (checkAltitudeAnomaly location) = true) /\
  (altitude location = JS.int 799 \/ altitude location = JS.int 2001 ->
   passed (checkAltitudeAnomaly location) = false) /\
  (altitude location = None -> passed (checkAltitudeAnomaly location) = true).
Proof.
  unfold checkAltitudeAnomaly. repeat split.
  - intros a Ha [Hlo Hhi]. rewrite Ha. simpl.
    destruct (Qeq_bool a 0); simpl; [reflexivity|].
    apply andb_true_iff. split; apply Qle_bool_iff; unfold inject_Z; assumption.
  - intros a Ha Hnz Hout. rewrite Ha. simpl.
    destruct (Qeq_bool a 0) eqn:E; [apply Qeq_bool_iff in E; contradiction|].
    simpl. apply andb_false_iff.
    destruct Hout as [Hlo|Hhi]; [left|right];
      (destruct (Qle_bool _ _) eqn:E';
         [apply Qle_bool_iff in E'; unfold inject_Z in E'; lra|reflexivity]).
  - intros [Ha|Ha]; rewrite Ha; reflexivity.
  - intros [Ha|Ha]; rewrite Ha; reflexivity.
  - intros Ha. now rewrite Ha.
Qed.

End Spoofing.

(** ** The pattern check *)

Section Pattern.

Context {math : MathLib}.
Variable this : EMS.

(** The times that the code collects are the minute-of-day values of the
    check-in records, as doubles. *)
Lemma checkInTimesOf_spec (userAttendance : list AttendanceRecord) :
  checkInTimesOf userAttendance = map F64.of_Z (spec_checkInMinutes userAttendance).
Proof.
  unfold checkInTimesOf.
  induction userAttendance as [|a rest IH]; [reflexivity|].
  cbn [filter spec_checkInMinutes].
  destruct (ar_timestamp a) as [date|] eqn:Hdate.
  - destruct (ar_type a =? "check_in")%string; cbn [andb map].
    + now rewrite Hdate, IH.
    + exact IH.
  - rewrite andb_false_r. exact IH.
Qed.

(** [calculateStandardDeviation] is the population standard deviation. *)
Lemma calculateStandardDeviation_spec (numbers : list F64.double) :
  calculateStandardDeviation numbers = spec_populationStdDev numbers.
Proof.
  unfold calculateStandardDeviation, spec_populationStdDev, spec_mean, F64.length.
  now rewrite length_map.
Qed.

(** The sum of a constant sample of integers is exact. *)
Lemma sum_repeat_of_Z (t : Z) (n : nat) :
  (0 <= t)%Z -> (t * Z.of_nat n < 2 ^ 53)%Z ->
  F64.sum (repeat (F64.of_Z t) n) = F64.of_Z (t * Z.of_nat n).
Proof.
  intros Ht Hn. unfold F64.sum. change F64.zero with (F64.of_Z 0).
  assert (H : forall acc, (0 <= acc)%Z -> (acc + t * Z.of_nat n < 2 ^ 53)%Z ->
                fold_left F64.add (repeat (F64.of_Z t) n) (F64.of_Z acc)
                = F64.of_Z (acc + t * Z.of_nat n)).
  { clear Hn. induction n as [|n IH]; intros acc Hacc Hn.
    - cbn [repeat fold_left]. f_equal. lia.
    - cbn [repeat fold_left].
      rewrite add_of_Z by nia. rewrite IH by nia. f_equal. lia. }
  now apply H.
Qed.

Lemma sum_repeat_zero (n : nat) : F64.sum (repeat F64.zero n) = F64.zero.
Proof.
  unfold F64.sum. induction n as [|n IH]; [reflexivity|exact IH].
Qed.

(** The standard deviation of a constant sample is 0, given that
    [Math.pow(0, 2)] and [Math.sqrt(0)] are 0, as the language says. *)
Lemma calculateStandardDeviation_repeat (t : Z) (n : nat) :
  Math_pow_double F64.zero 2 = F64.zero ->
  Math_sqrt_double F64.zero = F64.zero ->
  (0 <= t)%Z -> (Z.of_nat (S n) < 2 ^ 53)%Z -> (t * Z.of_nat (S n) < 2 ^ 53)%Z ->
  calculateStandardDeviation (repeat (F64.of_Z t) (S n)) = F64.zero /\
  (F64.sum (repeat (F64.of_Z t) (S n)) / F64.length (repeat (F64.of_Z t) (S n)))%f64
  = F64.of_Z t.
Proof.
  intros Hpow Hsqrt Ht Hn Htn.
  assert (Hmean : (F64.sum (repeat (F64.of_Z t) (S n))
                   / F64.length (repeat (F64.of_Z t) (S n)))%f64 = F64.of_Z t).
  { unfold F64.length. rewrite repeat_length, sum_repeat_of_Z by assumption.
    apply div_of_Z; lia. }
  split; [|exact Hmean].
  unfold calculateStandardDeviation. rewrite Hmean, map_repeat.
  rewrite sub_of_Z by nia. rewrite Z.sub_diag.
  change (F64.of_Z 0) with F64.zero. rewrite Hpow, sum_repeat_zero.
  unfold F64.length. rewrite repeat_length.
  change F64.zero with (F64.of_Z (0 * Z.of_nat (S n))) at 1.
  rewrite div_of_Z by lia. exact Hsqrt.
Qed.

(** A non-zero integer is not within 0 of 0. *)
Lemma leb_abs_of_Z_zero (d : Z) :
  (Z.abs d < 2 ^ 53)%Z ->
  (F64.Math_abs (F64.of_Z d) <=? F64.zero)%f64 = (d =? 0)%Z.
Proof.
  intros Hd. rewrite (of_Z_canonical d Hd). now destruct d.
Qed.

(** C8 (as amended).  The pattern check takes the minute-of-day values of
    the check-in records that the history provider returns for the last
    30 days and passes iff |currentMinutes - mean| <= 2 * stddev, the
    bound included, where the mean, the population standard deviation,
    the difference and the product are each computed in double
    precision.  With a history of identical check-in times (of the day)
    it passes exactly when the current time is that time: a current time
    one minute off fails.  With no (check-in) history the check passes. *)
Theorem verifyAttendancePattern_two_sigma
    (type : string) (id : Z) (userAttendance : list AttendanceRecord) :
  currentUser this = Some id ->
  attendance_getUserAttendance this id 30 = Ok userAttendance ->
  let checkInMinutes := spec_checkInMinutes userAttendance in
  let checkInTimes := map F64.of_Z checkInMinutes in
  let now := now_verifyAttendancePattern (clock this) in
  let currentMinutes := (getHours now * 60 + getMinutes now)%Z in
  exists p, verifyAttendancePattern this type = Ok p /\
    (checkInMinutes = [] -> pv_verified p = true) /\
    (checkInMinutes <> [] ->
     pv_verified p
     = (F64.Math_abs (F64.of_Z currentMinutes - spec_mean checkInTimes)
        <=? spec_populationStdDev checkInTimes * F64.of_Z 2)%f64) /\
    (forall (t : Z) (n : nat),
        Math_pow_double F64.zero 2 = F64.zero ->
        Math_sqrt_double F64.zero = F64.zero ->
        checkInMinutes = repeat t (S n) ->
        (0 <= t < 1440)%Z -> (0 <= currentMinutes < 1440)%Z ->
        (Z.of_nat (S n) < 2 ^ 32)%Z ->
        (pv_verified p = true <-> currentMinutes = t) /\
        (currentMinutes = (t + 1)%Z \/ currentMinutes = (t - 1)%Z ->
         pv_verified p = false)).
Proof.
  intros Hid Hhist checkInMinutes checkInTimes now currentMinutes.
  unfold verifyAttendancePattern. rewrite Hid, Hhist.
  rewrite checkInTimesOf_spec. fold checkInMinutes. fold checkInTimes.
  destruct userAttendance as [|a rest].
  { eexists. split; [reflexivity|]. cbn [pv_verified].
    split; [reflexivity|]. split; [intros Hne; now contradiction Hne|].
    intros t n _ _ Hrepeat. discriminate Hrepeat. }
  change (List.length (a :: rest) =? 0)%nat with false. cbv iota.
  fold now. fold currentMinutes.
  destruct checkInMinutes as [|x xs] eqn:Eminutes.
  { eexists. split; [reflexivity|]. cbn [pv_verified].
    split; [reflexivity|]. split; [intros Hne; now contradiction Hne|].
    intros t n _ _ Hrepeat. discriminate Hrepeat. }
  assert (Hlen : (List.length checkInTimes =? 0)%nat = false) by reflexivity.
  rewrite Hlen. cbv iota.
  eexists. split; [reflexivity|]. cbn [pv_verified].
  split; [discriminate|]. split.
  - intros _. now rewrite calculateStandardDeviation_spec.
  - intros t n Hpow Hsqrt Hrepeat Ht Hnow Hn.
    assert (Hiff : (F64.Math_abs
                      (F64.of_Z currentMinutes
                       - F64.sum checkInTimes / F64.length checkInTimes)
                    <=? calculateStandardDeviation checkInTimes * F64.of_Z 2)%f64
                   = (currentMinutes - t =? 0)%Z).
    { unfold checkInTimes. rewrite Hrepeat, map_repeat.
      destruct (calculateStandardDeviation_repeat t n Hpow Hsqrt) as [Hdev Hmean];
        [lia|lia|nia|].
      rewrite Hdev, Hmean, sub_of_Z by lia.
      change (F64.zero * F64.of_Z 2)%f64 with F64.zero.
      apply leb_abs_of_Z_zero. lia. }
    rewrite Hiff. split.
    + rewrite Z.eqb_eq. lia.
    + intros Hoff. apply Z.eqb_neq. lia.
Qed.

End Pattern.

(** ** Runs on concrete inputs *)

#[local] Existing Instance rationalMath.

Import Examples.

(** 100 m and 111 km from the office, as [calculateDistance] sees them. *)
Lemma nearOffice_distance :
  exists d, calculateDistance (deg 357 10) (deg 514 10)
                              (latitude nearOffice) (longitude nearOffice) = Some d /\
            100 <= d <= 101.
Proof.
  eexists. split; [vm_compute; reflexivity|].
  split; vm_compute; discriminate.
Qed.

Lemma farAway_distance :
  exists d, calculateDistance (deg 357 10) (deg 514 10)
                              (latitude farAway) (longitude farAway) = Some d /\
            111000 <= d <= 112000.
Proof.
  eexists. split; [vm_compute; reflexivity|].
  split; vm_compute; discriminate.
Qed.

(** What the code does when the GPS step accepts and the time-window check
    fails: at 23:00 the check-in window is missed by hours, the [if] that
    guards the conjunction skips it, and the verdict stays verified with
    method "gps" and level "high". *)
Lemma inRangeAtNight_run :
  timeWindowPassed inRangeAtNight "check_in" = false /\
  exists v, verifyAttendance inRangeAtNight "check_in" = Ok v /\
            verified v = true /\ method v = "gps" /\
            md_verificationLevel (metadata v) = Some "high" /\
            md_time (metadata v) = None.
Proof.
  split; [reflexivity|]. eexists. split; [vm_compute; reflexivity|].
  repeat split.
Qed.

(** The same for the pattern check: with three check-ins at 08:00 sharp
    and the clock at 08:01 the pattern check fails and the verdict stays
    verified with method "gps". *)
Lemma punctual_late_run :
  patternPassed (punctual (at_ 8 1)) "check_in" = false /\
  exists v, verifyAttendance (punctual (at_ 8 1)) "check_in" = Ok v /\
            verified v = true /\ method v = "gps".
Proof.
  split; [vm_compute; reflexivity|]. eexists. split; [vm_compute; reflexivity|].
  repeat split.
Qed.





(** C3, as stated, fails: every condition of the claim holds, but GPS
    verification is switched off in the configuration, the GPS step is
    skipped and the verdict is the (declined) manual one. *)
Lemma accepted_only_when_enabled :
  exists d v,
    getCurrentLocation (gpsTracker gpsSwitchedOff) = Ok (Some nearOffice) /\
    JS.truthy (latitude nearOffice) = true /\
    JS.truthy (longitude nearOffice) = true /\
    calculateDistance (fst (officeLocation (gpsTracker gpsSwitchedOff)))
                      (snd (officeLocation (gpsTracker gpsSwitchedOff)))
                      (latitude nearOffice) (longitude nearOffice) = Some d /\
    d <= 500 /\
    passed (checkLocationConsistency gpsSwitchedOff nearOffice) = true /\
    passed (checkSpeedAnomaly gpsSwitchedOff nearOffice) = true /\
    passed (checkAltitudeAnomaly nearOffice) = true /\
    timeWindowPassed gpsSwitchedOff "check_in" = true /\
    attendance_getUserAttendance gpsSwitchedOff 7 30 = Ok [] /\
    verifyAttendance gpsSwitchedOff "check_in" = Ok v /\
    verified v = false /\ method v = "manual".
Proof.
  eexists. eexists.
  repeat (split; [vm_compute; first [reflexivity | discriminate]|]).
  reflexivity.
Qed.

Lemma verifyAttendance_accepts_witness :
  exists v, verifyAttendance inRangeOnTime "check_in" = Ok v /\
            verified v = true /\ method v = "gps".
Proof.
  eapply (@verifyAttendance_accepts rationalMath inRangeOnTime
            "check_in" nearOffice _ 500 7).
  all: try (vm_compute; reflexivity).
  vm_compute. discriminate.
Defined.

(** C4, as stated, fails: the location provider throws, the flow falls
    back to the manual confirmation, the dialog cannot be shown, and the
    error of the dialog reaches the caller from the [catch] block. *)
Lemma verifyAttendance_dialog_error_escapes :
  getCurrentLocation (gpsTracker (withoutDialog noFix)) = Throw "timeout" /\
  verifyAttendance (withoutDialog noFix) "check_in" = Throw "TypeError".
Proof.
  split; [reflexivity|]. vm_compute. reflexivity.
Qed.

Lemma verifyAttendance_never_throws_witness :
  exists v, verifyAttendance noFix "check_in" = Ok v /\
            verified v = true /\
            (method v = "manual" \/ method v = "manual_fallback").
Proof.
  destruct (proj1 (@verifyAttendance_never_throws rationalMath noFix "check_in")
              eq_refl)
    as (v & Hv & Hfix & _).
  exists v. split; [exact Hv|].
  destruct Hfix as (_ & Hverified & Hmethod); [now exists "timeout"|].
  split; [exact Hverified|exact Hmethod].
Defined.

Lemma verifyAttendanceTime_window_witness :
  tv_verified (verifyAttendanceTime inRangeOnTime "check_in") = true /\
  tv_verified (verifyAttendanceTime inRangeAtNight "check_in") = false.
Proof.
  split.
  - apply (proj1 (verifyAttendanceTime_window inRangeOnTime)).
    vm_compute. discriminate.
  - destruct (tv_verified (verifyAttendanceTime inRangeAtNight "check_in")) eqn:E;
      [|reflexivity].
    apply (proj1 (verifyAttendanceTime_window inRangeAtNight)) in E.
    vm_compute in E. now contradiction E.
Defined.


Lemma checkAltitudeAnomaly_range_witness :
  passed (checkAltitudeAnomaly nearOffice) = true /\
  passed (checkAltitudeAnomaly onEquator) = true.
Proof.
  split.
  - apply (proj1 (checkAltitudeAnomaly_range nearOffice) 1200).
    + reflexivity.
    + split; vm_compute; discriminate.
  - apply (proj2 (proj2 (proj2 (proj2 (checkAltitudeAnomaly_range onEquator))))).
    reflexivity.
Defined.

(** C8, as stated, fails.  With four check-ins at 08:00 and one at 08:01
    the mean is 480.2 and the standard deviation 0.4 minutes, so that
    08:01 lies exactly two standard deviations from the mean and the
    bound is included; the code, in doubles, finds a deviation of
    0.8000000000000114 against twice the standard deviation, 0.8, and
    rejects.  The two differ by a hundred units in the last place, far
    more than the rounding of [Math.pow] and [Math.sqrt] can make up
    for. *)
Lemma two_sigma_boundary_rejected :
  spec_checkInMinutes [checkIn 8 0; checkIn 8 0; checkIn 8 0; checkIn 8 0; checkIn 8 1]
  = [480; 480; 480; 480; 481]%Z /\
  exact_mean [480; 480; 480; 480; 481]%Z == 2401 # 5 /\
  exact_variance [480; 480; 480; 480; 481]%Z == (2 # 5) * (2 # 5) /\
  Qabs (inject_Z 481 - exact_mean [480; 480; 480; 480; 481]%Z) <= 2 * (2 # 5) /\
  exists p, verifyAttendancePattern (almostPunctual (at_ 8 1)) "check_in" = Ok p /\
            pv_verified p = false.
Proof.
  split; [reflexivity|]. split; [reflexivity|]. split; [reflexivity|].
  split; [vm_compute; discriminate|].
  eexists. split; [vm_compute; reflexivity|]. reflexivity.
Qed.

Lemma verifyAttendancePattern_two_sigma_witness :
  (exists p, verifyAttendancePattern (punctual (at_ 8 0)) "check_in" = Ok p /\
             pv_verified p = true) /\
  (exists p, verifyAttendancePattern (punctual (at_ 8 1)) "check_in" = Ok p /\
             pv_verified p = false).
Proof.
  split.
  - destruct (@verifyAttendancePattern_two_sigma rationalMath (punctual (at_ 8 0))
                "check_in" 7 [checkIn 8 0; checkIn 8 0; checkIn 8 0]
                eq_refl eq_refl) as (p & Hp & _ & _ & Hsame).
    exists p. split; [exact Hp|].
    destruct (Hsame 480%Z 2%nat eq_refl eq_refl eq_refl) as [Hiff _];
      [lia|cbn; lia|vm_compute; reflexivity|].
    apply Hiff. reflexivity.
  - destruct (@verifyAttendancePattern_two_sigma rationalMath (punctual (at_ 8 1))
                "check_in" 7 [checkIn 8 0; checkIn 8 0; checkIn 8 0]
                eq_refl eq_refl) as (p & Hp & _ & _ & Hsame).
    exists p. split; [exact Hp|].
    destruct (Hsame 480%Z 2%nat eq_refl eq_refl eq_refl) as [_ Hoff];
      [lia|cbn; lia|vm_compute; reflexivity|].
    apply Hoff. left. reflexivity.
Defined.

Lemma verifyAttendance_gps_only_if_witness :
  gpsRangePassed inRangeOnTime = true /\ spoofingChecksPassed inRangeOnTime = true.
Proof.
  destruct (@verifyAttendance_gps_only_if rationalMath inRangeOnTime "check_in")
    as (Hreturns & Hverdict).
  destruct (Hreturns eq_refl) as (v & Hv).
  apply (proj1 (Hverdict v Hv)).
  vm_compute in Hv. injection Hv as <-. reflexivity.
Defined.

Lemma verifyGPSLocation_zero_coordinate_witness :
  verifyGPSLocation equatorial =
    Ok {| gv_verified := false; gv_reason := Some "موقعیت نامعتبر";
          gv_location := None; gv_metadata := None |}.
Proof.
  apply (@verifyGPSLocation_zero_coordinate rationalMath equatorial onEquator).
  - reflexivity.
  - left. exists 0. split; reflexivity.
Defined.

Lemma verifyAttendance_gps_decides_witness :
  timeWindowPassed inRangeAtNight "check_in" = false /\
  exists v, verifyAttendance inRangeAtNight "check_in" = Ok v /\
            verified v = true /\ method v = "gps" /\
            md_verificationLevel (metadata v) = Some "high".
Proof.
  split; [reflexivity|].
  apply (@verifyAttendance_gps_decides rationalMath inRangeAtNight "check_in").
  - eexists. vm_compute. reflexivity.
  - vm_compute. reflexivity.
Defined.

(** ** Permissions *)

Lemma prefix_refl (s : string) : String.prefix s s = true.
Proof.
  induction s as [|c s IH]; [reflexivity|].
  simpl. destruct (Ascii.ascii_dec c c); [exact IH|congruence].
Qed.

Lemma prefix_nil (t : string) : String.prefix EmptyString t = true.
Proof. now destruct t. Qed.

Lemma prefix_app (s t : string) : String.prefix s (s ++ t) = true.
Proof.
  induction s as [|c s IH]; [apply prefix_nil|].
  simpl. destruct (Ascii.ascii_dec c c); [exact IH|congruence].
Qed.

Lemma prefix_trans (r s t : string) :
  String.prefix r s = true -> String.prefix s t = true -> String.prefix r t = true.
Proof.
  revert s t. induction r as [|a r IH]; intros s t Hrs Hst; [apply prefix_nil|].
  destruct s as [|b s]; [discriminate|]. destruct t as [|c t]; [discriminate|].
  simpl in *. destruct (Ascii.ascii_dec a b); [|discriminate].
  destruct (Ascii.ascii_dec b c); [|discriminate]. subst.
  destruct (Ascii.ascii_dec c c); [|congruence]. eauto.
Qed.

(** The text before the separator is a prefix of the whole text. *)
Lemma beforeSeparator_prefix (sep s : string) :
  String.prefix (beforeSeparator sep s) s = true.
Proof.
  induction s as [|c s IH]; cbn [beforeSeparator].
  - now destruct (String.prefix sep EmptyString).
  - destruct (String.prefix sep (String c s)); [reflexivity|].
    simpl. destruct (Ascii.ascii_dec c c); [exact IH|congruence].
Qed.

Lemma existsb_eqb_In (x : string) (l : list string) :
  existsb (String.eqb x) l = true <-> In x l.
Proof.
  rewrite existsb_exists. split.
  - intros (y & Hy & Heq). apply String.eqb_eq in Heq. now subst.
  - intros Hx. exists x. split; [exact Hx|apply String.eqb_refl].
Qed.

(** X2.  [hasPermission] grants a permission exactly when the set of the
    user's permissions is present and not empty and either contains "*" or
    contains an entry whose text before its first ".*" is a prefix of the
    requested permission.  The exact-match test adds nothing to that, and
    the match is by prefix of characters, not by dotted segment. *)
Theorem hasPermission_iff (userPermissions : option (list string)) (permission : string) :
  hasPermission userPermissions permission = true <->
  exists permissions,
    userPermissions = Some permissions /\ permissions <> [] /\
    (In "*" permissions \/
     exists p, In p permissions /\
               String.prefix (beforeSeparator ".*" p) permission = true).
Proof.
  unfold hasPermission. destruct userPermissions as [permissions|].
  2:{ split; [discriminate|]. intros (l & Hl & _). discriminate. }
  destruct permissions as [|q rest].
  { split; [discriminate|]. intros (l & Hl & Hne & _). injection Hl as <-. congruence. }
  cbn [List.length Nat.eqb].
  rewrite !orb_true_iff, !existsb_eqb_In, existsb_exists. split.
  - intros H. exists (q :: rest). split; [reflexivity|]. split; [discriminate|].
    destruct H as [[Hexact|Hstar]|Hsome]; [right|left|right]; auto.
    exists permission. split; [exact Hexact|].
    eapply prefix_trans; [apply beforeSeparator_prefix|apply prefix_refl].
  - intros (l & Hl & _ & H). injection Hl as <-.
    destruct H as [Hstar|Hsome]; auto.
Qed.

(** X3.  Permissions only add up: whatever a set of permissions grants is
    also granted by every set that contains it. *)
Theorem hasPermission_monotone (permissions more : list string) (permission : string) :
  incl permissions more ->
  hasPermission (Some permissions) permission = true ->
  hasPermission (Some more) permission = true.
Proof.
  intros Hincl Hgranted.
  apply hasPermission_iff in Hgranted as (l & Hl & Hne & H). injection Hl as <-.
  apply hasPermission_iff. exists more. split; [reflexivity|]. split.
  - destruct permissions as [|p rest]; [congruence|].
    intros ->. exact (Hincl p (or_introl eq_refl)).
  - destruct H as [Hstar|(p & Hp & Hpre)]; [left; auto|right; exists p; auto].
Qed.

Lemma hasPermission_iff_witness :
  hasPermission (Some ["tasks.*"; "attendance.record"]) "tasks.create" = true /\
  hasPermission (Some ["tasks.*"; "attendance.record"]) "tasksadmin" = true /\
  hasPermission (Some ["tasks.*"; "attendance.record"]) "reports.generate" = false.
Proof.
  split; [|split].
  - apply hasPermission_iff. eexists. split; [reflexivity|]. split; [discriminate|].
    right. exists "tasks.*". split; [now left|reflexivity].
  - apply hasPermission_iff. eexists. split; [reflexivity|]. split; [discriminate|].
    right. exists "tasks.*". split; [now left|reflexivity].
  - reflexivity.
Defined.

Lemma hasPermission_monotone_witness :
  hasPermission (Some ["reports.view"; "attendance.record"]) "attendance.record" = true.
Proof.
  apply (hasPermission_monotone ["attendance.record"]).
  - intros p [<-|[]]. right. now left.
  - reflexivity.
Defined.

(** ** Recording an attendance *)

Section RecordingFacts.

Context {math : MathLib}.
Variable app : App.

(** The verdicts of [verifyAttendance] by method: the level that goes with
    each, and where a location can come from. *)
Lemma verifyAttendance_verdict (type : string) (v : Verification) :
  verifyAttendance (core app) type = Ok v ->
  ((method v = "gps" /\ md_verificationLevel (metadata v) = Some "high") \/
   (method v = "manual" /\ md_verificationLevel (metadata v) = Some "low") \/
   (method v = "manual_fallback" /\ md_verificationLevel (metadata v) = None)) /\
  (location v <> None -> gpsAccepted (core app) = true).
Proof.
  intros Hv. pose proof (verifyAttendance_run (core app) type) as Hrun.
  destruct (verifyAttendancePattern (core app) type);
    [destruct (gpsAccepted (core app)) eqn:Hgps|];
    destruct (modals_show (core app) 0%nat) as [[]|e0];
    try destruct (modals_show (core app) 1%nat) as [[]|e1];
    try (rewrite Hv in Hrun; discriminate Hrun);
    destruct Hrun as (v' & Hv' & Hrun); rewrite Hv in Hv';
    injection Hv' as <-; intuition congruence.
Qed.

(** A record does not get among the effects on the paths that end before
    the attendance store is reached. *)
Ltac no_record_stored :=
  cbn [snd]; repeat rewrite in_app_iff; cbn [In];
  intros Hin; left;
  repeat match goal with
         | H : _ \/ _ |- _ => destruct H
         | H : False |- _ => contradiction
         | H : _ = attendance_record _ |- _ => try discriminate H
         end; auto.

(** The effects of one call, by cases. *)
Ltac run_recordAttendance :=
  unfold recordAttendance, try_catchM, recordAttendance_try, recordAttendance_catch,
    updateAttendanceTable, try_catchM, bind, await, emit, modify, throw, ret.

(** X4.  [recordAttendance] hands a record to the attendance store only for
    an authenticated user who holds the permission "attendance.record" and
    whose verification came back verified; the record is the one
    [createAttendanceRecord] builds from that verdict. *)
Theorem recordAttendance_records_only_verified
    (type : string) (trace : list Effect) (record : NewAttendanceRecord) :
  In (attendance_record record) (snd (recordAttendance app type trace)) ->
  In (attendance_record record) trace \/
  exists id v,
    currentUser (core app) = Some id /\
    hasPermission (userPermissions app) "attendance.record" = true /\
    verifyAttendance (core app) type = Ok v /\
    verified v = true /\
    createAttendanceRecord app type v = Ok record.
Proof.
  run_recordAttendance. unfold createAttendanceRecord.
  destruct (currentUser (core app)) as [id|] eqn:Hid; cbn [negb];
    [destruct (hasPermission (userPermissions app) "attendance.record") eqn:Hperm;
     cbn [negb];
     [destruct (verifyAttendance (core app) type) as [v|rejection] eqn:Hv;
      [destruct (verified v) eqn:Hverified; cbn [negb]|]|]|].
  - set (record' := {| nr_id := generateId app |}).
    intros Hin.
    assert (Hrec : In (attendance_record record) trace \/ record = record').
    { destruct (attendance_record_outcome app record') as [saved|e];
        [destruct (ui_updateAttendanceStatus_outcome app);
         [destruct (attendance_getUserAttendance (core app) id 30);
          [destruct (tableRenderer_outcome app)|];
          destruct (notifications_send_outcome app)|]|];
        cbn [snd] in Hin; repeat rewrite in_app_iff in Hin; cbn [In] in Hin;
        repeat match goal with
               | H : _ \/ _ |- _ => destruct H
               | H : False |- _ => contradiction
               | H : attendance_record _ = attendance_record _ |- _ =>
                   injection H as <-
               | H : _ = attendance_record _ |- _ => try discriminate H
               end; auto. }
    destruct Hrec as [Hold| ->]; [now left|]. right. exists id, v. auto.
  - no_record_stored.
  - no_record_stored.
  - no_record_stored.
  - no_record_stored.
Qed.

(** X5.  Whatever happens, the last thing [recordAttendance] does is to
    hide the loading state; when it rejects, it has shown the message of
    the error as an "error" notification and rejects with that same error;
    when it resolves, the attendance store accepted the record it returns
    and the success notification was shown. *)
Theorem recordAttendance_finally (type : string) (trace : list Effect) :
  exists effects,
    snd (recordAttendance app type trace) = (trace ++ effects ++ [ui_hideLoading])%list /\
    (forall error,
        fst (recordAttendance app type trace) = Throw error ->
        In (notifications_show error "error") effects) /\
    (forall savedRecord,
        fst (recordAttendance app type trace) = Ok savedRecord ->
        (exists record, In (attendance_record record) effects /\
                        attendance_record_outcome app record = Ok savedRecord) /\
        In (notifications_show
              ((if (type =? "check_in")%string then "ورود" else "خروج") ++
               " با موفقیت ثبت شد") "success") effects).
Proof.
  run_recordAttendance. unfold createAttendanceRecord.
  destruct (currentUser (core app)) as [id|] eqn:Hid; cbn [negb];
    [destruct (hasPermission (userPermissions app) "attendance.record") eqn:Hperm;
     cbn [negb];
     [destruct (verifyAttendance (core app) type) as [v|rejection];
      [destruct (verified v) eqn:Hverified; cbn [negb];
       [set (record' := {| nr_id := generateId app |});
        destruct (attendance_record_outcome app record') as [saved|e] eqn:Hsaved;
        [destruct (ui_updateAttendanceStatus_outcome app);
         [destruct (attendance_getUserAttendance (core app) id 30);
          [destruct (tableRenderer_outcome app)|];
          destruct (notifications_send_outcome app)|]|]|]|]|]|];
    cbn [fst snd]; repeat rewrite <- List.app_assoc; cbn [List.app];
    lazymatch goal with
    | |- exists effects, (trace ++ ?l)%list = _ /\ _ => exists (removelast l)
    end;
    (split; [reflexivity|]); cbn [removelast]; split;
    try (intros ? [=]; subst); try (intros ? H; discriminate H);
    cbn [In]; try tauto;
    (split; [exists record'; split; [|exact Hsaved]|]); cbn [In]; tauto.
Qed.

(** X6.  Storing the record and refreshing the display are not atomic: when
    the attendance store accepts the record and the status display then
    rejects, [recordAttendance] rejects with that error although the
    record has been stored. *)
Theorem recordAttendance_stored_then_rejected
    (type : string) (trace : list Effect) (id : Z) (v : Verification)
    (record savedRecord : NewAttendanceRecord) (error : string) :
  currentUser (core app) = Some id ->
  hasPermission (userPermissions app) "attendance.record" = true ->
  verifyAttendance (core app) type = Ok v ->
  verified v = true ->
  createAttendanceRecord app type v = Ok record ->
  attendance_record_outcome app record = Ok savedRecord ->
  ui_updateAttendanceStatus_outcome app = Throw error ->
  fst (recordAttendance app type trace) = Throw error /\
  In (attendance_record record) (snd (recordAttendance app type trace)) /\
  In (notifications_show error "error") (snd (recordAttendance app type trace)).
Proof.
  intros Hid Hperm Hv Hverified Hrecord Hsaved Hui.
  run_recordAttendance.
  rewrite Hid, Hperm, Hv, Hverified, Hrecord, Hsaved, Hui. cbn [negb fst snd].
  split; [reflexivity|]. repeat rewrite in_app_iff. cbn [In]. tauto.
Qed.

(** X7.  The level written into an attendance record follows the method of
    the verdict: "high" with method "gps", "low" with "manual", and
    "unknown" with "manual_fallback", for which the verdict carries no
    level.  A record carries a location only if the GPS step accepted the
    location. *)
Theorem createAttendanceRecord_level
    (type : string) (v : Verification) (record : NewAttendanceRecord) :
  verifyAttendance (core app) type = Ok v ->
  createAttendanceRecord app type v = Ok record ->
  ((rv_method (nr_verification record) = "gps" /\
    rv_level (nr_verification record) = "high") \/
   (rv_method (nr_verification record) = "manual" /\
    rv_level (nr_verification record) = "low") \/
   (rv_method (nr_verification record) = "manual_fallback" /\
    rv_level (nr_verification record) = "unknown")) /\
  (nr_location record <> None -> gpsAccepted (core app) = true).
Proof.
  intros Hv Hrecord.
  destruct (verifyAttendance_verdict type v Hv) as (Hlevel & Hloc).
  unfold createAttendanceRecord in Hrecord.
  destruct (currentUser (core app)); [|discriminate].
  injection Hrecord as <-. cbn [nr_verification rv_method rv_level nr_location].
  split.
  - destruct Hlevel as [(-> & ->)|[(-> & ->)|(-> & ->)]]; tauto.
  - intros Hsome. apply Hloc. now destruct (location v).
Qed.

End RecordingFacts.

Lemma recordAttendance_records_only_verified_witness :
  exists v record,
    verifyAttendance (core (Sessions.employee Examples.inRangeOnTime)) "check_in" = Ok v /\
    verified v = true /\
    createAttendanceRecord (Sessions.employee Examples.inRangeOnTime) "check_in" v
      = Ok record.
Proof.
  edestruct (@recordAttendance_records_only_verified rationalMath
               (Sessions.employee Examples.inRangeOnTime) "check_in" [])
    as [[]|(id & v & _ & _ & Hv & Hverified & Hrecord)].
  - vm_compute. right. left. reflexivity.
  - exists v. eexists. split; [exact Hv|]. split; [exact Hverified|exact Hrecord].
Defined.

Lemma recordAttendance_stored_then_rejected_witness :
  fst (recordAttendance (Sessions.brokenDisplay Examples.inRangeOnTime) "check_in" [])
    = Throw "display" /\
  exists record,
    In (attendance_record record)
       (snd (recordAttendance (Sessions.brokenDisplay Examples.inRangeOnTime)
               "check_in" [])).
Proof.
  edestruct (@recordAttendance_stored_then_rejected rationalMath
               (Sessions.brokenDisplay Examples.inRangeOnTime) "check_in" [] 7)
    as (Hthrow & Hstored & _).
  - reflexivity.
  - reflexivity.
  - vm_compute. reflexivity.
  - reflexivity.
  - reflexivity.
  - reflexivity.
  - reflexivity.
  - split; [exact Hthrow|]. eexists. exact Hstored.
Defined.

Lemma createAttendanceRecord_level_witness :
  exists v record,
    verifyAttendance (core (Sessions.employee Examples.noHistoryService)) "check_in"
      = Ok v /\
    createAttendanceRecord (Sessions.employee Examples.noHistoryService) "check_in" v
      = Ok record /\
    rv_method (nr_verification record) = "manual_fallback" /\
    rv_level (nr_verification record) = "unknown" /\
    nr_location record <> None /\
    gpsAccepted (core (Sessions.employee Examples.noHistoryService)) = true.
Proof.
  eexists. eexists.
  split; [vm_compute; reflexivity|]. split; [reflexivity|].
  split; [reflexivity|].
  edestruct (@createAttendanceRecord_level rationalMath
               (Sessions.employee Examples.noHistoryService) "check_in")
    as (Hlevel & Hlocation).
  - vm_compute. reflexivity.
  - reflexivity.
  - split; [|split; [discriminate|]].
    + destruct Hlevel as [(Hm & _)|[(Hm & _)|(_ & Hl)]];
        [discriminate Hm|discriminate Hm|exact Hl].
    + apply Hlocation. discriminate.
Defined.

(** ** Forms *)

(** X8.  For two times of day, the duration shown for an hourly leave is
    the time from the start to the next occurrence of the end: between 0
    and 23 hours with 0 to 59 minutes, and the start time plus the
    duration is the end time modulo 24 hours.  Equal times give a duration
    of 0 minutes, not of 24 hours. *)
Theorem hourlyDuration_wall_clock (startHour startMinute endHour endMinute : Z) :
  (0 <= startHour < 24)%Z -> (0 <= startMinute < 60)%Z ->
  (0 <= endHour < 24)%Z -> (0 <= endMinute < 60)%Z ->
  let '(hours, minutes) := hourlyDuration (startHour, startMinute) (endHour, endMinute) in
  (0 <= hours < 24)%Z /\ (0 <= minutes < 60)%Z /\
  ((startHour * 60 + startMinute + (hours * 60 + minutes)) mod 1440
   = endHour * 60 + endMinute)%Z /\
  calculateHourlyDuration (Some (startHour, startMinute)) (Some (endHour, endMinute)) true
  = Some (durationText hours minutes) /\
  ((startHour, startMinute) = (endHour, endMinute) ->
   (hours, minutes) = (0, 0)%Z /\ durationText hours minutes = "0 دقیقه").
Proof.
  intros Hsh Hsm Heh Hem.
  unfold calculateHourlyDuration, hourlyDuration.
  set (total := ((endHour * 60 + endMinute) - (startHour * 60 + startMinute))%Z).
  set (t := if (total <? 0)%Z then (total + 24 * 60)%Z else total).
  assert (Ht : (0 <= t < 1440)%Z /\ (t = total \/ t = total + 1440)%Z).
  { unfold t. destruct (Z.ltb_spec total 0); unfold total in *; lia. }
  destruct Ht as [Hrange Hcases].
  assert (Hrem : Z.rem t 60 = (t mod 60)%Z) by (apply Z.rem_mod_nonneg; lia).
  rewrite Hrem.
  pose proof (Z.div_mod t 60 ltac:(lia)) as Hdm.
  pose proof (Z.mod_pos_bound t 60 ltac:(lia)) as Hmod.
  assert (Hdiv : (0 <= t / 60 < 24)%Z).
  { split; [apply Z.div_pos; lia|apply Z.div_lt_upper_bound; lia]. }
  split; [exact Hdiv|]. split; [exact Hmod|]. split; [|split; [reflexivity|]].
  - replace (startHour * 60 + startMinute + (t / 60 * 60 + t mod 60))%Z
      with (startHour * 60 + startMinute + t)%Z by lia.
    destruct Hcases as [-> | ->]; unfold total.
    + replace (startHour * 60 + startMinute +
               (endHour * 60 + endMinute - (startHour * 60 + startMinute)))%Z
        with (endHour * 60 + endMinute)%Z by lia.
      apply Z.mod_small. lia.
    + replace (startHour * 60 + startMinute +
               (endHour * 60 + endMinute - (startHour * 60 + startMinute) + 1440))%Z
        with (endHour * 60 + endMinute + 1 * 1440)%Z by lia.
      rewrite Z.mod_add by lia. apply Z.mod_small. lia.
  - intros [= -> ->].
    assert (Hzero : t = 0%Z).
    { unfold t, total. replace (endHour * 60 + endMinute - (endHour * 60 + endMinute))%Z
        with 0%Z by lia. reflexivity. }
    rewrite Hzero. split; reflexivity.
Qed.

Lemma hourlyDuration_wall_clock_witness :
  hourlyDuration (22, 30)%Z (1, 15)%Z = (2, 45)%Z /\
  calculateHourlyDuration (Some (22, 30)%Z) (Some (1, 15)%Z) true
  = Some "2 ساعت و 45 دقیقه".
Proof.
  pose proof (hourlyDuration_wall_clock 22 30 1 15
                ltac:(lia) ltac:(lia) ltac:(lia) ltac:(lia)) as H.
  destruct (hourlyDuration (22, 30)%Z (1, 15)%Z) as [hours minutes] eqn:E.
  destruct H as (_ & _ & _ & Htext & _).
  vm_compute in E. injection E as <- <-. split; [reflexivity|exact Htext].
Defined.

(** ** Synchronising offline data *)

Section SyncFacts.

Variable services : SyncServices.

(** The loop counts every item once, as a success or as a failure, and
    leaves the sync manager alone. *)
Lemma syncItems_counts (items : list OfflineItem) (total successCount failCount : Z)
    (s : SyncState) :
  exists effects,
    syncItems services items total successCount failCount s =
    (Ok ((successCount + Z.of_nat (List.length (filter (synced services) items)))%Z,
         (failCount + Z.of_nat (List.length (filter (fun i => negb (synced services i)) items)))%Z),
     {| syncManager := syncManager s; syncTrace := (syncTrace s ++ effects)%list |}).
Proof.
  revert successCount failCount s.
  induction items as [|item rest IH]; intros successCount failCount s.
  - exists []. cbn [syncItems filter List.length Z.of_nat ret].
    rewrite !Z.add_0_r, app_nil_r. now destruct s.
  - assert (Hsynced : synced services item = match processOfflineItem services item with
                                      | Ok _ => true
                                      | Throw _ => false
                                      end) by reflexivity.
    cbn [syncItems filter]. rewrite Hsynced.
    unfold bind, sync_emit, modify, ret.
    destruct (processOfflineItem services item) as [u|e]; cbn [negb fst snd].
    + match goal with
      | |- context [syncItems services rest total ?a ?b ?s'] =>
          destruct (IH a b s') as (effects & ->)
      end.
      cbn [syncManager syncTrace List.length]. rewrite <- app_assoc.
      eexists. f_equal. f_equal; f_equal; lia.
    + match goal with
      | |- context [syncItems services rest total ?a ?b ?s'] =>
          destruct (IH a b s') as (effects & ->)
      end.
      cbn [syncManager syncTrace List.length]. rewrite <- !app_assoc.
      eexists. f_equal. f_equal; f_equal; lia.
Qed.

(** X11.  [syncOfflineData] leaves the flag [isSyncing] as it found it:
    a call made while a synchronisation is running changes nothing at all,
    and any other call ends with the flag cleared and the progress display
    hidden, also when the offline queue cannot be read. *)
Theorem syncOfflineData_restores_flag (s : SyncState) :
  isSyncing (syncManager (syncOfflineData services s)) = isSyncing (syncManager s) /\
  (isSyncing (syncManager s) = true -> syncOfflineData services s = s) /\
  (isSyncing (syncManager s) = false ->
   exists effects,
     syncTrace (syncOfflineData services s)
     = (syncTrace s ++ effects ++ [ui_hideSyncProgress])%list).
Proof.
  unfold syncOfflineData.
  destruct (isSyncing (syncManager s)) eqn:Hflag.
  { split; [exact Hflag|]. split; [reflexivity|discriminate]. }
  unfold try_catchM, syncOfflineData_try, bind, await, setSyncManager, sync_emit,
    modify, when, ret.
  destruct (offline_getPendingItems services) as [items|e];
    cbn [syncManager syncTrace pendingChanges];
    [destruct (0 <? Z.of_nat (List.length items))%Z;
     [match goal with
      | |- context [syncItems services items ?t ?a ?b ?s'] =>
          destruct (syncItems_counts items t a b s') as (effects & ->)
      end;
      cbn [syncManager syncTrace]; destruct (0 <? _)%Z, (0 <? _)%Z|]|];
    cbn [syncManager syncTrace isSyncing];
    (split; [reflexivity|]); (split; [discriminate|]); intros _;
    repeat rewrite <- app_assoc;
    lazymatch goal with
    | |- exists effects, (_ ++ ?l)%list = _ =>
        assert (exists e, l = (e ++ [ui_hideSyncProgress])%list) as [e0 He0]
          by (repeat rewrite app_assoc;
              first [eexists; reflexivity | exists []; reflexivity]);
        exists e0; f_equal; exact He0
    end.
Qed.

(** X12.  When the queue holds items, every item is tried once and counted
    once: after [syncOfflineData] the number of pending changes is the
    number of items whose synchronisation failed, the reported successes
    and failures add up to the length of the queue, and the time of the
    last synchronisation is the current time.  An item whose type is not
    "attendance", "task" or "request" always counts as failed. *)
Theorem syncOfflineData_counts (s : SyncState) (items : list OfflineItem) :
  isSyncing (syncManager s) = false ->
  offline_getPendingItems services = Ok items ->
  items <> [] ->
  let successCount := Z.of_nat (List.length (filter (synced services) items)) in
  let failCount := Z.of_nat (List.length (filter (fun i => negb (synced services i)) items)) in
  pendingChanges (syncManager (syncOfflineData services s)) = failCount /\
  lastSync (syncManager (syncOfflineData services s)) = Some (now_sync services) /\
  (successCount + failCount = Z.of_nat (List.length items))%Z /\
  In (sync_trackEvent successCount failCount (Z.of_nat (List.length items)))
     (syncTrace (syncOfflineData services s)) /\
  (forall item,
      In item items ->
      item_type item <> "attendance" -> item_type item <> "task" ->
      item_type item <> "request" ->
      synced services item = false).
Proof.
  intros Hflag Hitems Hne successCount failCount.
  assert (Hsum : (successCount + failCount = Z.of_nat (List.length items))%Z).
  { unfold successCount, failCount. clear.
    induction items as [|i rest IH]; [reflexivity|].
    cbn [filter]. destruct (synced services i); cbn [negb List.length]; lia. }
  assert (Hunknown : forall item,
             item_type item <> "attendance" -> item_type item <> "task" ->
             item_type item <> "request" -> synced services item = false).
  { intros item Ha Ht Hr. unfold synced, processOfflineItem.
    apply String.eqb_neq in Ha, Ht, Hr. now rewrite Ha, Ht, Hr. }
  unfold syncOfflineData. rewrite Hflag.
  unfold try_catchM, syncOfflineData_try, bind, await, setSyncManager, sync_emit,
    modify, when, ret.
  rewrite Hitems. cbn [syncManager syncTrace pendingChanges].
  assert (Hpos : (0 <? Z.of_nat (List.length items))%Z = true).
  { apply Z.ltb_lt. destruct items; [congruence|cbn [List.length]; lia]. }
  rewrite Hpos.
  match goal with
  | |- context [syncItems services items ?t ?a ?b ?s'] =>
      destruct (syncItems_counts items t a b s') as (effects & ->)
  end.
  rewrite !Z.add_0_l. fold successCount. fold failCount.
  cbn [syncManager syncTrace].
  destruct (0 <? successCount)%Z, (0 <? failCount)%Z;
    cbn [syncManager syncTrace pendingChanges lastSync];
    (split; [reflexivity|]); (split; [reflexivity|]); (split; [exact Hsum|]);
    (split; [repeat rewrite in_app_iff; cbn [In]; tauto|]);
    intros item _; apply Hunknown.
Qed.

End SyncFacts.

Lemma syncOfflineData_counts_witness :
  let services :=
    {| offline_getPendingItems :=
         Ok [ {| item_type := "attendance"; item_data := 1 |};
              {| item_type := "leave"; item_data := 2 |};
              {| item_type := "task"; item_data := 3 |} ];
       attendance_syncRecord := fun _ => Ok tt;
       tasks_syncTask := fun _ => Throw "HTTP 500";
       requests_syncRequest := fun _ => Ok tt;
       now_sync := Examples.at_ 8 5 |} in
  let idle :=
    {| syncManager := {| isSyncing := false; lastSync := None; pendingChanges := 0 |};
       syncTrace := [] |} in
  pendingChanges (syncManager (syncOfflineData services idle)) = 2%Z /\
  isSyncing (syncManager (syncOfflineData services idle)) = false.
Proof.
  intros services idle.
  destruct (syncOfflineData_counts services idle
              [ {| item_type := "attendance"; item_data := 1 |};
                {| item_type := "leave"; item_data := 2 |};
                {| item_type := "task"; item_data := 3 |} ]
              eq_refl eq_refl ltac:(discriminate)) as (Hpending & _).
  split; [exact Hpending|reflexivity].
Defined.

(** ** The monthly duty schedule *)

Section DutyFacts.

Variable calendar : MonthCalendar.

Local Open Scope nat_scope.

(** The four indices of the loop stay consecutive, and every entry is
    either a holiday or the working day of an even index. *)
Lemma dutyDays_entries (employeeCodes : list string) (days : list nat) (index : nat)
    (d : DutyDay) :
  In d (dutyDays calendar employeeCodes days index (index + 1) (index + 2) (index + 3)) ->
  exists day, In day days /\
    ((isFriday calendar day = true /\ d = holiday calendar day) \/
     (isFriday calendar day = false /\
      exists k, d = workingDay calendar employeeCodes day (index + 2 * k))).
Proof.
  revert index. induction days as [|day rest IH]; intros index Hin; [contradiction|].
  cbn [dutyDays] in Hin. fold (isFriday calendar day) in Hin.
  destruct (isFriday calendar day) eqn:Hfri.
  - destruct Hin as [<-|Hin].
    + exists day. split; [now left|]. left. now split.
    + destruct (IH index Hin) as (day' & Hday' & H).
      exists day'. split; [now right|exact H].
  - destruct Hin as [<-|Hin].
    + exists day. split; [now left|]. right. split; [exact Hfri|].
      exists 0. now rewrite Nat.mul_0_r, Nat.add_0_r.
    + replace (index + 1 + 2) with (index + 2 + 1) in Hin by lia.
      replace (index + 3 + 2) with (index + 2 + 3) in Hin by lia.
      replace (index + 2 + 2) with (index + 2 + 2) in Hin by lia.
      destruct (IH (index + 2) Hin) as (day' & Hday' & H).
      exists day'. split; [now right|].
      destruct H as [H|(Hf & k & ->)]; [now left|right].
      split; [exact Hf|]. exists (S k). f_equal. lia.
Qed.

Lemma dutyDays_dates (employeeCodes : list string) (days : list nat) (a b c e : nat) :
  map date (dutyDays calendar employeeCodes days a b c e) = map (formatDay calendar) days.
Proof.
  revert a b c e. induction days as [|day rest IH]; intros a b c e; [reflexivity|].
  cbn [dutyDays map].
  destruct (getDayOfWeek calendar (formatDay calendar day) =? "جمعه")%string;
    cbn [map date]; now rewrite IH.
Qed.

(** X13.  [createMonthlyDutySchedule] makes one entry per day of the month,
    in order, each carrying its formatted date and day of the week.  The
    entry of a Friday is a holiday with four empty duties; every other
    entry is a working day. *)
Theorem createMonthlyDutySchedule_days (employeeCodes : list string) :
  map date (createMonthlyDutySchedule calendar employeeCodes)
  = map (formatDay calendar) (seq 1 (getDaysInMonth calendar)) /\
  List.length (createMonthlyDutySchedule calendar employeeCodes) = getDaysInMonth calendar /\
  (forall d, In d (createMonthlyDutySchedule calendar employeeCodes) ->
     dayOfWeek d = getDayOfWeek calendar (date d) /\
     ((dayOfWeek d = "جمعه" /\ isHoliday d = Some true /\
       dayDuty d = Some EmptyString /\ nightDuty d = Some EmptyString /\
       assistantDuty d = Some EmptyString /\ oncallDuty d = Some EmptyString) \/
      (dayOfWeek d <> "جمعه" /\ isHoliday d = Some false))).
Proof.
  unfold createMonthlyDutySchedule. split; [apply dutyDays_dates|]. split.
  - rewrite <- (length_map date), dutyDays_dates, length_map. apply length_seq.
  - intros d Hin.
    destruct (dutyDays_entries employeeCodes _ 0 d Hin)
      as (day & _ & [(Hfri & ->)|(Hfri & k & ->)]);
      (split; [reflexivity|]); unfold isFriday in Hfri.
    + left. apply String.eqb_eq in Hfri. repeat split; assumption.
    + right. apply String.eqb_neq in Hfri. split; [exact Hfri|reflexivity].
Qed.

Lemma nth_error_mod_In (employeeCodes : list string) (i : nat) :
  employeeCodes <> [] ->
  exists code, nth_error employeeCodes (i mod List.length employeeCodes) = Some code /\
               In code employeeCodes.
Proof.
  intros Hne.
  assert (Hlt : i mod List.length employeeCodes < List.length employeeCodes).
  { apply Nat.mod_upper_bound. destruct employeeCodes; [congruence|discriminate]. }
  destruct (nth_error employeeCodes (i mod List.length employeeCodes)) as [code|] eqn:E.
  - exists code. split; [reflexivity|]. eapply nth_error_In. exact E.
  - apply nth_error_None in E. lia.
Qed.

Lemma dayErrors_nil (d : DutyDay) :
  dayErrors d = [] <->
  (truthyBool (isHoliday d) = true \/
   (truthyString (dayDuty d) = true /\ truthyString (nightDuty d) = true)).
Proof.
  unfold dayErrors.
  destruct (truthyBool (isHoliday d)), (truthyString (dayDuty d)),
    (truthyString (nightDuty d)); cbn [negb List.app]; split;
    try discriminate; try tauto; intros [H|[H1 H2]]; discriminate.
Qed.

(** X14.  A day passes [validateDutySchedule] when it is a holiday or has
    both a day duty and a night duty; the assistant and on-call duties are
    not looked at, and a day without the property [isHoliday] counts as a
    working day.  The schedule is valid exactly when every day passes, and
    each day adds at most two messages. *)
Theorem validateDutySchedule_iff (schedule : list DutyDay) :
  (valid (validateDutySchedule schedule) = true <->
   forall d, In d schedule ->
     isHoliday d = Some true \/
     (truthyString (dayDuty d) = true /\ truthyString (nightDuty d) = true)) /\
  (valid (validateDutySchedule schedule) = true <->
   errors (validateDutySchedule schedule) = []) /\
  List.length (errors (validateDutySchedule schedule)) <= 2 * List.length schedule.
Proof.
  unfold validateDutySchedule. cbn [valid errors].
  assert (Hnil : flat_map dayErrors schedule = [] <->
                 forall d, In d schedule -> dayErrors d = []).
  { induction schedule as [|d rest IH]; cbn [flat_map].
    - split; [intros _ d []|reflexivity].
    - split.
      + intros H. apply app_eq_nil in H as [Hd Hrest].
        intros d' [<-|Hin]; [exact Hd|]. now apply IH.
      + intros H. rewrite (H d (or_introl eq_refl)).
        apply IH. intros d' Hin. apply H. now right. }
  split; [|split].
  - rewrite Nat.eqb_eq, length_zero_iff_nil, Hnil.
    split; intros H d Hin; specialize (H d Hin).
    + apply dayErrors_nil in H. destruct H as [H|H]; [left|now right].
      destruct (isHoliday d) as [[|]|]; [reflexivity|discriminate|discriminate].
    + apply dayErrors_nil. destruct H as [->|H]; [now left|now right].
  - now rewrite Nat.eqb_eq, length_zero_iff_nil.
  - clear Hnil. induction schedule as [|d rest IH]; [cbn; lia|].
    cbn [flat_map List.length]. rewrite length_app.
    assert (List.length (dayErrors d) <= 2).
    { unfold dayErrors.
      destruct (truthyBool (isHoliday d)), (truthyString (dayDuty d)),
        (truthyString (nightDuty d)); cbn; lia. }
    lia.
Qed.

(** With no employee, a working day has no day duty. *)
Lemma dutyDays_nil_working (days : list nat) (day a b c e : nat) :
  In day days -> isFriday calendar day = false ->
  exists d, In d (dutyDays calendar [] days a b c e) /\
            isHoliday d = Some false /\ dayDuty d = None.
Proof.
  revert a b c e. induction days as [|x rest IH]; intros a b c e Hday Hfri;
    [contradiction|].
  cbn [dutyDays]. fold (isFriday calendar x). destruct Hday as [->|Hday].
  - rewrite Hfri. eexists. split; [now left|]. cbn [isHoliday dayDuty List.length].
    split; [reflexivity|apply nth_error_nil].
  - destruct (isFriday calendar x).
    + destruct (IH a b c e Hday Hfri) as (d & Hin & H). exists d. split; [now right|exact H].
    + destruct (IH (a + 2) (b + 2) (c + 2) (e + 2) Hday Hfri) as (d & Hin & H).
      exists d. split; [now right|exact H].
Qed.

(** X15.  With at least one active employee, and no employee code empty,
    the schedule that [createMonthlyDutySchedule] makes passes
    [validateDutySchedule] with no message.  With no active employee it
    fails as soon as the month has a day that is not a Friday. *)
Theorem createMonthlyDutySchedule_valid (employeeCodes : list string) :
  (employeeCodes <> [] -> ~ In EmptyString employeeCodes ->
   validateDutySchedule (createMonthlyDutySchedule calendar employeeCodes)
   = {| valid := true; errors := [] |}) /\
  (employeeCodes = [] ->
   (exists day, In day (seq 1 (getDaysInMonth calendar)) /\
                isFriday calendar day = false) ->
   valid (validateDutySchedule (createMonthlyDutySchedule calendar employeeCodes)) = false).
Proof.
  split.
  - intros Hne Hnonempty.
    assert (Hvalid : valid (validateDutySchedule
                              (createMonthlyDutySchedule calendar employeeCodes)) = true).
    { apply (proj2 (proj1 (validateDutySchedule_iff _))). intros d Hin.
      destruct (dutyDays_entries employeeCodes _ 0 d Hin)
        as (day & _ & [(_ & ->)|(_ & k & ->)]); [now left|right].
      assert (Htruthy : forall i,
                 truthyString
                   (nth_error employeeCodes (i mod List.length employeeCodes)) = true).
      { intros i. destruct (nth_error_mod_In employeeCodes i Hne) as (code & -> & Hin').
        cbn [truthyString]. apply negb_true_iff. apply String.eqb_neq.
        intros ->. contradiction. }
      cbn [workingDay dayDuty nightDuty]. split; apply Htruthy. }
    pose proof (proj1 (proj1 (proj2 (validateDutySchedule_iff _))) Hvalid) as Herrors.
    destruct (validateDutySchedule _) as [v e]. cbn [valid errors] in *. now subst.
  - intros -> (day & Hday & Hfri).
    destruct (valid (validateDutySchedule (createMonthlyDutySchedule calendar []))) eqn:E;
      [|reflexivity].
    exfalso.
    pose proof (proj1 (proj1 (validateDutySchedule_iff _)) E) as Hall.
    destruct (dutyDays_nil_working _ day 0 1 2 3 Hday Hfri) as (d & Hin & Hwork & Hnone).
    destruct (Hall d Hin) as [H|[H _]]; [congruence|].
    rewrite Hnone in H. discriminate.
Qed.

Lemma mod_offsets_differ (n i a b : nat) :
  4 <= n -> a < b -> b <= 3 -> (i + a) mod n <> (i + b) mod n.
Proof.
  intros Hn Hab Hb Heq.
  pose proof (Nat.div_mod_eq (i + a) n) as Ha.
  pose proof (Nat.div_mod_eq (i + b) n) as Hb'.
  rewrite Heq in Ha.
  assert (Hle : (i + a) / n <= (i + b) / n) by (apply Nat.Div0.div_le_mono; lia).
  remember ((i + a) / n) as q1. remember ((i + b) / n) as q2.
  remember ((i + b) mod n) as r.
  assert (Hlt : q1 < q2).
  { destruct (Nat.eq_dec q1 q2) as [->|]; lia. }
  assert (n * q1 + n <= n * q2) by nia.
  lia.
Qed.

(** X16.  With at least four active employees with different codes, the
    four duties of every working day of the schedule that
    [createMonthlyDutySchedule] makes go to four different employees.  With
    one, two or three employees one of them has two duties on every
    working day. *)
Theorem createMonthlyDutySchedule_distinct (employeeCodes : list string) (d : DutyDay) :
  NoDup employeeCodes ->
  In d (createMonthlyDutySchedule calendar employeeCodes) ->
  isHoliday d = Some false ->
  (4 <= List.length employeeCodes ->
   exists a b c e,
     dayDuty d = Some a /\ nightDuty d = Some b /\
     assistantDuty d = Some c /\ oncallDuty d = Some e /\ NoDup [a; b; c; e]) /\
  (1 <= List.length employeeCodes <= 3 ->
   dayDuty d = nightDuty d \/ dayDuty d = assistantDuty d \/ dayDuty d = oncallDuty d).
Proof.
  intros Hnodup Hin Hwork.
  destruct (dutyDays_entries employeeCodes _ 0 d Hin)
    as (day & _ & [(_ & ->)|(_ & k & ->)]); [discriminate|].
  cbn [Nat.add]. set (i := 2 * k). set (n := List.length employeeCodes).
  cbn [workingDay dayDuty nightDuty assistantDuty oncallDuty]. fold n. split.
  - intros Hn.
    assert (Hne : employeeCodes <> []) by (destruct employeeCodes; [cbn in *; lia|discriminate]).
    assert (Hget : forall j, exists code,
               nth_error employeeCodes (j mod n) = Some code).
    { intros j. destruct (nth_error_mod_In employeeCodes j Hne) as (code & Hc & _).
      now exists code. }
    destruct (Hget i) as (a & Ha), (Hget (i + 1)) as (b & Hb),
      (Hget (i + 2)) as (c & Hc), (Hget (i + 3)) as (e & He).
    exists a, b, c, e. rewrite Ha, Hb, Hc, He. repeat split.
    assert (Hdiff : forall x y u v,
               x < y -> y <= 3 ->
               nth_error employeeCodes ((i + x) mod n) = Some u ->
               nth_error employeeCodes ((i + y) mod n) = Some v -> u <> v).
    { intros x y u v Hxy Hy Hu Hv ->.
      apply (mod_offsets_differ n i x y Hn Hxy Hy).
      apply (proj1 (NoDup_nth_error employeeCodes) Hnodup).
      - apply Nat.mod_upper_bound. lia.
      - congruence. }
    rewrite <- (Nat.add_0_r i) in Ha.
    repeat constructor; cbn [In]; intros H;
      repeat match goal with H : _ \/ _ |- _ => destruct H end;
      try contradiction;
      match goal with
      | H : ?u = ?v |- _ =>
          first [ eapply (Hdiff 0 1); [| | exact Ha | exact Hb |]; [lia|lia|exact H]
                | eapply (Hdiff 0 2); [| | exact Ha | exact Hc |]; [lia|lia|exact H]
                | eapply (Hdiff 0 3); [| | exact Ha | exact He |]; [lia|lia|exact H]
                | eapply (Hdiff 1 2); [| | exact Hb | exact Hc |]; [lia|lia|exact H]
                | eapply (Hdiff 1 3); [| | exact Hb | exact He |]; [lia|lia|exact H]
                | eapply (Hdiff 2 3); [| | exact Hc | exact He |]; [lia|lia|exact H]
                | eapply (Hdiff 0 1); [| | exact Ha | exact Hb |]; [lia|lia|symmetry; exact H]
                | eapply (Hdiff 0 2); [| | exact Ha | exact Hc |]; [lia|lia|symmetry; exact H]
                | eapply (Hdiff 0 3); [| | exact Ha | exact He |]; [lia|lia|symmetry; exact H]
                | eapply (Hdiff 1 2); [| | exact Hb | exact Hc |]; [lia|lia|symmetry; exact H]
                | eapply (Hdiff 1 3); [| | exact Hb | exact He |]; [lia|lia|symmetry; exact H]
                | eapply (Hdiff 2 3); [| | exact Hc | exact He |]; [lia|lia|symmetry; exact H] ]
      end.
  - intros Hn.
    assert (Hsame : forall x, (i + x) mod n = ((i + x) + n) mod n).
    { intros x. rewrite <- (Nat.Div0.add_mod_idemp_r (i + x) n n).
      now rewrite Nat.Div0.mod_same, Nat.add_0_r. }
    assert (Hi : i mod n = (i + n) mod n).
    { specialize (Hsame 0). now rewrite Nat.add_0_r in Hsame. }
    destruct (Nat.eq_dec n 1) as [->|]; [left; now rewrite Hi|].
    destruct (Nat.eq_dec n 2) as [->|]; [right; left; now rewrite Hi|].
    assert (n = 3) as -> by lia. right. right. now rewrite Hi.
Qed.

Lemma getDuty_setDuty (type other : DutyType) (code : string) (d : DutyDay) :
  getDuty other (setDuty type code d) =
  if match type, other with
     | DayDuty, DayDuty | NightDuty, NightDuty
     | AssistantDuty, AssistantDuty | OncallDuty, OncallDuty => true
     | _, _ => false
     end
  then Some code else getDuty other d.
Proof. destruct type, other; reflexivity. Qed.

(** X17.  After [handleDutyChange(date, type, employeeCode)] the schedule
    has an entry for that date whose duty of that type is the given code
    and whose other three duties are those the date had before (empty
    when the date is new); the entries of all other dates are untouched,
    and the schedule grows by one entry exactly when the date is new. *)
Theorem handleDutyChange_lookup
    (day : string) (type : DutyType) (employeeCode : string) (schedule : list DutyDay) :
  (exists d,
      findDay day (handleDutyChange calendar day type employeeCode schedule) = Some d /\
      date d = day /\
      getDuty type d = Some employeeCode /\
      forall other, other <> type ->
        getDuty other d = match findDay day schedule with
                          | Some old => getDuty other old
                          | None => Some EmptyString
                          end) /\
  (forall otherDay, otherDay <> day ->
     findDay otherDay (handleDutyChange calendar day type employeeCode schedule)
     = findDay otherDay schedule) /\
  List.length (handleDutyChange calendar day type employeeCode schedule)
  = match findDay day schedule with
    | Some _ => List.length schedule
    | None => S (List.length schedule)
    end.
Proof.
  unfold findDay.
  induction schedule as [|d rest (IHfind & IHother & IHlength)].
  - cbn [handleDutyChange find date setDuty]. rewrite String.eqb_refl.
    split; [|split; [|reflexivity]].
    + eexists. split; [reflexivity|]. split; [reflexivity|].
      split; [now destruct type|]. intros other Hother.
      destruct type, other; try reflexivity; congruence.
    + intros otherDay Hother. apply String.eqb_neq in Hother.
      rewrite String.eqb_sym in Hother. now rewrite Hother.
  - cbn [handleDutyChange find]. destruct (date d =? day)%string eqn:Hd.
    + cbn [find]. replace (date (setDuty type employeeCode d)) with (date d) by reflexivity.
      rewrite Hd. split; [|split; [|reflexivity]].
      * eexists. split; [reflexivity|]. split; [now apply String.eqb_eq|].
        split; [now destruct type|]. intros other Hother.
        destruct type, other; try reflexivity; congruence.
      * intros otherDay Hother. apply String.eqb_eq in Hd. subst day.
        apply String.eqb_neq in Hother. rewrite String.eqb_sym in Hother.
        now rewrite Hother.
    + cbn [find]. rewrite Hd. split; [exact IHfind|]. split.
      * intros otherDay Hother. destruct (date d =? otherDay)%string; [reflexivity|].
        now apply IHother.
      * cbn [List.length]. rewrite IHlength.
        now destruct (find (fun d0 => (date d0 =? day)%string) rest).
Qed.

(** X18.  [clearDutyRow] removes every entry of the date and nothing else,
    so it also undoes a preceding [handleDutyChange] for that date; when
    the dialog is declined the schedule stays as it is. *)
Theorem clearDutyRow_removes
    (day : string) (type : DutyType) (employeeCode : string) (schedule : list DutyDay) :
  findDay day (clearDutyRow true day schedule) = None /\
  (forall d, In d (clearDutyRow true day schedule) <-> In d schedule /\ date d <> day) /\
  clearDutyRow true day (handleDutyChange calendar day type employeeCode schedule)
  = clearDutyRow true day schedule /\
  clearDutyRow false day schedule = schedule.
Proof.
  unfold clearDutyRow, findDay. cbn [negb]. split; [|split; [|split; [|reflexivity]]].
  - destruct (find _ (filter _ schedule)) as [d|] eqn:E; [|reflexivity].
    apply find_some in E as [Hin Hd]. apply filter_In in Hin as [_ Hne].
    rewrite Hd in Hne. discriminate.
  - intros d. rewrite filter_In, negb_true_iff, String.eqb_neq. tauto.
  - induction schedule as [|d rest IH].
    + cbn [handleDutyChange filter date setDuty]. now rewrite String.eqb_refl.
    + cbn [handleDutyChange]. destruct (date d =? day)%string eqn:Hd.
      * cbn [filter].
        replace (date (setDuty type employeeCode d)) with (date d) by reflexivity.
        now rewrite Hd.
      * cbn [filter]. rewrite Hd. cbn [negb]. now rewrite IH.
Qed.

(** X19.  An entry that [handleDutyChange] creates for a new date has no
    [isHoliday] property, so [validateDutySchedule] treats it as a working
    day, Fridays included: after a single duty has been chosen for a new
    date the schedule is not valid. *)
Theorem handleDutyChange_new_day_invalid
    (day : string) (type : DutyType) (employeeCode : string) (schedule : list DutyDay) :
  findDay day schedule = None ->
  valid (validateDutySchedule
           (handleDutyChange calendar day type employeeCode schedule)) = false.
Proof.
  intros Hnew.
  assert (Hin : In (setDuty type employeeCode
                      {| date := day; dayOfWeek := getDayOfWeek calendar day;
                         dayDuty := Some EmptyString; nightDuty := Some EmptyString;
                         assistantDuty := Some EmptyString;
                         oncallDuty := Some EmptyString; isHoliday := None |})
                   (handleDutyChange calendar day type employeeCode schedule)).
  { unfold findDay in Hnew. induction schedule as [|d rest IH]; [now left|].
    cbn [handleDutyChange find] in *.
    destruct (date d =? day)%string; [discriminate|]. right. now apply IH. }
  destruct (valid (validateDutySchedule _)) eqn:E; [|reflexivity]. exfalso.
  pose proof (proj1 (proj1 (validateDutySchedule_iff _)) E) as Hall.
  destruct (Hall _ Hin) as [H|[Hday Hnight]]; [discriminate|].
  destruct type; cbn in Hday, Hnight; discriminate.
Qed.

End DutyFacts.

(** X20.  [finalizeDutySchedule] stores a schedule as final only if there
    is a stored schedule, it is not empty and it passes
    [validateDutySchedule]; what it stores is that schedule, unchanged. *)
Theorem finalizeDutySchedule_Ok (stored : option (list DutyDay)) (final : list DutyDay) :
  finalizeDutySchedule stored = Ok final <->
  stored = Some final /\ final <> [] /\ valid (validateDutySchedule final) = true.
Proof.
  unfold finalizeDutySchedule. destruct stored as [schedule|].
  - destruct schedule as [|d rest].
    + cbn. split; [discriminate|]. intros (H & Hne & _). injection H as <-. congruence.
    + cbn [List.length Nat.eqb].
      destruct (valid (validateDutySchedule (d :: rest))) eqn:E; cbn [negb]; split.
      * intros [= <-]. now repeat split.
      * intros (H & _). now injection H as <-.
      * discriminate.
      * intros (H & _ & Hv). injection H as <-. congruence.
  - cbn. split; [discriminate|]. intros (H & _). discriminate.
Qed.

Lemma setAdd_In (code c : string) (set : list string) :
  In c (setAdd code set) <-> c = code \/ In c set.
Proof.
  unfold setAdd. destruct (existsb (String.eqb code) set) eqn:E.
  - split; [now right|]. intros [->|H]; [|exact H].
    apply existsb_exists in E as (x & Hx & Heq). apply String.eqb_eq in Heq. now subst.
  - rewrite in_app_iff. cbn [In]. intuition congruence.
Qed.

Lemma setAdd_NoDup (code : string) (set : list string) :
  NoDup set -> NoDup (setAdd code set).
Proof.
  intros Hset. unfold setAdd. destruct (existsb (String.eqb code) set) eqn:E; [exact Hset|].
  apply NoDup_app; [exact Hset|repeat constructor; intros []|].
  intros x Hx [->|[]].
  assert (existsb (String.eqb x) set = true); [|congruence].
  apply existsb_exists. exists x. split; [exact Hx|apply String.eqb_refl].
Qed.

Lemma addIfTruthy_In (duty : option string) (c : string) (set : list string) :
  In c (addIfTruthy duty set) <-> In c set \/ (duty = Some c /\ c <> EmptyString).
Proof.
  unfold addIfTruthy. destruct duty as [code|].
  - cbn [truthyString]. destruct (code =? "")%string eqn:E; cbn [negb].
    + apply String.eqb_eq in E. subst. split; [now left|].
      intros [H|([= <-] & Hne)]; [exact H|congruence].
    + apply String.eqb_neq in E. rewrite setAdd_In. split.
      * intros [->|H]; [right; now split|now left].
      * intros [H|([= <-] & _)]; [now right|now left].
  - split; [now left|]. intros [H|(H & _)]; [exact H|discriminate].
Qed.

Lemma addIfTruthy_NoDup (duty : option string) (set : list string) :
  NoDup set -> NoDup (addIfTruthy duty set).
Proof.
  intros Hset. unfold addIfTruthy. destruct duty as [code|]; [|exact Hset].
  destruct (truthyString (Some code)); [now apply setAdd_NoDup|exact Hset].
Qed.

(** X21.  [countUniqueEmployees] is the number of different non-empty
    employee codes that occur as a duty (of any of the four types) in the
    schedule. *)
Theorem countUniqueEmployees_distinct (schedule : list DutyDay) (codes : list string) :
  NoDup codes ->
  (forall c, In c codes <->
     c <> EmptyString /\
     exists d, In d schedule /\
       (dayDuty d = Some c \/ nightDuty d = Some c \/
        assistantDuty d = Some c \/ oncallDuty d = Some c)) ->
  countUniqueEmployees schedule = List.length codes.
Proof.
  intros Hnodup Hcodes. unfold countUniqueEmployees.
  set (step := fun employees day =>
                 addIfTruthy (oncallDuty day)
                   (addIfTruthy (assistantDuty day)
                      (addIfTruthy (nightDuty day)
                         (addIfTruthy (dayDuty day) employees)))).
  assert (Hfold : forall acc,
             NoDup acc ->
             NoDup (fold_left step schedule acc) /\
             forall c, In c (fold_left step schedule acc) <->
                       In c acc \/
                       (c <> EmptyString /\
                        exists d, In d schedule /\
                          (dayDuty d = Some c \/ nightDuty d = Some c \/
                           assistantDuty d = Some c \/ oncallDuty d = Some c))).
  { clear Hcodes. induction schedule as [|d rest IH]; intros acc Hacc.
    - cbn [fold_left]. split; [exact Hacc|]. intros c. split; [now left|].
      intros [H|(_ & d & [] & _)]. exact H.
    - cbn [fold_left].
      assert (Hstep : NoDup (step acc d)).
      { unfold step. now repeat apply addIfTruthy_NoDup. }
      destruct (IH (step acc d) Hstep) as [Hnd Hin]. split; [exact Hnd|].
      intros c. rewrite Hin. unfold step. rewrite !addIfTruthy_In. cbn [In].
      split.
      + intros [[[[[H|H]|H]|H]|H]|(Hne & d' & Hd' & Hduty)].
        * now left.
        * right. split; [tauto|]. exists d. split; [now left|tauto].
        * right. split; [tauto|]. exists d. split; [now left|tauto].
        * right. split; [tauto|]. exists d. split; [now left|tauto].
        * right. split; [tauto|]. exists d. split; [now left|tauto].
        * right. split; [exact Hne|]. exists d'. split; [now right|exact Hduty].
      + intros [H|(Hne & d' & [<-|Hd'] & Hduty)].
        * tauto.
        * left. tauto.
        * right. split; [exact Hne|]. now exists d'. }
  destruct (Hfold [] (NoDup_nil _)) as [Hnd Hin].
  apply Nat.le_antisymm; apply NoDup_incl_length; try assumption.
  - intros c Hc. apply Hcodes. apply Hin in Hc. destruct Hc as [[]|Hc]. exact Hc.
  - intros c Hc. apply Hin. right. now apply Hcodes.
Qed.

Lemma createMonthlyDutySchedule_distinct_witness :
  let calendar :=
    {| getDaysInMonth := 2;
       formatDay := fun day => if (day =? 1)%nat then "1403/01/01" else "1403/01/02";
       getDayOfWeek := fun dateStr =>
                         if (dateStr =? "1403/01/01")%string then "چهارشنبه"
                         else "پنجشنبه" |} in
  let second :=
    {| date := "1403/01/02"; dayOfWeek := "پنجشنبه";
       dayDuty := Some "E3"; nightDuty := Some "E4";
       assistantDuty := Some "E5"; oncallDuty := Some "E1"; isHoliday := Some false |} in
  In second (createMonthlyDutySchedule calendar ["E1"; "E2"; "E3"; "E4"; "E5"]) /\
  exists a b c e,
    dayDuty second = Some a /\ nightDuty second = Some b /\
    assistantDuty second = Some c /\ oncallDuty second = Some e /\ NoDup [a; b; c; e].
Proof.
  intros calendar second.
  assert (Hin : In second (createMonthlyDutySchedule calendar
                             ["E1"; "E2"; "E3"; "E4"; "E5"])).
  { right. left. reflexivity. }
  split; [exact Hin|].
  apply (createMonthlyDutySchedule_distinct calendar ["E1"; "E2"; "E3"; "E4"; "E5"] second).
  - repeat constructor; cbn [In]; intros H;
      repeat match goal with H : _ \/ _ |- _ => destruct H end;
      try discriminate; contradiction.
  - exact Hin.
  - reflexivity.
  - cbn [List.length]. apply le_S, le_n.
Defined.

Lemma handleDutyChange_new_day_invalid_witness :
  valid (validateDutySchedule
           (handleDutyChange
              {| getDaysInMonth := 30; formatDay := fun _ => "1403/01/01";
                 getDayOfWeek := fun _ => "جمعه" |}
              "1403/01/05" DayDuty "E1" [])) = false.
Proof.
  apply handleDutyChange_new_day_invalid. reflexivity.
Defined.

Lemma countUniqueEmployees_distinct_witness :
  countUniqueEmployees
    [ {| date := "1403/01/01"; dayOfWeek := "چهارشنبه";
         dayDuty := Some "E1"; nightDuty := Some "E2";
         assistantDuty := Some EmptyString; oncallDuty := Some "E1";
         isHoliday := Some false |} ] = 2%nat.
Proof.
  apply (countUniqueEmployees_distinct _ ["E1"; "E2"]).
  - repeat constructor; cbn [In]; intros H;
      repeat match goal with H : _ \/ _ |- _ => destruct H end;
      try discriminate; contradiction.
  - intros c. cbn [In]. split.
    + intros [<-|[<-|[]]]; (split; [discriminate|]); eexists; (split; [now left|]);
        cbn; tauto.
    + intros (Hne & d & [<-|[]] & Hduty). cbn in Hduty.
      destruct Hduty as [H|[H|[H|H]]]; injection H as H; subst; tauto.
Defined.

(** * The service worker *)

Section RoutingFacts.

Import SW.

(** X22.  [getStrategyForURL] only ever answers cache-first or
    network-first: cache-first for a URL that does not end in ".html",
    ".css" or ".js" and that ends in an image extension or starts with
    one of the three CDN origins, network-first for every other URL.  So
    a script or style sheet is fetched network-first also when it comes
    from a CDN, and the [fetch] handler never responds with
    stale-while-revalidate or cache-only. *)
Theorem getStrategyForURL_cases (url : string) :
  let page := existsb (fun suffix => endsWith suffix url) [".html"; ".css"; ".js"] in
  let image := existsb (fun suffix => endsWith suffix url)
                 [".png"; ".jpg"; ".jpeg"; ".gif"; ".svg"; ".ico"; ".webp"] in
  let cdn := String.prefix "https://cdnjs.cloudflare.com" url ||
             String.prefix "https://unpkg.com" url ||
             String.prefix "https://cdn.jsdelivr.net" url in
  getStrategyForURL url
  = (if negb page && (image || cdn) then CACHE_FIRST else NETWORK_FIRST) /\
  (forall request,
      onFetch request <> Some STALE_WHILE_REVALIDATE /\
      onFetch request <> Some CACHE_ONLY).
Proof.
  intros page image cdn.
  assert (Hcases : forall u,
             getStrategyForURL u = CACHE_FIRST \/ getStrategyForURL u = NETWORK_FIRST).
  { intros u. unfold getStrategyForURL, ROUTE_STRATEGIES. cbn [find fst snd].
    repeat match goal with
           | |- context [if ?b then _ else _] => destruct b
           end; cbn [snd]; auto. }
  split.
  - unfold getStrategyForURL, ROUTE_STRATEGIES. cbn [find fst snd test].
    fold page. fold image. unfold cdn.
    destruct page; cbn [negb andb]; [reflexivity|].
    destruct image; cbn [orb]; [reflexivity|].
    destruct (String.prefix "https://cdnjs.cloudflare.com" url); cbn [orb]; [reflexivity|].
    destruct (String.prefix "https://unpkg.com" url); cbn [orb]; [reflexivity|].
    destruct (String.prefix "https://cdn.jsdelivr.net" url); cbn [orb]; [reflexivity|].
    now destruct (includes "/api/" url).
  - intros request. unfold onFetch.
    destruct (negb _); [split; intros H; discriminate H|].
    destruct (String.prefix "chrome-extension://" (SW.url request) ||
              String.prefix "chrome://" (SW.url request));
      [split; intros H; discriminate H|].
    destruct (Hcases (SW.url request)) as [-> | ->]; split; intros H; discriminate H.
Qed.

End RoutingFacts.

Section CacheFacts.

Import SW.

Lemma find_app_first {A} (f : A -> bool) (l l' : list A) :
  find f (l ++ l') = match find f l with
                     | Some x => Some x
                     | None => find f l'
                     end.
Proof.
  induction l as [|x l IH]; [reflexivity|].
  cbn [List.app find]. now destruct (f x).
Qed.

Lemma cache_match_put_same (url : string) (response : Response) (cache : Cache) :
  cache_match url (cache_put url response cache) = Some response.
Proof.
  unfold cache_match, cache_put. rewrite find_app_first.
  assert (Hnone : find (fun entry => (fst entry =? url)%string)
                    (filter (fun entry => negb (fst entry =? url)%string) cache) = None).
  { induction cache as [|e cache IH]; [reflexivity|].
    cbn [filter]. destruct (fst e =? url)%string eqn:E; cbn [negb]; [exact IH|].
    cbn [find]. now rewrite E. }
  rewrite Hnone. cbn [find fst snd]. now rewrite String.eqb_refl.
Qed.

Lemma cache_match_put_other (url other : string) (response : Response) (cache : Cache) :
  other <> url ->
  cache_match other (cache_put url response cache) = cache_match other cache.
Proof.
  intros Hother. unfold cache_match, cache_put. rewrite find_app_first.
  cbn [find fst]. apply String.eqb_neq in Hother. rewrite String.eqb_sym in Hother.
  rewrite Hother.
  assert (Hfind : find (fun entry => (fst entry =? other)%string)
                    (filter (fun entry => negb (fst entry =? url)%string) cache)
                  = find (fun entry => (fst entry =? other)%string) cache).
  { induction cache as [|e cache IH]; [reflexivity|].
    cbn [filter find]. destruct (fst e =? url)%string eqn:E; cbn [negb].
    - apply String.eqb_eq in E. rewrite E, Hother. exact IH.
    - cbn [find]. now rewrite IH. }
  rewrite Hfind. now destruct (find _ cache).
Qed.

Lemma caches_match_update (url : string) (response : Response) (caches : CacheStorage) :
  unshadowed url caches ->
  caches_match url (caches_update CACHE_NAME (cache_put url response) caches)
  = Some response.
Proof.
  intros Hclear. induction caches as [|[key cache] rest IH].
  - cbn [caches_update caches_match]. now rewrite cache_match_put_same.
  - cbn [caches_update]. destruct (key =? CACHE_NAME)%string eqn:E.
    + cbn [caches_match]. now rewrite cache_match_put_same.
    + cbn [caches_match]. apply String.eqb_neq in E.
      rewrite (Hclear key cache (or_introl eq_refl) E).
      apply IH. intros name c Hin. apply Hclear. now right.
Qed.

Lemma caches_update_In (f : Cache -> Cache) (caches : CacheStorage)
    (name : string) (cache : Cache) :
  In (name, cache) (caches_update CACHE_NAME f caches) ->
  In (name, cache) caches \/
  (name = CACHE_NAME /\
   exists old, cache = f old /\ (old = [] \/ In (CACHE_NAME, old) caches)).
Proof.
  induction caches as [|[key c] rest IH]; cbn [caches_update].
  - intros [[= <- <-]|[]]. right. split; [reflexivity|]. exists []. split; [reflexivity|now left].
  - destruct (key =? CACHE_NAME)%string eqn:E.
    + intros [[= <- <-]|Hin]; [|left; now right].
      apply String.eqb_eq in E. subst key.
      right. split; [reflexivity|]. exists c. split; [reflexivity|]. right. now left.
    + intros [Hin|Hin]; [left; now left|].
      destruct (IH Hin) as [H|(Hname & old & Hcache & Hold)]; [left; now right|].
      right. split; [exact Hname|]. exists old. split; [exact Hcache|].
      destruct Hold as [Hold|Hold]; [now left|right; now right].
Qed.

Lemma caches_update_update (name : string) (f g : Cache -> Cache) (caches : CacheStorage) :
  caches_update name f (caches_update name g caches)
  = caches_update name (fun cache => f (g cache)) caches.
Proof.
  induction caches as [|[key cache] rest IH]; cbn [caches_update].
  - now rewrite String.eqb_refl.
  - destruct (key =? name)%string eqn:E; cbn [caches_update]; rewrite E; [reflexivity|].
    now rewrite IH.
Qed.

(** Opening the current cache does not change what the caches answer. *)
Lemma caches_match_open (url : string) (caches : CacheStorage) :
  caches_match url (caches_update CACHE_NAME (fun cache => cache) caches)
  = caches_match url caches.
Proof.
  induction caches as [|[key cache] rest IH]; cbn [caches_update caches_match].
  - reflexivity.
  - destruct (key =? CACHE_NAME)%string; cbn [caches_match]; [reflexivity|].
    now rewrite IH.
Qed.

Variable fetch : Request -> result Response.
Variable cache_put_error : Request -> Response -> option string.

Ltac run_strategy :=
  unfold networkFirst, cacheFirst, cacheOnly, updateCacheInBackground, putInCache,
    try_catchM, bind, await, when, modify, get, ret, throw;
  repeat rewrite caches_update_update; repeat rewrite caches_match_open.

(** X23.  [networkFirst] never rejects.  When the network answers and the
    answer is not one with [ok], or the cache takes it, it returns that
    answer.  When the cache refuses an answer with [ok] (a partial
    response, with the status 206, for one), the answer is lost: the
    strategy goes on as if the network had failed.  When the network
    fails it leaves the caches as they are and returns the cached
    response if there is one.  It returns no response at all exactly
    when the network fails or its answer is refused, nothing is cached
    for the URL, the request accepts HTML and the offline page is not
    cached; for a request that does not accept HTML it then answers with
    the status 408. *)
Theorem networkFirst_outcome (request : Request) (caches : CacheStorage) :
  (exists response,
      fst (networkFirst fetch cache_put_error request caches) = Ok response) /\
  (forall response, fetch request = Ok response ->
     ok response = false \/ cache_put_error request response = None ->
     fst (networkFirst fetch cache_put_error request caches) = Ok (Some response)) /\
  (forall response error, fetch request = Ok response ->
     ok response = true -> cache_put_error request response = Some error ->
     fst (networkFirst fetch cache_put_error request caches)
     = fst (networkFirst (fun _ => Throw error) cache_put_error request caches)) /\
  (forall error, fetch request = Throw error ->
     snd (networkFirst fetch cache_put_error request caches) = caches /\
     forall cached, caches_match (url request) caches = Some cached ->
       fst (networkFirst fetch cache_put_error request caches) = Ok (Some cached)) /\
  (fst (networkFirst fetch cache_put_error request caches) = Ok None <->
   ((exists error, fetch request = Throw error) \/
    (exists response error,
        fetch request = Ok response /\ ok response = true /\
        cache_put_error request response = Some error)) /\
   caches_match (url request) caches = None /\
   acceptsHTML request = true /\
   caches_match "/offline.html" caches = None) /\
  (forall error, fetch request = Throw error ->
     caches_match (url request) caches = None -> acceptsHTML request = false ->
     exists response,
       fst (networkFirst fetch cache_put_error request caches) = Ok (Some response) /\
       status response = 408%Z /\ ok response = false).
Proof.
  run_strategy.
  destruct (fetch request) as [response|error].
  - destruct (ok response) eqn:Hok;
      [destruct (cache_put_error request response) as [refusal|] eqn:Hput|];
      cbn [fst snd]; repeat rewrite caches_match_open.
    + assert (Hnone : forall A (x : A), Ok (Some x) = Ok None -> False) by discriminate.
      destruct (caches_match (url request) caches) as [cached|] eqn:Hcached;
        [|destruct (acceptsHTML request) eqn:Hhtml]; cbn [fst snd].
      * split; [now eexists|].
        split; [intros ? [= <-] [H|H]; congruence|].
        split; [intros ? ? _ _ _; reflexivity|].
        split; [discriminate|].
        split; [split; [discriminate|intros (_ & H & _); discriminate H]|discriminate].
      * split; [now eexists|].
        split; [intros ? [= <-] [H|H]; congruence|].
        split; [intros ? ? _ _ _; reflexivity|].
        split; [discriminate|].
        split; [|discriminate].
        split.
        -- intros [= H]. split; [right; now exists response, refusal|]. now repeat split.
        -- intros (_ & _ & _ & H). now rewrite H.
      * split; [now eexists|].
        split; [intros ? [= <-] [H|H]; congruence|].
        split; [intros ? ? _ _ _; reflexivity|].
        split; [discriminate|].
        split; [split; [discriminate|intros (_ & _ & H & _); discriminate H]|discriminate].
    + split; [now eexists|]. split; [now intros ? [= <-]|].
      split; [intros ? ? [= <-] _ H; congruence|].
      split; [discriminate|].
      split; [|discriminate].
      split; [discriminate|].
      intros ([(? & H)|(? & ? & [= <-] & _ & H)] & _); congruence.
    + split; [now eexists|]. split; [now intros ? [= <-]|].
      split; [intros ? ? [= <-] H; congruence|].
      split; [discriminate|].
      split; [|discriminate].
      split; [discriminate|].
      intros ([(? & H)|(? & ? & [= <-] & H & _)] & _); congruence.
  - destruct (caches_match (url request) caches) as [cached|] eqn:Hcached;
      [|destruct (acceptsHTML request) eqn:Hhtml]; cbn [fst snd].
    + split; [now eexists|]. split; [discriminate|]. split; [discriminate|].
      split; [intros ? _; split; [reflexivity|now intros ? [= <-]]|].
      split; [split; [discriminate|intros (_ & H & _); discriminate H]|discriminate].
    + split; [now eexists|]. split; [discriminate|]. split; [discriminate|].
      split; [intros ? _; split; [reflexivity|discriminate]|].
      split; [|discriminate].
      split.
      * intros [= H]. split; [left; now eexists|]. now repeat split.
      * intros (_ & _ & _ & H). now rewrite H.
    + split; [now eexists|]. split; [discriminate|]. split; [discriminate|].
      split; [intros ? _; split; [reflexivity|discriminate]|].
      split; [split; [discriminate|intros (_ & _ & H & _); discriminate H]|].
      intros ? _ _ _. eexists. split; [reflexivity|]. split; reflexivity.
Qed.

(** X24.  On a cache hit [cacheFirst] returns the cached response whatever
    the network and the cache do.  On a miss it returns the answer of the
    network when that is not one with [ok], or the cache takes it.  It
    rejects only when nothing is cached for the URL and the request does
    not accept HTML, in two cases: the network fails, and then with the
    error of the network; or the cache refuses an answer with [ok], and
    then with the error of the cache, so that the answer is lost. *)
Theorem cacheFirst_outcome (request : Request) (caches : CacheStorage) :
  (forall cached, caches_match (url request) caches = Some cached ->
     fst (cacheFirst fetch cache_put_error request caches) = Ok (Some cached)) /\
  (forall response, caches_match (url request) caches = None ->
     fetch request = Ok response ->
     ok response = false \/ cache_put_error request response = None ->
     fst (cacheFirst fetch cache_put_error request caches) = Ok (Some response)) /\
  (forall error,
     fst (cacheFirst fetch cache_put_error request caches) = Throw error <->
     caches_match (url request) caches = None /\
     acceptsHTML request = false /\
     (fetch request = Throw error \/
      exists response, fetch request = Ok response /\ ok response = true /\
                       cache_put_error request response = Some error)).
Proof.
  run_strategy.
  destruct (caches_match (url request) caches) as [cached|] eqn:Hcached.
  - destruct (fetch request) as [response|e];
      [destruct (ok response);
       [destruct (cache_put_error request response)|]|]; cbn [fst snd];
      (split; [now intros ? [= <-]|]); (split; [discriminate|]);
      intros error; (split; [discriminate|intros (H & _); discriminate H]).
  - destruct (fetch request) as [response|e];
      [destruct (ok response) eqn:Hok;
       [destruct (cache_put_error request response) as [refusal|] eqn:Hput;
        [destruct (acceptsHTML request) eqn:Hhtml|]|]
      |destruct (acceptsHTML request) eqn:Hhtml]; cbn [fst snd];
      (split; [discriminate|]).
    + split; [intros ? _ [= <-] [H|H]; congruence|].
      intros error. split; [discriminate|intros (_ & H & _); discriminate H].
    + split; [intros ? _ [= <-] [H|H]; congruence|].
      intros error. split.
      * intros [= <-]. split; [reflexivity|]. split; [reflexivity|].
        right. now exists response.
      * intros (_ & _ & [H|(r & [= <-] & _ & H)]); congruence.
    + split; [now intros ? _ [= <-]|].
      intros error. split; [discriminate|].
      intros (_ & _ & [H|(r & [= <-] & _ & H)]); congruence.
    + split; [now intros ? _ [= <-]|].
      intros error. split; [discriminate|].
      intros (_ & _ & [H|(r & [= <-] & H & _)]); congruence.
    + split; [discriminate|].
      intros error. split; [discriminate|intros (_ & H & _); discriminate H].
    + split; [discriminate|].
      intros error. split.
      * intros [= <-]. split; [reflexivity|]. split; [reflexivity|now left].
      * intros (_ & _ & [[= <-]|(r & H & _)]); [reflexivity|discriminate H].
Qed.

Lemma onlyOk_update (f : Cache -> Cache) (caches : CacheStorage) :
  (forall cache url response,
      (cache = [] \/ In (CACHE_NAME, cache) caches) ->
      In (url, response) (f cache) ->
      In (url, response) cache \/ ok response = true) ->
  onlyOk caches -> onlyOk (caches_update CACHE_NAME f caches).
Proof.
  intros Hf Hall name cache u r Hin Hentry.
  destruct (caches_update_In _ _ _ _ Hin) as [Hold|(-> & old & -> & Hold)].
  - eapply Hall; eassumption.
  - destruct (Hf old u r Hold Hentry) as [Hentry'|Hok]; [|exact Hok].
    destruct Hold as [->|Hold]; [contradiction|]. eapply Hall; eassumption.
Qed.

Lemma onlyOk_open (caches : CacheStorage) :
  onlyOk caches -> onlyOk (caches_update CACHE_NAME (fun cache => cache) caches).
Proof.
  apply onlyOk_update. intros cache u r _ Hin. now left.
Qed.

Lemma onlyOk_put (request : Request) (response : Response) (caches : CacheStorage) :
  onlyOk caches -> ok response = true ->
  onlyOk (caches_update CACHE_NAME (cache_put (url request) response) caches).
Proof.
  intros Hall Hok. apply onlyOk_update; [|exact Hall].
  intros cache u r _ Hentry.
  unfold cache_put in Hentry. apply in_app_iff in Hentry as [Hentry|[[= <- <-]|[]]].
  - apply filter_In in Hentry as [Hentry _]. now left.
  - now right.
Qed.

(** X25.  The strategies only ever put responses with [ok] into the
    cache: if every cached response is one with [ok] before
    [networkFirst], [cacheFirst] or [cacheOnly] runs, the same holds
    afterwards, whatever the network answers. *)
Theorem strategies_cache_only_ok (request : Request) (caches : CacheStorage) :
  onlyOk caches ->
  onlyOk (snd (networkFirst fetch cache_put_error request caches)) /\
  onlyOk (snd (cacheFirst fetch cache_put_error request caches)) /\
  onlyOk (snd (cacheOnly request caches)).
Proof.
  intros Hall. run_strategy.
  destruct (fetch request) as [response|error];
    [destruct (ok response) eqn:Hok;
     [destruct (cache_put_error request response)|]|];
    destruct (caches_match (url request) caches);
    try destruct (acceptsHTML request); cbn [fst snd];
    repeat rewrite caches_match_open;
    try destruct (caches_match (url request) caches);
    try destruct (acceptsHTML request); cbn [fst snd];
    repeat split; try exact Hall;
    repeat rewrite caches_update_update;
    first [now apply onlyOk_put | now apply onlyOk_open].
Qed.

(** X26.  A response with [ok] that [networkFirst] has fetched and the
    cache has taken is what the worker answers later from the cache,
    through [cacheOnly] and through [networkFirst] when the network
    fails, provided no cache other than the current one answers for the
    URL.  When an older cache that comes first in the storage holds the
    URL, the later answers are its stale response instead. *)
Theorem networkFirst_then_offline
    (request : Request) (caches : CacheStorage) (response : Response) :
  fetch request = Ok response ->
  ok response = true ->
  cache_put_error request response = None ->
  let caches' := snd (networkFirst fetch cache_put_error request caches) in
  (unshadowed (url request) caches ->
   fst (cacheOnly request caches') = Ok (Some response) /\
   forall offline error,
     offline request = Throw error ->
     fst (networkFirst offline cache_put_error request caches') = Ok (Some response)) /\
  (forall name old stale rest,
     caches = (name, old) :: rest -> name <> CACHE_NAME ->
     cache_match (url request) old = Some stale ->
     fst (cacheOnly request caches') = Ok (Some stale)).
Proof.
  intros Hfetch Hok Hput caches'.
  assert (Hcaches' : caches' = caches_update CACHE_NAME
                                 (cache_put (url request) response) caches).
  { unfold caches'. run_strategy. rewrite Hfetch, Hok, Hput. cbn [fst snd].
    now rewrite caches_update_update. }
  split.
  - intros Hclear.
    pose proof (caches_match_update (url request) response caches Hclear) as Hmatch.
    rewrite <- Hcaches' in Hmatch. split.
    + run_strategy. now rewrite Hmatch.
    + intros offline error Hoffline. run_strategy. now rewrite Hoffline, Hmatch.
  - intros name old stale rest -> Hname Hstale.
    rewrite Hcaches'. cbn [caches_update]. apply String.eqb_neq in Hname.
    rewrite Hname. run_strategy. cbn [caches_match]. now rewrite Hstale.
Qed.

End CacheFacts.

Section MaintenanceFacts.

Import SW.

Local Open Scope list_scope.

Lemma fold_caches_delete (keys : list string) (caches : CacheStorage) :
  fold_left (fun caches key => caches_delete key caches) keys caches
  = filter (fun c => negb (existsb (String.eqb (fst c)) keys)) caches.
Proof.
  revert caches. induction keys as [|key keys IH]; intros caches.
  - cbn [fold_left existsb negb]. induction caches as [|c caches IHc]; [reflexivity|].
    cbn [filter]. now rewrite <- IHc.
  - cbn [fold_left]. rewrite IH. unfold caches_delete.
    induction caches as [|c caches IHc]; [reflexivity|].
    cbn [filter existsb]. destruct (fst c =? key)%string; cbn [negb orb].
    + exact IHc.
    + cbn [filter]. destruct (negb (existsb (String.eqb (fst c)) keys)); [|exact IHc].
      now rewrite IHc.
Qed.

(** X27.  Activation deletes every cache but the current one and leaves
    the current one as it is; afterwards no other cache can answer in its
    place for any URL. *)
Theorem activate_keeps_current (caches : CacheStorage) :
  activate caches = filter (fun c => (fst c =? CACHE_NAME)%string) caches /\
  (forall key, In key (caches_keys (activate caches)) -> key = CACHE_NAME) /\
  caches_open CACHE_NAME (activate caches) = caches_open CACHE_NAME caches /\
  (forall url, unshadowed url (activate caches)).
Proof.
  assert (Hfilter : activate caches
                    = filter (fun c => (fst c =? CACHE_NAME)%string) caches).
  { unfold activate, caches_keys. rewrite fold_caches_delete.
    apply filter_ext_in. intros [key cache] Hin. cbn [fst].
    destruct (key =? CACHE_NAME)%string eqn:E.
    - apply negb_true_iff. apply not_true_is_false. intros Hex.
      apply existsb_exists in Hex as (k & Hk & Heq). apply String.eqb_eq in Heq. subst k.
      apply filter_In in Hk as [_ Hk]. rewrite E in Hk. discriminate.
    - apply negb_false_iff. apply existsb_exists. exists key.
      split; [|apply String.eqb_refl].
      apply filter_In. split; [|now rewrite E].
      apply in_map_iff. now exists (key, cache). }
  split; [exact Hfilter|]. rewrite Hfilter. split; [|split].
  - intros key Hkey. unfold caches_keys in Hkey.
    apply in_map_iff in Hkey as ([k c] & <- & Hin).
    apply filter_In in Hin as [_ Hk]. now apply String.eqb_eq.
  - clear Hfilter. unfold caches_open.
    induction caches as [|[key c] rest IH]; [reflexivity|].
    cbn [filter fst]. destruct (key =? CACHE_NAME)%string eqn:E.
    + cbn [find fst]. now rewrite E.
    + cbn [find fst]. rewrite E. exact IH.
  - intros url name cache Hin Hname.
    apply filter_In in Hin as [_ Hk]. cbn [fst] in Hk.
    apply String.eqb_eq in Hk. contradiction.
Qed.

Lemma caches_open_update (name : string) (f : Cache -> Cache) (caches : CacheStorage) :
  caches_open name (caches_update name f caches) = f (caches_open name caches) /\
  forall other, other <> name ->
    caches_open other (caches_update name f caches) = caches_open other caches.
Proof.
  unfold caches_open. induction caches as [|[key c] rest [IHsame IHother]].
  - cbn [caches_update find fst snd]. rewrite String.eqb_refl. split; [reflexivity|].
    intros other Hother. apply String.eqb_neq in Hother.
    rewrite String.eqb_sym in Hother. now rewrite Hother.
  - cbn [caches_update]. destruct (key =? name)%string eqn:E.
    + cbn [find fst snd]. rewrite E. split; [reflexivity|].
      intros other Hother. apply String.eqb_eq in E. subst key.
      apply String.eqb_neq in Hother. rewrite String.eqb_sym in Hother.
      now rewrite Hother.
    + cbn [find fst snd]. rewrite E. split; [exact IHsame|].
      intros other Hother. destruct (key =? other)%string; [reflexivity|].
      now apply IHother.
Qed.

Lemma cache_match_skip (url : string) (before after : Cache) :
  ~ In url (map fst before) ->
  cache_match url (before ++ after) = cache_match url after.
Proof.
  intros Hnot. unfold cache_match. rewrite find_app_first.
  assert (Hnone : find (fun entry => (fst entry =? url)%string) before = None).
  { induction before as [|e before IH]; [reflexivity|].
    cbn [find]. destruct (fst e =? url)%string eqn:E.
    - apply String.eqb_eq in E. exfalso. apply Hnot. now left.
    - apply IH. intros Hin. apply Hnot. now right. }
  now rewrite Hnone.
Qed.

Lemma cache_delete_absent (url : string) (cache : Cache) :
  ~ In url (map fst cache) -> cache_delete url cache = cache.
Proof.
  intros Hnot. unfold cache_delete. induction cache as [|e cache IH]; [reflexivity|].
  cbn [filter]. destruct (fst e =? url)%string eqn:E.
  - apply String.eqb_eq in E. exfalso. apply Hnot. now left.
  - cbn [negb]. rewrite IH; [reflexivity|]. intros Hin. apply Hnot. now right.
Qed.

(** The loop of [cleanupOldCacheEntries] over the entries still to visit. *)
Lemma cleanup_loop (now : Z) (visited todo : Cache) :
  NoDup (map fst (visited ++ todo)) ->
  fold_left
    (fun cache request =>
       match cache_match request cache with
       | Some response =>
           match date response with
           | Some cachedDate =>
               if (now - cachedDate >? 7 * 24 * 60 * 60 * 1000)%Z
               then cache_delete request cache
               else cache
           | None => cache
           end
       | None => cache
       end)
    (map fst todo) (visited ++ todo)
  = (visited ++ filter (fun entry => negb (expired now (snd entry))) todo)%list.
Proof.
  revert visited. induction todo as [|[u r] todo IH]; intros visited Hnodup.
  - reflexivity.
  - cbn [map fst fold_left].
    rewrite map_app in Hnodup. cbn [map fst] in Hnodup.
    pose proof (NoDup_remove_2 _ _ _ Hnodup) as Hfresh.
    assert (Hvisited : ~ In u (map fst visited)).
    { intros Hin. apply Hfresh. apply in_app_iff. now left. }
    assert (Htodo : ~ In u (map fst todo)).
    { intros Hin. apply Hfresh. apply in_app_iff. now right. }
    assert (Hhead : cache_match u ((u, r) :: todo) = Some r).
    { unfold cache_match. cbn [find fst snd]. now rewrite String.eqb_refl. }
    rewrite (cache_match_skip u visited _ Hvisited), Hhead.
    cbn [filter snd].
    assert (Hexpired : expired now r
                       = match date r with
                         | Some cachedDate => (now - cachedDate >? 7 * 24 * 60 * 60 * 1000)%Z
                         | None => false
                         end) by reflexivity.
    rewrite Hexpired. clear Hexpired.
    destruct (date r) as [cachedDate|];
      [destruct (now - cachedDate >? 7 * 24 * 60 * 60 * 1000)%Z|]; cbn [negb].
    + assert (Hdelete : cache_delete u (visited ++ (u, r) :: todo)
                        = (visited ++ todo)%list).
      { unfold cache_delete. rewrite filter_app. cbn [filter fst].
        rewrite String.eqb_refl. cbn [negb].
        fold (cache_delete u visited). fold (cache_delete u todo).
        now rewrite !cache_delete_absent. }
      rewrite Hdelete. apply IH.
      rewrite map_app. now apply NoDup_remove_1 in Hnodup.
    + replace (visited ++ (u, r) :: todo)%list
        with ((visited ++ [(u, r)]) ++ todo)%list by now rewrite <- app_assoc.
      rewrite IH; [now rewrite <- app_assoc|].
      now rewrite <- app_assoc, map_app.
    + replace (visited ++ (u, r) :: todo)%list
        with ((visited ++ [(u, r)]) ++ todo)%list by now rewrite <- app_assoc.
      rewrite IH; [now rewrite <- app_assoc|].
      now rewrite <- app_assoc, map_app.
Qed.

(** X28.  [cleanupOldCacheEntries] removes from the current cache exactly
    the entries whose [date] header lies more than seven days back: an
    entry without a readable date is never removed, an entry that is
    exactly seven days old stays, the order of the remaining entries is
    kept and the other caches are not touched. *)
Theorem cleanupOldCacheEntries_removes_expired (now : Z) (caches : CacheStorage) :
  NoDup (map fst (caches_open CACHE_NAME caches)) ->
  caches_open CACHE_NAME (cleanupOldCacheEntries now caches)
  = filter (fun entry => negb (expired now (snd entry))) (caches_open CACHE_NAME caches) /\
  (forall response,
      date response = None \/
      (exists cachedDate, date response = Some cachedDate /\
                          (now - cachedDate <= 604800000)%Z) ->
      expired now response = false) /\
  (forall other, other <> CACHE_NAME ->
     caches_open other (cleanupOldCacheEntries now caches) = caches_open other caches).
Proof.
  intros Hnodup. unfold cleanupOldCacheEntries.
  destruct (caches_open_update CACHE_NAME
              (fun cache =>
                 fold_left
                   (fun cache request =>
                      match cache_match request cache with
                      | Some response =>
                          match date response with
                          | Some cachedDate =>
                              if (now - cachedDate >? 7 * 24 * 60 * 60 * 1000)%Z
                              then cache_delete request cache
                              else cache
                          | None => cache
                          end
                      | None => cache
                      end)
                   (map fst cache) cache) caches) as [Hsame Hother].
  split; [|split; [|exact Hother]].
  - rewrite Hsame. exact (cleanup_loop now [] _ Hnodup).
  - intros response [Hnone|(cachedDate & Hdate & Hage)]; unfold expired.
    + now rewrite Hnone.
    + rewrite Hdate, Z.gtb_ltb. apply Z.ltb_ge. lia.
Qed.

End MaintenanceFacts.

Section DataStoreFacts.

Import SW.

Local Open Scope list_scope.

Variable V : Type.
Variable JSON_stringify : list V -> string.
Variable JSON_parse : string -> option (list V).
Hypothesis JSON_round_trip : forall value, JSON_parse (JSON_stringify value) = Some value.

(** X29.  What [storeData] stores under a key is what [getStoredData]
    reads back under that key, and the values of the other keys stay as
    they were. *)
Theorem storeData_getStoredData (key : string) (value : list V) (caches : CacheStorage) :
  fst (getStoredData JSON_parse key (storeData JSON_stringify key value caches))
  = Some value /\
  forall other, other <> key ->
    fst (getStoredData JSON_parse other (storeData JSON_stringify key value caches))
    = fst (getStoredData JSON_parse other caches).
Proof.
  unfold getStoredData, storeData. cbn [fst].
  split.
  - rewrite (proj1 (caches_open_update CACHE_NAME _ _)).
    rewrite (proj1 (caches_open_update CACHE_NAME _ _)).
    rewrite cache_match_put_same. cbn [body]. apply JSON_round_trip.
  - intros other Hother.
    rewrite !(proj1 (caches_open_update CACHE_NAME _ _)).
    rewrite cache_match_put_other; [reflexivity|].
    intros Heq. apply Hother. cbn in Heq. now injection Heq.
Qed.

Variable post : V -> result Response.
Variable isJSON : string -> bool.

(** X30.  Background synchronisation loses no attendance record: after
    [syncAttendanceData] the queue holds, in their order, exactly the
    records whose upload was rejected, and the two counts it reports add
    up to the length of the queue.  A record whose upload got an [ok]
    answer that is not JSON stays in the queue as well. *)
Theorem syncAttendanceData_queue (caches : CacheStorage) (queue : list V) :
  fst (getStoredData JSON_parse "attendance_queue" caches) = Some queue ->
  queue <> [] ->
  let after := syncAttendanceData JSON_stringify JSON_parse post isJSON caches in
  fst (getStoredData JSON_parse "attendance_queue" (fst after))
  = Some (filter (rejected post isJSON) queue) /\
  (exists success failed,
      snd after = Some (success, failed) /\
      (success + failed = Z.of_nat (List.length queue))%Z /\
      failed = Z.of_nat (List.length (filter (rejected post isJSON) queue))) /\
  (forall record response,
      In record queue -> post record = Ok response -> ok response = true ->
      isJSON (body response) = false ->
      In record (filter (rejected post isJSON) queue)).
Proof.
  intros Hqueue Hne after. unfold after, syncAttendanceData.
  destruct (getStoredData JSON_parse "attendance_queue" caches) as [data caches'] eqn:E.
  cbn [fst] in Hqueue. subst data.
  destruct queue as [|first others]; [congruence|].
  cbn [fst snd]. split; [apply storeData_getStoredData|]. split.
  - eexists. eexists. split; [reflexivity|]. split; [|reflexivity].
    generalize (first :: others). intros l.
    induction l as [|r l IH]; [reflexivity|].
    cbn [filter]. destruct (rejected post isJSON r); cbn [negb List.length]; lia.
  - intros record response Hin Hpost Hok Hjson.
    apply filter_In. split; [exact Hin|].
    unfold rejected, syncAttendanceRecord. now rewrite Hpost, Hok, Hjson.
Qed.

End DataStoreFacts.

Section BrowsingFacts.

Import SW Browsing.

Local Open Scope list_scope.

Lemma stored_onlyOk : onlyOk stored.
Proof.
  intros name cache url response [Hc|[]] Hin. injection Hc as _ <-.
  destruct Hin as [He|[]]. now injection He as _ <-.
Defined.

Lemma stored_unshadowed : unshadowed (url tasksRequest) stored.
Proof.
  intros name cache [Hc|[]] Hname. injection Hc as <- _. now elim Hname.
Defined.

(** A partial response is lost: the network answers with the status 206,
    the cache refuses it, and [networkFirst] answers with the status 408,
    [cacheFirst] rejects with the error of the cache. *)
Lemma networkFirst_outcome_witness :
  streaming tasksRequest = Ok clip /\ ok clip = true /\
  refusesPartial tasksRequest clip = Some "TypeError" /\
  fst (networkFirst streaming refusesPartial tasksRequest stored)
  = Ok (Some {| ok := false; status := 408; body := "Network error"; date := None |}).
Proof.
  split; [reflexivity|]. split; [reflexivity|]. split; [reflexivity|].
  rewrite (proj1 (proj2 (proj2 (networkFirst_outcome streaming refusesPartial
                                  tasksRequest stored)))
             clip "TypeError" eq_refl eq_refl eq_refl).
  reflexivity.
Defined.

Lemma cacheFirst_outcome_witness :
  fst (cacheFirst streaming refusesPartial tasksRequest stored) = Throw "TypeError".
Proof.
  apply (proj2 (proj2 (cacheFirst_outcome streaming refusesPartial tasksRequest stored))).
  split; [reflexivity|]. split; [reflexivity|].
  right. exists clip. split; [reflexivity|]. split; reflexivity.
Defined.

Lemma strategies_cache_only_ok_witness :
  onlyOk stored /\
  onlyOk (snd (networkFirst online refusesPartial tasksRequest stored)).
Proof.
  split; [exact stored_onlyOk|].
  exact (proj1 (strategies_cache_only_ok online refusesPartial tasksRequest stored
                  stored_onlyOk)).
Defined.

Lemma networkFirst_then_offline_witness :
  online tasksRequest = Ok tasks /\ ok tasks = true /\
  refusesPartial tasksRequest tasks = None /\
  unshadowed (url tasksRequest) stored /\
  fst (cacheOnly tasksRequest
         (snd (networkFirst online refusesPartial tasksRequest stored)))
  = Ok (Some tasks).
Proof.
  split; [reflexivity|]. split; [reflexivity|]. split; [reflexivity|].
  split; [exact stored_unshadowed|].
  exact (proj1 (proj1 (networkFirst_then_offline online refusesPartial tasksRequest
                         stored tasks eq_refl eq_refl eq_refl) stored_unshadowed)).
Defined.

Lemma aged_NoDup : NoDup (map fst (caches_open CACHE_NAME aged)).
Proof.
  cbn. constructor; [|constructor; [|constructor]].
  - intros [H|[]]. discriminate H.
  - intros [].
Defined.

Lemma cleanupOldCacheEntries_removes_expired_witness :
  NoDup (map fst (caches_open CACHE_NAME aged)) /\
  caches_open CACHE_NAME (cleanupOldCacheEntries 700000001 aged)
  = [("/api/tasks", tasks)].
Proof.
  split; [exact aged_NoDup|].
  rewrite (proj1 (cleanupOldCacheEntries_removes_expired 700000001 aged aged_NoDup)).
  reflexivity.
Defined.

Lemma parse_stringify (value : list Ascii.ascii) : parse (stringify value) = Some value.
Proof.
  unfold parse, stringify. now rewrite list_ascii_of_string_of_list_ascii.
Defined.

Lemma storeData_getStoredData_witness :
  (forall value, parse (stringify value) = Some value) /\
  fst (getStoredData parse "attendance_queue"
         (storeData stringify "attendance_queue" ["a"%char; "b"%char] stored))
  = Some ["a"%char; "b"%char].
Proof.
  split; [exact parse_stringify|].
  exact (proj1 (storeData_getStoredData _ stringify parse parse_stringify
                  "attendance_queue" ["a"%char; "b"%char] stored)).
Defined.

Lemma syncAttendanceData_queue_witness :
  (forall value, parse (stringify value) = Some value) /\
  fst (getStoredData parse "attendance_queue" queued) = Some ["a"%char; "b"%char] /\
  ["a"%char; "b"%char] <> [] /\
  fst (getStoredData parse "attendance_queue"
         (fst (syncAttendanceData stringify parse upload (fun _ => true) queued)))
  = Some ["b"%char].
Proof.
  split; [exact parse_stringify|].
  assert (Hqueue : fst (getStoredData parse "attendance_queue" queued)
                   = Some ["a"%char; "b"%char]) by reflexivity.
  assert (Hne : ["a"%char; "b"%char] <> @nil Ascii.ascii) by discriminate.
  split; [exact Hqueue|]. split; [exact Hne|].
  exact (proj1 (syncAttendanceData_queue _ stringify parse parse_stringify
                  upload (fun _ => true) queued ["a"%char; "b"%char] Hqueue Hne)).
Defined.

End BrowsingFacts.
